(** * cerb: the wildcard-DNS nginx block generator and the terminal client

    A shallow embedding of [scripts/generate-nginx-blocks.sh] and of the
    WebSocket handlers of the web terminal component, with the properties
    of the instance-routing specification that they decide.

    The shell script is modelled by state passing over a [world]: the part
    of the file system the script touches, its standard output, the clock
    read by [date], the lines printed by the container runtime and the
    trace of the calls to nginx.  A run of the script is [main], from the
    arguments and the world to the world it leaves and the exit status; the
    answer is [None] when an argument takes sed or the paths out of the
    fragment that is modelled.  The external tools ([mkdir -p], the
    redirection [>], [sed], [ln -sf], [rm -f], [nginx -t],
    [systemctl reload]) are modelled in the parts on sed and on the world.

    The terminal client is modelled in the module [Terminal]: every handler
    is a function on the state of the client.

    The definitions come first, the lemmas and the claims after them. *)

From stdpp Require Import gmap strings list pretty.
From Stdlib Require Import Ascii.

(** ** Characters and strings *)

Definition nl : ascii := ascii_of_nat 10.
Definition dquote : ascii := ascii_of_nat 34.
Definition esc : ascii := ascii_of_nat 27.

(** [starts_with p s]: the string [s] begins with [p]. *)
Fixpoint starts_with (p s : string) : bool :=
  match p, s with
  | EmptyString, _ => true
  | String a p', String b s' => if Ascii.eqb a b then starts_with p' s' else false
  | String _ _, EmptyString => false
  end.

(** [has_char c s]: the character [c] occurs in [s]. *)
Fixpoint has_char (c : ascii) (s : string) : bool :=
  match s with
  | EmptyString => false
  | String a s' => if Ascii.eqb a c then true else has_char c s'
  end.

(** [contains sub s]: [sub] occurs in [s] as a contiguous substring. *)
Fixpoint contains (sub s : string) : bool :=
  if starts_with sub s then true
  else match s with
       | EmptyString => false
       | String _ s' => contains sub s'
       end.

(** The pieces of [s] between its newline characters; a text that ends with
    a newline has an empty last piece. *)
Fixpoint split_lines (s : string) : list string :=
  match s with
  | EmptyString => [EmptyString]
  | String c s' =>
      if Ascii.eqb c nl then EmptyString :: split_lines s'
      else match split_lines s' with
           | l :: ls => String c l :: ls
           | [] => [String c EmptyString]
           end
  end.

(** The inverse of [split_lines]: the pieces separated by newlines. *)
Fixpoint join_lines (ls : list string) : string :=
  match ls with
  | [] => EmptyString
  | [l] => l
  | l :: ls' => l +:+ String nl (join_lines ls')
  end.

(** ** sed

    The script calls [sed] with six [-e 's/{placeholder}/value/g'] chunks,
    each built by interpolating a shell variable into the chunk text.  The
    model parses every chunk the way sed does for the fragment
    [s/LITERAL/REPLACEMENT/g]:
    - the regular expression runs up to the first [/] and must consist of
      characters that stand for themselves in a basic regular expression;
    - in the replacement [&] stands for the matched text, [/] closes it, and
      every other character but backslash and newline stands for itself;
    - the flags must be exactly [g].
    A chunk outside this fragment (a value with a backslash or a newline, or
    with a [/], which makes sed read the rest of the value as flags) is not
    given a meaning: [parse_s] answers [None]. *)

Inductive ritem : Type :=
  | RLit (c : ascii)   (* an ordinary character *)
  | RMatch.            (* [&]: the text that was matched *)

Record scmd : Type := SCmd { s_pat : string; s_repl : list ritem }.

Definition bre_ordinary (c : ascii) : bool :=
  negb (has_char c (String nl "./\[]*^$")).

(** The literal regular expression of a chunk, up to the delimiter, and the
    text after the delimiter. *)
Fixpoint parse_regex (s : string) : option (string * string) :=
  match s with
  | EmptyString => None
  | String c s' =>
      if Ascii.eqb c "/" then Some (EmptyString, s')
      else if bre_ordinary c then
        match parse_regex s' with
        | Some (p, rest) => Some (String c p, rest)
        | None => None
        end
      else None
  end.

(** The replacement of a chunk, up to the delimiter, and the text after the
    delimiter (the flags). *)
Fixpoint parse_repl (s : string) : option (list ritem * string) :=
  match s with
  | EmptyString => None
  | String c s' =>
      if Ascii.eqb c "/" then Some ([], s')
      else if Ascii.eqb c "\" then None
      else if Ascii.eqb c nl then None
      else match parse_repl s' with
           | Some (items, rest) =>
               Some ((if Ascii.eqb c "&" then RMatch else RLit c) :: items, rest)
           | None => None
           end
  end.

Definition parse_s (chunk : string) : option scmd :=
  match chunk with
  | String "s" (String "/" body) =>
      match parse_regex body with
      | Some (String a p, rest) =>
          match parse_repl rest with
          | Some (items, "g") => Some (SCmd (String a p) items)
          | _ => None
          end
      | _ => None
      end
  | _ => None
  end.

(** The text a replacement stands for when the match is [m]. *)
Fixpoint expand (m : string) (items : list ritem) : string :=
  match items with
  | [] => EmptyString
  | RLit c :: items' => String c (expand m items')
  | RMatch :: items' => m +:+ expand m items'
  end.

(** [gsub_from pat rep skip s]: replace, from left to right, every
    occurrence of the literal [pat] in [s] that does not overlap an earlier
    one by [rep]; the first [skip] characters of [s] belong to the
    occurrence just replaced.  Replaced text is not scanned again. *)
Fixpoint gsub_from (pat rep : string) (skip : nat) (s : string) : string :=
  match s with
  | EmptyString => EmptyString
  | String c s' =>
      match skip with
      | S k => gsub_from pat rep k s'
      | O =>
          if starts_with pat s
          then rep +:+ gsub_from pat rep (String.length pat - 1) s'
          else String c (gsub_from pat rep 0 s')
      end
  end.

Definition gsub (pat rep : string) (s : string) : string :=
  gsub_from pat rep 0 s.

(** One [s/pat/repl/g] command on one line: a literal match is the pattern
    itself, so [&] always stands for [pat]. *)
Definition apply_scmd (line : string) (c : scmd) : string :=
  gsub (s_pat c) (expand (s_pat c) (s_repl c)) line.

(** All commands, in order, on one line. *)
Definition sed_line (cmds : list scmd) (line : string) : string :=
  foldl apply_scmd line cmds.

(** [sed -e c1 -e c2 ... file]: [None] when a chunk is outside the modelled
    fragment, otherwise every line of the input rewritten by all commands. *)
Definition sed (chunks : list string) (input : string) : option string :=
  cmds ← mapM parse_s chunks;
  Some (join_lines (sed_line cmds <$> split_lines input)).

(** ** The world of the script

    Paths are absolute and are compared as strings: the model has no
    [.]/[..] components, no repeated slashes and no symbolic links to
    directories.  The script runs as root, so permissions never fail. *)

Inductive node : Type :=
  | File (content : string)   (* a regular file *)
  | Link (target : string).   (* a symbolic link *)

(** What the script asks of the proxy. *)
Inductive call : Type :=
  | NginxTest (ok : bool)     (* [nginx -t] and its verdict *)
  | SystemctlReload.          (* [systemctl reload nginx] *)

Record world : Type := World {
  dirs : gset string;               (* the directories that exist *)
  files : gmap string node;         (* regular files and symbolic links *)
  stdout : list string;             (* the lines echoed, oldest first *)
  now : string;                     (* what [date -Iseconds] prints *)
  nginx_accepts : gmap string node → bool;   (* the verdict of [nginx -t] *)
  calls : list call;                (* the calls to the proxy, oldest first *)
  docker_events : list string;      (* the lines [docker events] prints *)
  docker_ps : list string;          (* the ids of the running labeled containers *)
  script_name : string              (* [$0] *)
}.

Definition set_dirs (d : gset string) (w : world) : world :=
  World d (files w) (stdout w) (now w) (nginx_accepts w) (calls w)
        (docker_events w) (docker_ps w) (script_name w).

Definition set_files (f : gmap string node) (w : world) : world :=
  World (dirs w) f (stdout w) (now w) (nginx_accepts w) (calls w)
        (docker_events w) (docker_ps w) (script_name w).

(** [echo line]. *)
Definition echo (line : string) (w : world) : world :=
  World (dirs w) (files w) (stdout w ++ [line]) (now w) (nginx_accepts w)
        (calls w) (docker_events w) (docker_ps w) (script_name w).

Definition record_call (c : call) (w : world) : world :=
  World (dirs w) (files w) (stdout w) (now w) (nginx_accepts w)
        (calls w ++ [c]) (docker_events w) (docker_ps w) (script_name w).

(** The text of [p] before its last slash, if it has one. *)
Fixpoint before_last_slash (p : string) : option string :=
  match p with
  | EmptyString => None
  | String c p' =>
      match before_last_slash p' with
      | Some d => Some (String c d)
      | None => if Ascii.eqb c "/" then Some EmptyString else None
      end
  end.

(** The text of [p] after its last slash. *)
Fixpoint basename (p : string) : string :=
  match p with
  | EmptyString => EmptyString
  | String c p' => if has_char "/" p' then basename p'
                   else if Ascii.eqb c "/" then p' else p
  end.

Definition dirname (p : string) : string :=
  match before_last_slash p with
  | Some EmptyString => "/"
  | Some d => d
  | None => "."
  end.

(** The directories on the way to [s], the outermost first, [s] itself last;
    [pre] is the part of the path already read. *)
Fixpoint ancestors_from (pre s : string) : list string :=
  match s with
  | EmptyString => if String.eqb pre EmptyString then [] else [pre]
  | String c s' =>
      if Ascii.eqb c "/"
      then (if String.eqb pre EmptyString then [] else [pre])
             ++ ancestors_from (pre +:+ "/") s'
      else ancestors_from (pre +:+ String c EmptyString) s'
  end.

Definition is_dir (p : string) (w : world) : bool :=
  String.eqb p "/" || bool_decide (p ∈ dirs w).

(** One step of [mkdir -p]: make the directory [a], whose parent exists.
    It fails, and the remaining steps with it, when [a] is a file or a
    symbolic link. *)
Definition mkdir_step (acc : world * bool) (a : string) : world * bool :=
  let '(w, ok) := acc in
  if negb ok then acc
  else if is_dir a w then acc
  else match files w !! a with
       | Some _ => (w, false)
       | None => (set_dirs ({[a]} ∪ dirs w) w, true)
       end.

(** [mkdir -p p]. *)
Definition mkdir_p (p : string) (w : world) : world :=
  fst (foldl mkdir_step (w, true) (ancestors_from EmptyString p)).

(** The path a chain of symbolic links ends at; at most [fuel] links are
    followed, and the target of a link is read as an absolute path. *)
Fixpoint resolve (fuel : nat) (f : gmap string node) (p : string) : option string :=
  match f !! p with
  | Some (Link t) =>
      match fuel with
      | O => None
      | S k => resolve k f t
      end
  | _ => Some p
  end.

Definition max_links : nat := 40.

(** Opening [p] for writing with creation and truncation, as the shell does
    for [> p], then writing [text]: the final link target must not be a
    directory and its parent directory must exist.  Without that the file
    system is unchanged. *)
Definition write_file (p text : string) (w : world) : world :=
  match resolve max_links (files w) p with
  | Some q =>
      if is_dir q w then w
      else if is_dir (dirname q) w then set_files (<[q := File text]> (files w)) w
      else w
  | None => w
  end.

(** Whether [> p] can open its target. *)
Definition can_write (p : string) (w : world) : bool :=
  match resolve max_links (files w) p with
  | Some q => negb (is_dir q w) && is_dir (dirname q) w
  | None => false
  end.

(** The content read from [p], when it is (a link to) a regular file. *)
Definition read_file (p : string) (w : world) : option string :=
  match resolve max_links (files w) p with
  | Some q =>
      if is_dir q w then None
      else match files w !! q with
           | Some (File text) => Some text
           | _ => None
           end
  | None => None
  end.

(** [ln -sf target link]: a link placed in [link] when that is a directory,
    at [link] otherwise, replacing a file or link that is there. *)
Definition ln_sf (target link : string) (w : world) : world :=
  let dest := if is_dir link w then link +:+ "/" +:+ basename target else link in
  if is_dir dest w then w
  else if is_dir (dirname dest) w then set_files (<[dest := Link target]> (files w)) w
  else w.

(** [rm -f p]: the file or link at [p] is removed; a directory is not. *)
Definition rm_f (p : string) (w : world) : world :=
  if is_dir p w then w else set_files (delete p (files w)) w.

(** ** The script: configuration *)

Definition NGINX_SITES_AVAILABLE : string := "/etc/nginx/sites-available".
Definition NGINX_SITES_ENABLED : string := "/etc/nginx/sites-enabled".
Definition TEMPLATE_FILE : string := "/etc/nginx/templates/challenge.conf.template".
Definition LOG_DIR : string := "/var/log/nginx/challenges".
Definition ORCHESTRATOR_LABEL : string := "ctf.challenge".

(** Every line followed by a newline, as a here-document is written. *)
Fixpoint unlines (ls : list string) : string :=
  match ls with
  | [] => EmptyString
  | l :: ls' => l +:+ String nl (unlines ls')
  end.

(** The lines of the here-document of [create_template]; its delimiter is
    quoted, so the shell expands nothing in them. *)
Definition template_lines : list string :=
  [ "# Challenge Instance: {challenge_name}";
    "# Generated: {timestamp}";
    "# Container: {container_id}";
    "";
    "server {";
    "    listen 80;";
    "    server_name {hostname};";
    "";
    "    # Challenge instance proxy";
    "    location / {";
    "        proxy_pass http://{container_ip}:{container_port}/;";
    "        proxy_http_version 1.1;";
    "        proxy_set_header Upgrade $http_upgrade;";
    "        proxy_set_header Connection " +:+ String dquote ("upgrade" +:+ String dquote (";"));
    "        proxy_set_header Host $host;";
    "        proxy_set_header X-Real-IP $remote_addr;";
    "        proxy_set_header X-Forwarded-For $proxy_add_x_forwarded_for;";
    "        proxy_set_header X-Forwarded-Proto $scheme;";
    "        ";
    "        # Timeouts for long-running challenges";
    "        proxy_connect_timeout 60s;";
    "        proxy_send_timeout 60s;";
    "        proxy_read_timeout 60s;";
    "        ";
    "        # WebSocket support";
    "        proxy_read_timeout 3600s;";
    "        proxy_send_timeout 3600s;";
    "    }";
    "";
    "    # Health check endpoint";
    "    location /health {";
    "        access_log off;";
    "        return 200 " +:+ String dquote ("healthy\n" +:+ String dquote (";"));
    "        add_header Content-Type text/plain;";
    "    }";
    "";
    "    # Logging";
    "    access_log /var/log/nginx/challenges/{hostname}_access.log;";
    "    error_log /var/log/nginx/challenges/{hostname}_error.log;";
    "}" ].

Definition challenge_template : string := unlines template_lines.

(** ** The script: functions *)

Definition ensure_directories (w : world) : world :=
  mkdir_p (dirname TEMPLATE_FILE)
    (mkdir_p LOG_DIR
       (mkdir_p NGINX_SITES_ENABLED
          (mkdir_p NGINX_SITES_AVAILABLE w))).

(** [cat > "$TEMPLATE_FILE" << 'EOF' ... EOF]. *)
Definition create_template (w : world) : world :=
  write_file TEMPLATE_FILE challenge_template w.

(** [hostname="${challenge_name}.challenges.ctf.com"]. *)
Definition hostname_of (challenge_name : string) : string :=
  challenge_name +:+ ".challenges.ctf.com".

Definition conf_file_of (hostname : string) : string :=
  NGINX_SITES_AVAILABLE +:+ "/" +:+ hostname +:+ ".conf".

Definition enabled_link_of (hostname : string) : string :=
  NGINX_SITES_ENABLED +:+ "/" +:+ hostname +:+ ".conf".

(** The six [-e] chunks of the [sed] call, the variables interpolated by the
    shell; [${container_id:0:12}] is the first twelve characters. *)
Definition sed_chunks (hostname container_ip container_port challenge_name
                       timestamp container_id : string) : list string :=
  [ "s/{hostname}/" +:+ hostname +:+ "/g";
    "s/{container_ip}/" +:+ container_ip +:+ "/g";
    "s/{container_port}/" +:+ container_port +:+ "/g";
    "s/{challenge_name}/" +:+ challenge_name +:+ "/g";
    "s/{timestamp}/" +:+ timestamp +:+ "/g";
    "s/{container_id}/" +:+ String.substring 0 12 container_id +:+ "/g" ].

(** [sed ... "$TEMPLATE_FILE" > "$conf_file"]: the shell opens and truncates
    the output first and does not run sed when that fails; sed prints
    nothing when it cannot read the template.  [None]: a chunk is outside
    the modelled fragment of sed. *)
Definition render_to (conf_file : string) (chunks : list string) (w : world)
    : option world :=
  if can_write conf_file w then
    let w1 := write_file conf_file EmptyString w in
    match read_file TEMPLATE_FILE w1 with
    | Some template =>
        text ← sed chunks template;
        Some (write_file conf_file text w1)
    | None => _ ← mapM parse_s chunks; Some w1
    end
  else Some w.

(** The positional parameter [$(i+1)], empty when it is not set. *)
Definition param (i : nat) (args : list string) : string :=
  default EmptyString (args !! i).

Definition generate_for_container (args : list string) (w : world) : option world :=
  let container_id := param 0 args in
  let container_ip := param 1 args in
  let container_port := param 2 args in
  let challenge_name := param 3 args in
  let hostname := hostname_of challenge_name in
  let conf_file := conf_file_of hostname in
  let timestamp := now w in
  w1 ← render_to conf_file
         (sed_chunks hostname container_ip container_port challenge_name
                     timestamp container_id) w;
  let w2 := ln_sf conf_file (enabled_link_of hostname) w1 in
  Some (echo ("Generated: " +:+ hostname +:+ " -> " +:+ container_ip +:+ ":"
                +:+ container_port) w2).

(** Paths are compared as strings, so a hostname with a slash, which can
    walk out of the sites directories, is outside the model: [None]. *)
Definition remove_for_hostname (hostname : string) (w : world) : option world :=
  if has_char "/" hostname then None
  else
    let conf_file := conf_file_of hostname in
    let w1 := rm_f conf_file w in
    let w2 := rm_f (enabled_link_of hostname) w1 in
    Some (echo ("Removed: " +:+ hostname) w2).

(** [nginx -t && systemctl reload nginx], then an [echo] whatever the
    outcome: the status of the function is that of the [echo]. *)
Definition reload_nginx (w : world) : world :=
  let ok := nginx_accepts w (files w) in
  let w1 := record_call (NginxTest ok) w in
  let w2 := if ok then record_call SystemctlReload w1 else w1 in
  echo "Nginx reloaded" w2.

(** The body is [echo ""]; the command substitution that calls it drops
    the newline. *)
Definition get_container_info (container_id : string) : string := EmptyString.

Definition get_hostname_from_container (container_id : string) : string :=
  EmptyString.

Definition is_blank (c : ascii) : bool :=
  Ascii.eqb c " " || Ascii.eqb c (ascii_of_nat 9) || Ascii.eqb c nl.

(** The fields of an unquoted expansion: the maximal runs of characters
    that are not blanks.  [cur] is the field being read. *)
Fixpoint fields_from (cur s : string) : list string :=
  match s with
  | EmptyString => if String.eqb cur EmptyString then [] else [cur]
  | String c s' =>
      if is_blank c
      then (if String.eqb cur EmptyString then [] else [cur])
             ++ fields_from EmptyString s'
      else fields_from (cur +:+ String c EmptyString) s'
  end.

Definition fields (s : string) : list string := fields_from EmptyString s.

Definition handle_container_event (action container_id : string) (w : world)
    : option world :=
  if bool_decide (action ∈ ["start"; "create"]) then
    let container_info := get_container_info container_id in
    if negb (String.eqb container_info EmptyString) then
      w1 ← generate_for_container (fields container_info) w;
      Some (reload_nginx w1)
    else Some w
  else if bool_decide (action ∈ ["stop"; "die"]) then
    let hostname := get_hostname_from_container container_id in
    if negb (String.eqb hostname EmptyString) then
      w1 ← remove_for_hostname hostname w;
      Some (reload_nginx w1)
    else Some w
  else Some w.

(** [read action container_id], which is called without [-r]: a backslash
    is removed and protects the character after it, which is then never
    a separator; [action] is the first field of the line and
    [container_id] the rest of the line without the blanks around it. *)
Fixpoint drop_blanks (s : string) : string :=
  match s with
  | String c s' => if is_blank c then drop_blanks s' else s
  | EmptyString => EmptyString
  end.

Fixpoint first_field (s : string) : string * string :=
  match s with
  | EmptyString => (EmptyString, EmptyString)
  | String c s1 =>
      if Ascii.eqb c "\" then
        match s1 with
        | EmptyString => (EmptyString, EmptyString)
        | String c2 s2 =>
            let '(f, rest) := first_field s2 in (String c2 f, rest)
        end
      else if is_blank c then (EmptyString, s1)
      else let '(f, rest) := first_field s1 in (String c f, rest)
  end.

Fixpoint last_field (s : string) : string :=
  match s with
  | EmptyString => EmptyString
  | String c s1 =>
      if Ascii.eqb c "\" then
        match s1 with
        | EmptyString => EmptyString
        | String c2 s2 => String c2 (last_field s2)
        end
      else
        match last_field s1 with
        | EmptyString => if is_blank c then EmptyString else String c EmptyString
        | r => String c r
        end
  end.

Definition read_two (line : string) : string * string :=
  let '(action, rest) := first_field (drop_blanks line) in
  (action, last_field (drop_blanks rest)).

(** A line that ends in a backslash which is not itself protected goes
    on in the next line: [continued line] is the line without that
    backslash, and [None] for a line that ends where it ends. *)
Fixpoint continued (s : string) : option string :=
  match s with
  | EmptyString => None
  | String c s1 =>
      if Ascii.eqb c "\" then
        match s1 with
        | EmptyString => Some EmptyString
        | String c2 s2 =>
            (fun p => String c (String c2 p)) <$> continued s2
        end
      else String c <$> continued s1
  end.

(** [docker events ... | while read action container_id; do ...; done] on
    the lines that the runtime has printed so far; [pending] is what
    [read] holds of a line that goes on, and [read] fails, which ends
    the loop, when the input ends inside such a line. *)
Fixpoint watch_lines (pending : string) (events : list string) (w : world)
    : option world :=
  match events with
  | [] => Some w
  | line :: rest =>
      match continued line with
      | Some part => watch_lines (pending +:+ part) rest w
      | None =>
          let '(action, container_id) := read_two (pending +:+ line) in
          w1 ← handle_container_event action container_id w;
          watch_lines EmptyString rest w1
      end
  end.

Definition watch_loop (events : list string) (w : world) : option world :=
  watch_lines EmptyString events w.

Definition watch_docker_events (w : world) : option world :=
  watch_loop (docker_events w) w.

(** The loop over the running containers is commented out in the source:
    the function only prints its two messages. *)
Definition sync_all_containers (w : world) : world :=
  echo "Sync complete" (echo "Syncing all challenge containers..." w).

Definition usage (w : world) : world :=
  foldl (fun acc line => echo line acc) w
    [ "Usage: " +:+ script_name w +:+ " {generate|remove|watch|sync|init}";
      "";
      "Commands:";
      "  generate <id> <ip> <port> <name>  - Generate config for a container";
      "  remove <hostname>                - Remove config for a hostname";
      "  watch                            - Watch Docker events for auto-generation";
      "  sync                             - Sync all running containers";
      "  init                             - Create template file" ].

(** The [case "${1:-help}"] at the end of the script: the world it leaves
    and the exit status. *)
Definition dispatch (args : list string) (w : world) : option (world * nat) :=
  let command := match args with
                 | c :: _ => if String.eqb c EmptyString then "help" else c
                 | [] => "help"
                 end in
  let rest := tail args in
  if String.eqb command "generate" then
    w1 ← generate_for_container rest w;
    Some (reload_nginx w1, 0)
  else if String.eqb command "remove" then
    w1 ← remove_for_hostname (param 0 rest) w;
    Some (reload_nginx w1, 0)
  else if String.eqb command "watch" then
    w1 ← watch_docker_events w;
    Some (w1, 0)
  else if String.eqb command "sync" then
    Some (sync_all_containers w, 0)
  else if String.eqb command "init" then
    Some (echo ("Template created at " +:+ TEMPLATE_FILE) (create_template w), 0)
  else Some (usage w, 1).

(** One run of the script: the two initialisation commands at top level,
    then the command. *)
Definition main (args : list string) (w : world) : option (world * nat) :=
  dispatch args (create_template (ensure_directories w)).

(** ** Values that sed takes as they are *)

(** [repl_safe v]: [v] has no slash, backslash or newline, so that it stays
    inside the replacement of its chunk. *)
Definition repl_safe (v : string) : bool :=
  negb (has_char "/" v) && negb (has_char "\" v) && negb (has_char nl v).

(** [plain v]: moreover [v] has no [&], which sed expands, and no opening
    brace, which could form a placeholder for a later chunk. *)
Definition plain (v : string) : bool :=
  repl_safe v && negb (has_char "&" v) && negb (has_char "{" v).

(** [brace_free v]: [v] is safe and has no opening brace; it may have [&]. *)
Definition brace_free (v : string) : bool :=
  repl_safe v && negb (has_char "{" v).

(** [ascii_only v]: every byte of [v] is an ASCII character, so that the
    characters of [v] are its bytes whatever the locale. *)
Fixpoint ascii_only (v : string) : bool :=
  match v with
  | EmptyString => true
  | String c v' => Nat.ltb (nat_of_ascii c) 128 && ascii_only v'
  end.

(** The replacement that [parse_repl] reads from a safe value. *)
Fixpoint items_of (v : string) : list ritem :=
  match v with
  | EmptyString => []
  | String c v' => (if Ascii.eqb c "&" then RMatch else RLit c) :: items_of v'
  end.

(** [amp m v]: the text that sed puts for the value [v] when the match is
    [m], that is [v] with [m] in the place of every [&]. *)
Definition amp (m v : string) : string := expand m (items_of v).

(** [clash p q]: [p] and [q] differ at a position that both have, so that
    [p] matches at the start of no text that begins with [q]. *)
Fixpoint clash (p q : string) : bool :=
  match p, q with
  | String a p', String b q' => if Ascii.eqb a b then clash p' q' else true
  | _, _ => false
  end.

(** ** The rendered configuration *)

(** The lines of the template with the values in the place of the
    placeholders. *)
Definition rendered_lines (hostname container_ip container_port challenge_name
                           timestamp container_id : string) : list string :=
  [ "# Challenge Instance: " +:+ challenge_name;
    "# Generated: " +:+ timestamp;
    "# Container: " +:+ String.substring 0 12 container_id;
    "";
    "server {";
    "    listen 80;";
    "    server_name " +:+ hostname +:+ ";";
    "";
    "    # Challenge instance proxy";
    "    location / {";
    "        proxy_pass http://" +:+ container_ip +:+ ":" +:+ container_port +:+ "/;";
    "        proxy_http_version 1.1;";
    "        proxy_set_header Upgrade $http_upgrade;";
    "        proxy_set_header Connection " +:+ String dquote ("upgrade" +:+ String dquote (";"));
    "        proxy_set_header Host $host;";
    "        proxy_set_header X-Real-IP $remote_addr;";
    "        proxy_set_header X-Forwarded-For $proxy_add_x_forwarded_for;";
    "        proxy_set_header X-Forwarded-Proto $scheme;";
    "        ";
    "        # Timeouts for long-running challenges";
    "        proxy_connect_timeout 60s;";
    "        proxy_send_timeout 60s;";
    "        proxy_read_timeout 60s;";
    "        ";
    "        # WebSocket support";
    "        proxy_read_timeout 3600s;";
    "        proxy_send_timeout 3600s;";
    "    }";
    "";
    "    # Health check endpoint";
    "    location /health {";
    "        access_log off;";
    "        return 200 " +:+ String dquote ("healthy\n" +:+ String dquote (";"));
    "        add_header Content-Type text/plain;";
    "    }";
    "";
    "    # Logging";
    "    access_log /var/log/nginx/challenges/" +:+ hostname +:+ "_access.log;";
    "    error_log /var/log/nginx/challenges/" +:+ hostname +:+ "_error.log;";
    "}" ].

Definition rendered (hostname container_ip container_port challenge_name
                     timestamp container_id : string) : string :=
  unlines (rendered_lines hostname container_ip container_port challenge_name
                          timestamp container_id).

(** A regular expression made of ordinary characters is read as it is. *)
Fixpoint literal_regex (p : string) : bool :=
  match p with
  | EmptyString => true
  | String c p' => negb (Ascii.eqb c "/") && bre_ordinary c && literal_regex p'
  end.

(** The six substitutions, in the order of the chunks, when every value
    stands for itself. *)
Definition subst6 (hostname container_ip container_port challenge_name
                   timestamp cid12 : string) (line : string) : string :=
  gsub "{container_id}" cid12
    (gsub "{timestamp}" timestamp
       (gsub "{challenge_name}" challenge_name
          (gsub "{container_port}" container_port
             (gsub "{container_ip}" container_ip
                (gsub "{hostname}" hostname line))))).

Definition parsed_chunks (hostname container_ip container_port challenge_name
                          timestamp cid12 : string) : list scmd :=
  [ SCmd "{hostname}" (items_of hostname);
    SCmd "{container_ip}" (items_of container_ip);
    SCmd "{container_port}" (items_of container_port);
    SCmd "{challenge_name}" (items_of challenge_name);
    SCmd "{timestamp}" (items_of timestamp);
    SCmd "{container_id}" (items_of cid12) ].

(** ** The host on which the script runs *)

(** The directories [ensure_directories] makes, with the directories on the
    way to them. *)
Definition layout_dirs : list string :=
  [ "/etc"; "/etc/nginx"; "/etc/nginx/sites-available";
    "/etc/nginx/sites-enabled"; "/var"; "/var/log"; "/var/log/nginx";
    "/var/log/nginx/challenges"; "/etc/nginx/templates" ].

(** [p] is free, or a regular file: not a directory and not a link. *)
Definition file_or_free (p : string) (w : world) : Prop :=
  (p ∉ dirs w) ∧ (∀ t, files w !! p ≠ Some (Link t)).

(** An nginx host: no file or link sits where a directory of the layout
    belongs, and the template path is free or a regular file. *)
Definition host_ok (w : world) : Prop :=
  (∀ a, a ∈ layout_dirs → files w !! a = None)
  ∧ file_or_free TEMPLATE_FILE w.

(** The two paths of a site are usable: the configuration path is free or
    a regular file, the path of the link is not a directory. *)
Definition site_ok (hostname : string) (w : world) : Prop :=
  file_or_free (conf_file_of hostname) w
  ∧ enabled_link_of hostname ∉ dirs w.

(** ** The initialisation and the commands in closed form *)

(** The world after the two initialisation commands on an nginx host. *)
Definition initialized (w : world) : world :=
  set_files (<[TEMPLATE_FILE := File challenge_template]> (files w))
    (set_dirs (list_to_set layout_dirs ∪ dirs w) w).

(** The world that [generate_for_container] leaves when sed writes [text]
    for the site of [hostname]. *)
Definition published (hostname text line : string) (w : world) : world :=
  echo line
    (set_files
       (<[enabled_link_of hostname := Link (conf_file_of hostname)]>
          (<[conf_file_of hostname := File text]> (files w))) w).

(** ** Checking a concrete host *)

Definition file_or_freeb (p : string) (w : world) : bool :=
  negb (bool_decide (p ∈ dirs w))
  && match files w !! p with
     | Some (Link _) => false
     | _ => true
     end.

Definition host_okb (w : world) : bool :=
  forallb (fun a => bool_decide (files w !! a = None)) layout_dirs
  && file_or_freeb TEMPLATE_FILE w.

Definition site_okb (hostname : string) (w : world) : bool :=
  file_or_freeb (conf_file_of hostname) w
  && negb (bool_decide (enabled_link_of hostname ∈ dirs w)).

(** The world and the exit status after one run of the script. *)
Definition world_after (args : list string) (w : world) : world :=
  match main args w with
  | Some (w', _) => w'
  | None => w
  end.

Definition status_after (args : list string) (w : world) : option nat :=
  snd <$> main args w.

(** The text of the configuration file of a site. *)
Definition conf_text (hostname : string) (w : world) : option string :=
  match files w !! conf_file_of hostname with
  | Some (File text) => Some text
  | _ => None
  end.

(** The site of [hostname] is enabled: its link points to its
    configuration file. *)
Definition enabled (hostname : string) (w : world) : Prop :=
  files w !! enabled_link_of hostname = Some (Link (conf_file_of hostname)).

(** The configuration file of [hostname] exists and has [sub] in it. *)
Definition conf_contains (hostname sub : string) (w : world) : bool :=
  match conf_text hostname w with
  | Some text => contains sub text
  | None => false
  end.

(** The configuration of [hostname] passes requests to [target]. *)
Definition proxies_to (hostname target : string) (w : world) : bool :=
  conf_contains hostname ("proxy_pass http://" +:+ target +:+ "/;") w.

(** [block] is a run of consecutive lines of [text]. *)
Definition has_lines (block : list string) (text : string) : Prop :=
  ∃ pre post, split_lines text = pre ++ block ++ post.

(** A host on which nothing has been set up yet. *)
Definition bare_host (accepts : bool) (time : string) : world :=
  World ∅ ∅ [] time (fun _ => accepts) [] [] [] "generate-nginx-blocks.sh".

Definition new_year : string := "2026-01-01T00:00:00+00:00".

(** ** Example hosts and runs *)

Definition pwn_101 : string := hostname_of "pwn-101".

(** A host on which the site of [pwn-101] is already published, by hand. *)
Definition occupied_host : world :=
  World ∅
    (<[enabled_link_of pwn_101 := Link (conf_file_of pwn_101)]>
       (<[conf_file_of pwn_101 := File "server { }"]> ∅))
    [] new_year (fun _ => true) [] [] [] "generate-nginx-blocks.sh".

(** Two instances of the same challenge, for two owners. *)
Definition first_instance : list string :=
  ["generate"; "aaaaaaaaaaaa"; "10.0.0.5"; "8080"; "pwn-101"].

Definition second_instance : list string :=
  ["generate"; "bbbbbbbbbbbb"; "10.0.0.9"; "9090"; "pwn-101"].


(** The same host one second later. *)
Definition one_second_later : string := "2026-01-01T00:00:01+00:00".

Definition old_site : string := hostname_of "old".

(** A host with the route of a container that is gone, while the runtime
    reports the running container [abc123], which has no route. *)
Definition stale_host : world :=
  World ∅
    (<[enabled_link_of old_site := Link (conf_file_of old_site)]>
       (<[conf_file_of old_site := File "server { }"]> ∅))
    [] new_year (fun _ => true) [] [] ["abc123"] "generate-nginx-blocks.sh".

(** A host on which the runtime has printed the start of [abc123]. *)
Definition started_host : world :=
  World ∅ ∅ [] new_year (fun _ => true) [] ["start abc123"] ["abc123"]
        "generate-nginx-blocks.sh".

Definition scenario : list string :=
  ["generate"; "abc123"; "10.0.0.5"; "8080"; "pwn-101"].

(** A challenge name with a character that sed expands. *)
Definition r_and_d : list string :=
  ["generate"; "abc123"; "10.0.0.5"; "8080"; "r&d"].

(** An address that ends in the character that sed expands. *)
Definition address_with_amp : list string :=
  ["generate"; "abc123"; "10.0.0.5&"; "8080"; "pwn-101"].

(** A challenge name with the character that ends an nginx directive. *)
Definition name_with_semicolon : list string :=
  ["generate"; "abc123"; "10.0.0.5"; "8080"; "x;y"].

(** A host whose template file was edited by hand. *)
Definition edited_host : world :=
  World ∅ (<[TEMPLATE_FILE := File "server { listen 8080; }"]> ∅)
        [] new_year (fun _ => true) [] [] [] "generate-nginx-blocks.sh".

(** ** The terminal client

    The WebSocket handlers that [connectWebSocket] installs in the web
    terminal component, over the state of the client: the socket, the
    frames sent so far and what was written to the xterm screen.  The
    browser sends the string argument of [ws.send] as a text frame and a
    [Blob] or [ArrayBuffer] as a binary frame; it delivers a text frame as
    a string and a binary frame as a [Blob]. *)

Module Terminal.

Inductive ready_state : Type := CONNECTING | OPEN | CLOSING | CLOSED.

Inductive frame : Type :=
  | TextFrame (payload : string)
  | BinaryFrame (payload : string).

(** The arguments [ws.send] can take. *)
Inductive send_data : Type :=
  | SString (s : string)
  | SBinary (bytes : string).

(** [event.data] of a message event. *)
Inductive message_data : Type :=
  | Text (s : string)
  | Blob (bytes : string).

(** The calls on the xterm instance. *)
Inductive term_op : Type :=
  | Write (data : string)
  | Writeln (line : string).

(** The values [JSON.parse] returns; a number is kept as its text. *)
#[warnings="-register-all"] Inductive json : Type :=
  | JNull
  | JBool (b : bool)
  | JNum (text : string)
  | JStr (s : string)
  | JArr (items : list json)
  | JObj (fields : list (string * json)).

Record client : Type := Client {
  readyState : ready_state;
  sent : list frame;             (* the frames sent, oldest first *)
  screen : list term_op;         (* the calls on the terminal, oldest first *)
  cols : nat;
  rows : nat;
  isConnected : bool;
  isLoading : bool;
  error : option string
}.

Definition frame_of (d : send_data) : frame :=
  match d with
  | SString s => TextFrame s
  | SBinary bytes => BinaryFrame bytes
  end.

(** [ws.send(d)]: the frame goes out on an open socket; on a closing or
    closed socket it is dropped, on a connecting one the call throws. *)
Definition ws_send (d : send_data) (c : client) : client :=
  match readyState c with
  | OPEN => Client (readyState c) (sent c ++ [frame_of d]) (screen c) (cols c)
                   (rows c) (isConnected c) (isLoading c) (error c)
  | _ => c
  end.

Definition term_call (op : term_op) (c : client) : client :=
  Client (readyState c) (sent c) (screen c ++ [op]) (cols c) (rows c)
         (isConnected c) (isLoading c) (error c).

Definition set_status (connected loading : bool) (err : option string)
    (c : client) : client :=
  Client (readyState c) (sent c) (screen c) (cols c) (rows c)
         connected loading err.

Definition set_ready (r : ready_state) (c : client) : client :=
  Client r (sent c) (screen c) (cols c) (rows c)
         (isConnected c) (isLoading c) (error c).

Definition is_text (f : frame) : bool :=
  match f with
  | TextFrame _ => true
  | BinaryFrame _ => false
  end.

Definition set_size (size : nat * nat) (c : client) : client :=
  Client (readyState c) (sent c) (screen c) (fst size) (snd size)
         (isConnected c) (isLoading c) (error c).

Definition quoted (s : string) : string :=
  String dquote (s +:+ String dquote "").

(** [JSON.stringify({type: "resize", cols, rows})]. *)
Definition resize_message (cols rows : nat) : string :=
  "{" +:+ quoted "type" +:+ ":" +:+ quoted "resize" +:+ ","
      +:+ quoted "cols" +:+ ":" +:+ pretty cols +:+ ","
      +:+ quoted "rows" +:+ ":" +:+ pretty rows +:+ "}".

Definition send_resize (c : client) : client :=
  ws_send (SString (resize_message (cols c) (rows c))) c.

(** A color sequence of the terminal: [\x1b[<code>m]. *)
Definition sgr (code : string) : string := String esc ("[" +:+ code +:+ "m").

(** [ws.onopen]. *)
Definition onopen (c : client) : client :=
  let c1 := set_status true false (error c) c in
  let c2 := term_call (Writeln (sgr "32" +:+ "✓ Connected to container" +:+ sgr "0")) c1 in
  let c3 := term_call (Writeln "") c2 in
  send_resize c3.

(** The property [key] of an object; the last of two equal keys wins in
    [JSON.parse], so the fields have distinct keys. *)
Fixpoint field (key : string) (fields : list (string * json)) : option json :=
  match fields with
  | [] => None
  | (k, v) :: rest => if String.eqb k key then Some v else field key rest
  end.

(** The text a value takes in a template literal. *)
Fixpoint to_text (v : json) : string :=
  match v with
  | JNull => "null"
  | JBool b => if b then "true" else "false"
  | JNum text => text
  | JStr s => s
  | JArr items =>
      (fix join (l : list json) : string :=
         match l with
         | [] => ""
         | [x] => match x with JNull => "" | _ => to_text x end
         | x :: l' =>
             (match x with JNull => "" | _ => to_text x end) +:+ "," +:+ join l'
         end) items
  | JObj _ => "[object Object]"
  end.

Definition text_of_property (v : option json) : string :=
  match v with
  | Some x => to_text x
  | None => "undefined"
  end.

(** [ws.onerror]. *)
Definition onerror (c : client) : client :=
  term_call (Writeln (sgr "31" +:+ "✗ Connection error" +:+ sgr "0"))
    (set_status (isConnected c) false (Some "Connection error") c).

(** [ws.onclose]. *)
Definition onclose (c : client) : client :=
  term_call (Writeln (sgr "33" +:+ "Connection closed" +:+ sgr "0"))
    (term_call (Writeln "") (set_status false false (error c) c)).

(** The handler of [onData]: what is typed in the terminal, a string. *)
Definition onData (data : string) (c : client) : client :=
  match readyState c with
  | OPEN => ws_send (SString data) c
  | _ => c
  end.

(** [handleResize]: the terminal is fitted to its container, which gives
    it the size [fitted], and the server is told when the socket is
    open. *)
Definition handleResize (fitted : nat * nat) (c : client) : client :=
  let c1 := set_size fitted c in
  match readyState c1 with
  | OPEN => send_resize c1
  | _ => c1
  end.

Section Handlers.
(** [JSON.parse]; [None] when it throws a syntax error. *)
Variable JSON_parse : string → option json.

(** [ws.onmessage]: a [Blob] is read and written to the terminal; a
    string is parsed, an object of type [error] is shown as an error,
    and the string itself is written when the [try] block throws, on a
    syntax error or on the property access on [null]. *)
Definition onmessage (data : message_data) (c : client) : client :=
  match data with
  | Blob bytes => term_call (Write bytes) c
  | Text s =>
      match JSON_parse s with
      | None => term_call (Write s) c
      | Some JNull => term_call (Write s) c
      | Some (JObj fields) =>
          match field "type" fields with
          | Some (JStr type) =>
              if String.eqb type "error" then
                term_call
                  (Writeln (sgr "31" +:+ "Error: "
                              +:+ text_of_property (field "message" fields)
                              +:+ sgr "0")) c
              else c
          | _ => c
          end
      | Some _ => c
      end
  end.

(** What happens to the client: the events of the socket, with the state
    the browser gives the socket before it calls the handler, and the
    events of the terminal and of the window. *)
Inductive event : Type :=
  | EvOpen
  | EvMessage (data : message_data)
  | EvError
  | EvClose
  | EvData (data : string)
  | EvResize (fitted : nat * nat).

Definition handle (e : event) (c : client) : client :=
  match e with
  | EvOpen => onopen (set_ready OPEN c)
  | EvMessage data => onmessage data c
  | EvError => onerror c
  | EvClose => onclose (set_ready CLOSED c)
  | EvData data => onData data c
  | EvResize fitted => handleResize fitted c
  end.

Definition run (events : list event) (c : client) : client :=
  foldl (fun c e => handle e c) c events.
End Handlers.

(** An open session on an 80 by 24 terminal. *)
Definition open_client : client :=
  Client OPEN [] [] 80 24 true false None.

(** A parser that knows one message. *)
Definition one_message (s : string) : option json :=
  if String.eqb s
       ("{" +:+ quoted "type" +:+ ":" +:+ quoted "error" +:+ ","
            +:+ quoted "message" +:+ ":" +:+ quoted "no such container" +:+ "}")
  then Some (JObj [("type", JStr "error"); ("message", JStr "no such container")])
  else None.

End Terminal.

(** ** Further definitions for the properties of the commands *)

(** The layout is in place: every directory of the layout exists and is
    not shadowed by a file, and the template path is free or a regular
    file.  This is what the initialisation establishes on an nginx host. *)
Definition layout_ready (w : world) : Prop :=
  (∀ a, a ∈ layout_dirs → a ∈ dirs w ∧ files w !! a = None)
  ∧ file_or_free TEMPLATE_FILE w.

(** The command words of the [case] statement. *)
Definition commands : list string :=
  ["generate"; "remove"; "watch"; "sync"; "init"].

(** The placeholders of the template contract. *)
Definition placeholders : list string :=
  [ "{hostname}"; "{container_ip}"; "{container_port}"; "{challenge_name}";
    "{timestamp}"; "{container_id}" ].

(** No placeholder occurs in [line]. *)
Definition placeholder_free (line : string) : bool :=
  forallb (fun p => negb (contains p line)) placeholders.

(** [s] is made of ordinary characters: no blank and no backslash. *)
Fixpoint word (s : string) : bool :=
  match s with
  | EmptyString => true
  | String c s' => negb (is_blank c) && negb (Ascii.eqb c "\") && word s'
  end.

(** The world that [remove_for_hostname] leaves for a hostname without
    slash whose two paths are not directories. *)
Definition retracted (hostname : string) (w : world) : world :=
  echo ("Removed: " +:+ hostname)
    (set_files (delete (enabled_link_of hostname)
                  (delete (conf_file_of hostname) (files w))) w).

(** The lines of the usage message. *)
Definition usage_lines (name : string) : list string :=
  [ "Usage: " +:+ name +:+ " {generate|remove|watch|sync|init}";
    "";
    "Commands:";
    "  generate <id> <ip> <port> <name>  - Generate config for a container";
    "  remove <hostname>                - Remove config for a hostname";
    "  watch                            - Watch Docker events for auto-generation";
    "  sync                             - Sync all running containers";
    "  init                             - Create template file" ].

(** * The terminal drawer with all its sockets

    [connectWebSocket] makes a new [WebSocket] each time it runs; the
    handlers and the [onData] listener it installs close over that
    socket, while [handleResize], the cleanup and [handleReconnect] go
    through [wsRef.current].  The drawer below keeps every socket made,
    [wsRef] as an index into them, and the terminal with the listeners
    registered on it.  A string is a sequence of bytes, the text of the
    page in UTF-8. *)

Module Drawer.

Record socket : Type := Socket {
  url : string;                        (* the argument of [new WebSocket] *)
  readyState : Terminal.ready_state;
  sent : list Terminal.frame           (* the frames sent, oldest first *)
}.

(** The xterm instance: the calls made on it, its size, and for each of
    its [onData] listeners the socket the listener closes over, in the
    order of registration. *)
Record term : Type := Term {
  screen : list Terminal.term_op;
  cols : nat;
  rows : nat;
  listeners : list nat
}.

Record drawer : Type := MkDrawer {
  isOpen : bool;                       (* props *)
  containerId : option string;
  challengeTitle : option string;
  modulesLoaded : bool;                (* state and refs *)
  terminalInstanceRef : option term;
  wsRef : option nat;
  sockets : list socket;               (* every socket made, oldest first *)
  isConnected : bool;
  isLoading : bool;
  error : option string;
  resizeListener : bool;               (* [handleResize] listens on the window *)
  token : option string;               (* [localStorage.getItem("token")] *)
  protocol : string;                   (* [window.location.protocol] *)
  host : string                        (* [window.location.host] *)
}.

Definition set_props (o : bool) (cid title : option string) (d : drawer)
    : drawer :=
  MkDrawer o cid title (modulesLoaded d) (terminalInstanceRef d) (wsRef d)
    (sockets d) (isConnected d) (isLoading d) (error d) (resizeListener d)
    (token d) (protocol d) (host d).

Definition set_modulesLoaded (b : bool) (d : drawer) : drawer :=
  MkDrawer (isOpen d) (containerId d) (challengeTitle d) b
    (terminalInstanceRef d) (wsRef d) (sockets d) (isConnected d)
    (isLoading d) (error d) (resizeListener d) (token d) (protocol d)
    (host d).

Definition set_terminal (t : option term) (d : drawer) : drawer :=
  MkDrawer (isOpen d) (containerId d) (challengeTitle d) (modulesLoaded d) t
    (wsRef d) (sockets d) (isConnected d) (isLoading d) (error d)
    (resizeListener d) (token d) (protocol d) (host d).

Definition set_wsRef (r : option nat) (d : drawer) : drawer :=
  MkDrawer (isOpen d) (containerId d) (challengeTitle d) (modulesLoaded d)
    (terminalInstanceRef d) r (sockets d) (isConnected d) (isLoading d)
    (error d) (resizeListener d) (token d) (protocol d) (host d).

Definition set_sockets (l : list socket) (d : drawer) : drawer :=
  MkDrawer (isOpen d) (containerId d) (challengeTitle d) (modulesLoaded d)
    (terminalInstanceRef d) (wsRef d) l (isConnected d) (isLoading d)
    (error d) (resizeListener d) (token d) (protocol d) (host d).

Definition set_status (connected loading : bool) (err : option string)
    (d : drawer) : drawer :=
  MkDrawer (isOpen d) (containerId d) (challengeTitle d) (modulesLoaded d)
    (terminalInstanceRef d) (wsRef d) (sockets d) connected loading err
    (resizeListener d) (token d) (protocol d) (host d).

Definition set_token (t : option string) (d : drawer) : drawer :=
  MkDrawer (isOpen d) (containerId d) (challengeTitle d) (modulesLoaded d)
    (terminalInstanceRef d) (wsRef d) (sockets d) (isConnected d)
    (isLoading d) (error d) (resizeListener d) t (protocol d) (host d).

Definition set_resizeListener (b : bool) (d : drawer) : drawer :=
  MkDrawer (isOpen d) (containerId d) (challengeTitle d) (modulesLoaded d)
    (terminalInstanceRef d) (wsRef d) (sockets d) (isConnected d)
    (isLoading d) (error d) b (token d) (protocol d) (host d).

(** A call of [write] or [writeln] on a terminal. *)
Definition term_write (op : Terminal.term_op) (t : term) : term :=
  Term (screen t ++ [op]) (cols t) (rows t) (listeners t).

(** What [fitAddon.fit()] does to the terminal the size [fitted] suits. *)
Definition term_fit (fitted : nat * nat) (t : term) : term :=
  Term (screen t) (fst fitted) (snd fitted) (listeners t).

(** [terminalInstanceRef.current.onData(listener)], the listener closing
    over the socket [ws]. *)
Definition term_onData (ws : nat) (t : term) : term :=
  Term (screen t) (cols t) (rows t) (listeners t ++ [ws]).

(** [terminalInstanceRef.current?.writeln(..)] and [?.write(..)]. *)
Definition term_call (op : Terminal.term_op) (d : drawer) : drawer :=
  set_terminal (term_write op <$> terminalInstanceRef d) d.

Definition push (f : Terminal.frame) (s : socket) : socket :=
  Socket (url s) (readyState s) (sent s ++ [f]).

Definition set_ready (r : Terminal.ready_state) (s : socket) : socket :=
  Socket (url s) r (sent s).

(** [ws.send(text)] on the socket [ws]: the frame goes out on an open
    socket; the code sends on an open socket only. *)
Definition ws_send (ws : nat) (text : string) (socks : list socket)
    : list socket :=
  match socks !! ws with
  | Some s =>
      match readyState s with
      | Terminal.OPEN => alter (push (Terminal.TextFrame text)) ws socks
      | _ => socks
      end
  | None => socks
  end.

(** [ws.close()]: a connecting or open socket starts closing, and the
    browser fires the close event later. *)
Definition close (s : socket) : socket :=
  match readyState s with
  | Terminal.CONNECTING | Terminal.OPEN => set_ready Terminal.CLOSING s
  | _ => s
  end.

(** The characters [encodeURIComponent] leaves as they are. *)
Definition unreserved (c : ascii) : bool :=
  let n := nat_of_ascii c in
  (Nat.leb 65 n && Nat.leb n 90) || (Nat.leb 97 n && Nat.leb n 122)
  || (Nat.leb 48 n && Nat.leb n 57)
  || bool_decide (c ∈ ["-"; "_"; "."; "!"; "~"; "*"; "'"; "("; ")"]%char).

Definition hex_digit (n : nat) : ascii :=
  nth n ["0"; "1"; "2"; "3"; "4"; "5"; "6"; "7"; "8"; "9";
         "A"; "B"; "C"; "D"; "E"; "F"]%char "0"%char.

Definition percent (c : ascii) : string :=
  let n := nat_of_ascii c in
  String "%" (String (hex_digit (n / 16)) (String (hex_digit (n mod 16)) "")).

(** [encodeURIComponent] on the UTF-8 text of a well-formed string. *)
Fixpoint encodeURIComponent (s : string) : string :=
  match s with
  | EmptyString => EmptyString
  | String c s' =>
      (if unreserved c then String c "" else percent c)
        +:+ encodeURIComponent s'
  end.

(** [connectWebSocket]; [None] when [new WebSocket] throws, which it does
    on a URL with a fragment. *)
Definition connectWebSocket (d : drawer) : option drawer :=
  match terminalInstanceRef d, containerId d with
  | Some t, Some (String a rest) =>
      let containerId := String a rest in
      let d1 := set_status (isConnected d) true None d in
      let token := default "" (token d) in
      let wsProtocol :=
        if String.eqb (protocol d) "https:" then "wss:" else "ws:" in
      let wsUrl :=
        wsProtocol +:+ "//" +:+ host d +:+ "/api/ws/terminal/" +:+ containerId
          +:+ "?token=" +:+ encodeURIComponent token in
      if has_char "#" containerId then None
      else
        let ws := length (sockets d1) in
        let d2 :=
          set_sockets (sockets d1 ++ [Socket wsUrl Terminal.CONNECTING []])
            d1 in
        let d3 := set_wsRef (Some ws) d2 in
        Some (set_terminal (Some (term_onData ws t)) d3)
  | _, _ =>
      Some (term_call
              (Terminal.Writeln
                 (Terminal.sgr "31" +:+ "Error: No container ID provided"
                    +:+ Terminal.sgr "0")) d)
  end.

(** [ws.onopen] of the socket [ws]; without a terminal the read of
    [dims.cols] throws and nothing is sent. *)
Definition onopen (ws : nat) (d : drawer) : drawer :=
  let d1 := set_status true false (error d) d in
  let d2 :=
    term_call
      (Terminal.Writeln
         (Terminal.sgr "32" +:+ "✓ Connected to container"
            +:+ Terminal.sgr "0")) d1 in
  let d3 := term_call (Terminal.Writeln "") d2 in
  match terminalInstanceRef d3 with
  | Some dims =>
      set_sockets
        (ws_send ws (Terminal.resize_message (cols dims) (rows dims))
           (sockets d3)) d3
  | None => d3
  end.

(** [ws.onerror]. *)
Definition onerror (d : drawer) : drawer :=
  term_call
    (Terminal.Writeln
       (Terminal.sgr "31" +:+ "✗ Connection error" +:+ Terminal.sgr "0"))
    (set_status (isConnected d) false (Some "Connection error") d).

(** [ws.onclose]. *)
Definition onclose (d : drawer) : drawer :=
  term_call
    (Terminal.Writeln
       (Terminal.sgr "33" +:+ "Connection closed" +:+ Terminal.sgr "0"))
    (term_call (Terminal.Writeln "") (set_status false false (error d) d)).

(** The terminal emits [data]: its listeners run in the order of
    registration, each one sending on its own socket when that is open. *)
Definition onData (data : string) (d : drawer) : drawer :=
  match terminalInstanceRef d with
  | Some t =>
      set_sockets
        (foldl (fun socks ws => ws_send ws data socks) (sockets d)
           (listeners t)) d
  | None => d
  end.

(** [handleResize], the listener that the effect which makes the
    terminal registers on the window; it closes over that terminal,
    which is the one of the drawer as long as the listener is
    registered. *)
Definition handleResize (fitted : nat * nat) (d : drawer) : drawer :=
  match terminalInstanceRef d with
  | Some t =>
      let d1 := set_terminal (Some (term_fit fitted t)) d in
      match wsRef d1 with
      | Some ws =>
          set_sockets
            (ws_send ws (Terminal.resize_message (fst fitted) (snd fitted))
               (sockets d1)) d1
      | None => d1
      end
  | None => d
  end.

(** [fitAddon.fit()] of a timer. *)
Definition fit (fitted : nat * nat) (d : drawer) : drawer :=
  set_terminal (term_fit fitted <$> terminalInstanceRef d) d.

(** A string that counts as true. *)
Definition truthy (s : option string) : bool :=
  match s with
  | Some (String _ _) => true
  | _ => false
  end.

(** The lines a new terminal starts with. *)
Definition welcome (challengeTitle : option string) : list Terminal.term_op :=
  [ Terminal.Writeln
      (Terminal.sgr "36"
         +:+ "╔══════════════════════════════════════════════════════════════╗"
         +:+ Terminal.sgr "0");
    Terminal.Writeln
      (Terminal.sgr "36" +:+ "║" +:+ Terminal.sgr "0" +:+ "           "
         +:+ Terminal.sgr "1;34" +:+ "Cerberus CTF Platform - Terminal"
         +:+ Terminal.sgr "0" +:+ "                  " +:+ Terminal.sgr "36"
         +:+ "║" +:+ Terminal.sgr "0");
    Terminal.Writeln
      (Terminal.sgr "36"
         +:+ "╚══════════════════════════════════════════════════════════════╝"
         +:+ Terminal.sgr "0");
    Terminal.Writeln "" ]
  ++ (if truthy challengeTitle
      then [ Terminal.Writeln
               (Terminal.sgr "33" +:+ "Challenge:" +:+ Terminal.sgr "0"
                  +:+ " " +:+ default "" challengeTitle) ]
      else [])
  ++ [ Terminal.Writeln
         (Terminal.sgr "90" +:+ "Connecting to container..."
            +:+ Terminal.sgr "0");
       Terminal.Writeln "" ].

(** The effect that makes the terminal, run again because one of its
    dependencies, [isOpen], [modulesLoaded] or [challengeTitle], has
    changed.  The cleanup of the run before removes [handleResize] from
    the window.  Then, unless there is a terminal already, the run makes
    one, an xterm of 80 columns and 24 rows until it is fitted, and
    registers [handleResize]; when it returns early nothing is
    registered.  The element the terminal opens in is there once the
    drawer is open and the modules are loaded. *)
Definition initialize_terminal (d : drawer) : drawer :=
  let d0 := set_resizeListener false d in
  if isOpen d0 && modulesLoaded d0
     && negb (bool_decide (is_Some (terminalInstanceRef d0)))
  then set_resizeListener true
         (set_terminal (Some (Term (welcome (challengeTitle d0)) 80 24 [])) d0)
  else d0.

(** The effect that connects when the terminal is ready. *)
Definition connect_effect (d : drawer) : option drawer :=
  if isOpen d && modulesLoaded d
     && bool_decide (is_Some (terminalInstanceRef d))
     && truthy (containerId d)
     && negb (bool_decide (is_Some (wsRef d)))
  then connectWebSocket d
  else Some d.

(** [wsRef.current.close(); wsRef.current = null] under [if (wsRef.current)]. *)
Definition close_current (d : drawer) : drawer :=
  match wsRef d with
  | Some ws => set_wsRef None (set_sockets (alter close ws (sockets d)) d)
  | None => d
  end.

(** The effect that cleans up when the drawer is closed; disposing the
    terminal disposes its listeners. *)
Definition cleanup (d : drawer) : drawer :=
  if negb (isOpen d)
  then set_status false false None (set_terminal None (close_current d))
  else d.

(** [handleReconnect]. *)
Definition handleReconnect (d : drawer) : option drawer :=
  connectWebSocket (close_current d).

Section Steps.
(** [JSON.parse]; [None] when it throws a syntax error. *)
Variable JSON_parse : string → option Terminal.json.

(** [ws.onmessage]. *)
Definition onmessage (data : Terminal.message_data) (d : drawer) : drawer :=
  match data with
  | Terminal.Blob bytes => term_call (Terminal.Write bytes) d
  | Terminal.Text s =>
      match JSON_parse s with
      | None => term_call (Terminal.Write s) d
      | Some Terminal.JNull => term_call (Terminal.Write s) d
      | Some (Terminal.JObj fields) =>
          match Terminal.field "type" fields with
          | Some (Terminal.JStr type) =>
              if String.eqb type "error" then
                term_call
                  (Terminal.Writeln
                     (Terminal.sgr "31" +:+ "Error: "
                        +:+ Terminal.text_of_property
                              (Terminal.field "message" fields)
                        +:+ Terminal.sgr "0")) d
              else d
          | _ => d
          end
      | Some _ => d
      end
  end.

(** What happens to the drawer: the parent renders it with new props, a
    module load ends, an effect or a timer runs, the user clicks or
    types, the window is resized, the token in the storage changes, or
    the browser fires an event on one of the sockets. *)
Inductive action : Type :=
  | Props (isOpen : bool) (containerId challengeTitle : option string)
  | ModulesLoaded
  | ModulesFailed
  | InitializeTerminal
  | ConnectEffect
  | Cleanup
  | Fit (fitted : nat * nat)
  | WindowResize (fitted : nat * nat)
  | ClickReconnect
  | Data (data : string)
  | Storage (token : option string)
  | SocketOpen (ws : nat)
  | SocketMessage (ws : nat) (data : Terminal.message_data)
  | SocketError (ws : nat)
  | SocketClose (ws : nat).

(** One step.  The browser opens a connecting socket only, and a socket
    it closes is closed when the handler runs; an event on a socket that
    was never made does not happen, and a resize of the window reaches
    the drawer only while [handleResize] is registered. *)
Definition step (a : action) (d : drawer) : option drawer :=
  match a with
  | Props o cid title => Some (set_props o cid title d)
  | ModulesLoaded => Some (set_modulesLoaded true d)
  | ModulesFailed =>
      Some (set_status (isConnected d) (isLoading d)
              (Some "Failed to load terminal modules") d)
  | InitializeTerminal => Some (initialize_terminal d)
  | ConnectEffect => connect_effect d
  | Cleanup => Some (cleanup d)
  | Fit fitted => Some (fit fitted d)
  | WindowResize fitted =>
      if resizeListener d then Some (handleResize fitted d) else Some d
  | ClickReconnect => handleReconnect d
  | Data data => Some (onData data d)
  | Storage t => Some (set_token t d)
  | SocketOpen ws =>
      match sockets d !! ws with
      | Some s =>
          match readyState s with
          | Terminal.CONNECTING =>
              Some (onopen ws
                      (set_sockets
                         (alter (set_ready Terminal.OPEN) ws (sockets d)) d))
          | _ => Some d
          end
      | None => Some d
      end
  | SocketMessage ws data =>
      if bool_decide (ws < length (sockets d)) then Some (onmessage data d)
      else Some d
  | SocketError ws =>
      if bool_decide (ws < length (sockets d)) then Some (onerror d)
      else Some d
  | SocketClose ws =>
      if bool_decide (ws < length (sockets d))
      then Some (onclose
                   (set_sockets
                      (alter (set_ready Terminal.CLOSED) ws (sockets d)) d))
      else Some d
  end.

Fixpoint run (actions : list action) (d : drawer) : option drawer :=
  match actions with
  | [] => Some d
  | a :: rest => d' ← step a d; run rest d'
  end.
End Steps.

(** The drawer as React mounts it. *)
Definition mount (o : bool) (cid title token : option string)
    (protocol host : string) : drawer :=
  MkDrawer o cid title false None None [] false false None false token
    protocol host.

(** The socket is closing or closed. *)
Definition closing (s : socket) : Prop :=
  readyState s = Terminal.CLOSING ∨ readyState s = Terminal.CLOSED.

(** What holds of the drawer at every moment: the current socket is one
    of the sockets made, the terminal listens for it, every other socket
    is closing or closed, and no socket has two listeners. *)
Record consistent (d : drawer) : Prop := Consistent {
  current_made : ∀ ws, wsRef d = Some ws → ws < length (sockets d);
  current_heard :
    ∀ ws, wsRef d = Some ws →
          ∃ t, terminalInstanceRef d = Some t ∧ ws ∈ listeners t;
  others_closing :
    ∀ ws s, sockets d !! ws = Some s → wsRef d ≠ Some ws → closing s;
  listeners_once :
    ∀ t, terminalInstanceRef d = Some t → NoDup (listeners t);
  listeners_made :
    ∀ t ws, terminalInstanceRef d = Some t → ws ∈ listeners t →
            ws < length (sockets d)
}.

(** The one-socket client the drawer shows through the socket [ws]. *)
Definition view (ws : nat) (d : drawer) : option Terminal.client :=
  s ← sockets d !! ws;
  t ← terminalInstanceRef d;
  Some (Terminal.Client (readyState s) (sent s) (screen t) (cols t) (rows t)
          (isConnected d) (isLoading d) (error d)).

(** The event of the one-socket client an action on the socket [ws]
    stands for. *)
Definition event_of (ws : nat) (a : action) : option Terminal.event :=
  match a with
  | SocketOpen i => if bool_decide (i = ws) then Some Terminal.EvOpen else None
  | SocketMessage i data =>
      if bool_decide (i = ws) then Some (Terminal.EvMessage data) else None
  | SocketError i =>
      if bool_decide (i = ws) then Some Terminal.EvError else None
  | SocketClose i =>
      if bool_decide (i = ws) then Some Terminal.EvClose else None
  | Data data => Some (Terminal.EvData data)
  | WindowResize fitted => Some (Terminal.EvResize fitted)
  | _ => None
  end.

(** A session on a page served over TLS: the modules load, the terminal
    is made, the drawer connects, the server closes the socket, the user
    reconnects and the new socket opens. *)
Definition ctf_page : drawer :=
  mount true (Some "3f9a7c21") (Some "pwn 101") (Some "a b&c=d") "https:"
    "ctf.example".

Definition session : list action :=
  [ ModulesLoaded; InitializeTerminal; ConnectEffect; SocketOpen 0;
    SocketClose 0; ClickReconnect; SocketOpen 1 ].

Definition after_session : drawer :=
  default ctf_page (run Terminal.one_message session ctf_page).

(** The page with its terminal made and no socket yet. *)
Definition ready_page : drawer :=
  default ctf_page
    (run Terminal.one_message [ModulesLoaded; InitializeTerminal] ctf_page).

(** A drawer opened without container id after its connection attempt. *)
Definition no_container : drawer :=
  default ctf_page
    (run Terminal.one_message
       [ModulesLoaded; InitializeTerminal; ConnectEffect]
       (mount true None None None "http:" "localhost:3000")).

(** Every character of [s] satisfies [p]. *)
Fixpoint all_chars (p : ascii → bool) (s : string) : bool :=
  match s with
  | EmptyString => true
  | String c s' => p c && all_chars p s'
  end.

(** The one-socket client of the second socket after the session. *)
Definition session_client : Terminal.client :=
  default Terminal.open_client (view 1 after_session).

(** The frames of a list of sockets only grow: every socket stays, with
    its URL and with the frames it has sent as a prefix of what it has
    sent later, and a socket that is closing or closed stays so and
    sends nothing more. *)
Definition grows (socks socks' : list socket) : Prop :=
  ∀ ws s, socks !! ws = Some s →
    ∃ s', socks' !! ws = Some s'
          ∧ url s' = url s
          ∧ sent s `prefix_of` sent s'
          ∧ (closing s → closing s' ∧ sent s' = sent s).

End Drawer.

(** * The login form

    [handleSubmit] is asynchronous: it clears the error, shows that it is
    loading and waits 1.5 seconds; what runs after the wait sees the
    username and the password of the render in which [handleSubmit] was
    called.  The form below keeps those values for every call that still
    waits; the waits are equal, so the calls resume in the order in which
    they were made.  A text is the list of its UTF-16 code units, which
    is what [length] counts. *)

Module LoginForm.
Section Form.
Variable unit : Type.

Record form : Type := Form {
  username : list unit;
  password : list unit;
  isLoading : bool;
  error : option string;
  showSuccess : bool;
  waiting : list (list unit * list unit)
}.

(** The form as React mounts it. *)
Definition initial : form := Form [] [] false None false [].

Definition setUsername (v : list unit) (f : form) : form :=
  Form v (password f) (isLoading f) (error f) (showSuccess f) (waiting f).

Definition setPassword (v : list unit) (f : form) : form :=
  Form (username f) v (isLoading f) (error f) (showSuccess f) (waiting f).

(** [handleSubmit] up to its [await]. *)
Definition handleSubmit (f : form) : form :=
  Form (username f) (password f) true None (showSuccess f)
    (waiting f ++ [(username f, password f)]).

(** [handleSubmit] after its [await], with the values of its closure. *)
Definition resume (held : list unit * list unit) (f : form) : form :=
  if (length (fst held) <? 3) || (length (snd held) <? 6)
  then Form (username f) (password f) false
         (Some "AUTHENTICATION_FAILED: Invalid credentials") (showSuccess f)
         (waiting f)
  else Form (username f) (password f) false (error f) true (waiting f).

(** What happens to the form: the user edits a field, [handleSubmit] is
    called, by the button or by the Enter key in a field, or the wait of
    the oldest call ends. *)
Inductive event : Type :=
  | Username (v : list unit)
  | Password (v : list unit)
  | Submit
  | Waited.

Definition handle (e : event) (f : form) : form :=
  match e with
  | Username v => setUsername v f
  | Password v => setPassword v f
  | Submit => handleSubmit f
  | Waited =>
      match waiting f with
      | held :: rest =>
          resume held
            (Form (username f) (password f) (isLoading f) (error f)
               (showSuccess f) rest)
      | [] => f
      end
  end.

Definition run (events : list event) (f : form) : form :=
  foldl (fun f e => handle e f) f events.

(** [disabled] of the submit button. *)
Definition disabled (f : form) : bool :=
  isLoading f
  || bool_decide (username f = []) || bool_decide (password f = []).
End Form.

Arguments Form {unit}.
Arguments username {unit}.
Arguments password {unit}.
Arguments isLoading {unit}.
Arguments error {unit}.
Arguments showSuccess {unit}.
Arguments waiting {unit}.
Arguments initial {unit}.
Arguments handleSubmit {unit}.
Arguments resume {unit}.
Arguments handle {unit}.
Arguments run {unit}.
Arguments Username {unit}.
Arguments Password {unit}.
Arguments Submit {unit}.
Arguments Waited {unit}.

(** The username was long enough, or is so in a call that waits. *)
Definition may_pass {unit : Type} (f : form unit) : Prop :=
  showSuccess f = true
  ∨ 3 ≤ length (username f)
  ∨ ∃ held, held ∈ waiting f ∧ 3 ≤ length (fst held).

End LoginForm.

(** * The typing effect

    The component shows one more code unit of its text every 50 ms.  Its
    effect runs after a render in which [currentIndex], [text] or
    [onComplete] has changed: below the length of the text it sets the
    timer, whose callback appends the unit at [currentIndex] and moves
    the index on; at the length it calls [onComplete].  The text is the
    same at every render. *)

Module TypingEffect.
Section Typing.
Variable unit : Type.

Record typing : Type := Typing {
  displayText : list unit;
  currentIndex : nat;
  completed : nat            (* the calls of [onComplete] *)
}.

(** The effect. *)
Definition effect (text : list unit) (st : typing) : typing :=
  if currentIndex st <? length text then st
  else Typing (displayText st) (currentIndex st) (S (completed st)).

(** The callback of the timer; it is set below the length only. *)
Definition timeout (text : list unit) (st : typing) : typing :=
  match text !! currentIndex st with
  | Some c => Typing (displayText st ++ [c]) (S (currentIndex st)) (completed st)
  | None => st
  end.

(** The component after its first render. *)
Definition mount (text : list unit) : typing := effect text (Typing [] 0 0).

(** 50 ms pass: the timer fires if it is set, and the render that
    follows runs the effect. *)
Definition tick (text : list unit) (st : typing) : typing :=
  if currentIndex st <? length text then effect text (timeout text st)
  else st.

(** What happens to the component: its timer fires, or its parent
    renders it again.  The parent passes a new function as [onComplete]
    at each of its renders, and [onComplete] is a dependency of the
    effect, which therefore runs again: below the length of the text it
    sets the timer anew, at the length it calls [onComplete] once
    more. *)
Inductive event : Type :=
  | Tick
  | Render.

Definition handle (text : list unit) (e : event) (st : typing) : typing :=
  match e with
  | Tick => tick text st
  | Render => effect text st
  end.

Definition run (text : list unit) (events : list event) (st : typing)
    : typing :=
  foldl (fun st e => handle text e st) st events.

(** The ticks and the renders among the events. *)
Fixpoint ticks (events : list event) : nat :=
  match events with
  | [] => 0
  | Tick :: rest => S (ticks rest)
  | Render :: rest => ticks rest
  end.

Fixpoint renders (events : list event) : nat :=
  match events with
  | [] => 0
  | Tick :: rest => renders rest
  | Render :: rest => S (renders rest)
  end.
End Typing.

Arguments Typing {unit}.
Arguments displayText {unit}.
Arguments currentIndex {unit}.
Arguments completed {unit}.
Arguments effect {unit}.
Arguments timeout {unit}.
Arguments mount {unit}.
Arguments tick {unit}.
Arguments handle {unit}.
Arguments run {unit}.

End TypingEffect.

(** ** Lemmas on strings *)

Lemma append_cons (c : ascii) (s t : string) :
  String c s +:+ t = String c (s +:+ t).
Proof. reflexivity. Qed.

Lemma append_nil_l (t : string) : "" +:+ t = t.
Proof. reflexivity. Qed.

Lemma append_nil_r (s : string) : s +:+ "" = s.
Proof.
  induction s as [|c s IH]; [done |]. by rewrite append_cons, IH.
Qed.

Lemma append_assoc (a b c : string) : (a +:+ b) +:+ c = a +:+ (b +:+ c).
Proof.
  induction a as [|x a IH]; [done |]. by rewrite !append_cons, IH.
Qed.

Lemma has_char_app (c : ascii) (a b : string) :
  has_char c (a +:+ b) = has_char c a || has_char c b.
Proof.
  induction a as [|x a IH]; [done |].
  rewrite append_cons. simpl.
  destruct (Ascii.eqb x c); [done | exact IH].
Qed.

Lemma has_char_substring (c : ascii) (s : string) (n m : nat) :
  has_char c s = false → has_char c (String.substring n m s) = false.
Proof.
  revert n m. induction s as [|x s IH]; intros n m H.
  - by destruct n, m.
  - simpl in H. destruct (Ascii.eqb x c) eqn:E; [done |].
    destruct n as [|n]; simpl.
    + destruct m as [|m]; simpl; [done |]. rewrite E. by apply IH.
    + by apply IH.
Qed.

Lemma starts_with_app (p s : string) : starts_with p (p +:+ s) = true.
Proof.
  induction p as [|a p IH]; [done |].
  rewrite append_cons. simpl. by rewrite Ascii.eqb_refl.
Qed.

Lemma starts_with_clash (p q s : string) :
  clash p q = true → starts_with p (q +:+ s) = false.
Proof.
  revert q. induction p as [|a p IH]; intros [|b q] H; simpl in *; try done.
  destruct (Ascii.eqb a b); [by apply IH | done].
Qed.

(** ** Lemmas on the sed model *)

Lemma repl_safe_cons (c : ascii) (v : string) :
  repl_safe (String c v) = true →
  Ascii.eqb c "/" = false ∧ Ascii.eqb c "\" = false ∧ Ascii.eqb c nl = false
  ∧ repl_safe v = true.
Proof.
  unfold repl_safe. simpl.
  destruct (Ascii.eqb c "/"), (Ascii.eqb c "\"), (Ascii.eqb c nl); simpl;
    rewrite ?andb_false_r; intros H; try discriminate H; auto.
Qed.

Lemma parse_repl_safe (v rest : string) :
  repl_safe v = true →
  parse_repl (v +:+ String "/" rest) = Some (items_of v, rest).
Proof.
  induction v as [|c v IH]; intros H; [done |].
  apply repl_safe_cons in H as (E1 & E2 & E3 & H).
  rewrite append_cons. simpl. rewrite E1, E2, E3. by rewrite IH.
Qed.

Lemma expand_items_of (m v : string) :
  has_char "&" v = false → expand m (items_of v) = v.
Proof.
  induction v as [|c v IH]; simpl; intros H; [done |].
  destruct (Ascii.eqb c "&"); [done |]. simpl. by rewrite IH.
Qed.

Lemma gsub_nil (pat rep : string) : gsub pat rep "" = "".
Proof. done. Qed.

(** A text without opening brace is copied by a command whose pattern
    begins with one. *)
Lemma gsub_nobrace_app (p rep v s : string) :
  has_char "{" v = false →
  gsub (String "{" p) rep (v +:+ s) = v +:+ gsub (String "{" p) rep s.
Proof.
  unfold gsub. induction v as [|c v IH]; intros H; [done |].
  simpl in H. destruct (Ascii.eqb c "{") eqn:E; [done |].
  rewrite append_cons. cbn [gsub_from starts_with].
  rewrite Ascii.eqb_sym, E. by rewrite IH.
Qed.

Lemma gsub_from_skip (pat rep q s : string) :
  gsub_from pat rep (String.length q) (q +:+ s) = gsub_from pat rep 0 s.
Proof.
  induction q as [|c q IH]; [done |]. rewrite append_cons. exact IH.
Qed.

(** An occurrence of the pattern at the head is replaced. *)
Lemma gsub_hit (a : ascii) (p rep s : string) :
  gsub (String a p) rep (String a p +:+ s) = rep +:+ gsub (String a p) rep s.
Proof.
  unfold gsub. rewrite append_cons. cbn [gsub_from].
  rewrite <- append_cons, starts_with_app.
  replace (String.length (String a p) - 1) with (String.length p)
    by (simpl; lia).
  by rewrite gsub_from_skip.
Qed.

(** Another placeholder at the head is copied. *)
Lemma gsub_other (p rep q s : string) :
  clash (String "{" p) (String "{" q) = true →
  has_char "{" q = false →
  gsub (String "{" p) rep (String "{" q +:+ s)
  = String "{" q +:+ gsub (String "{" p) rep s.
Proof.
  intros Hc Hq. unfold gsub at 1. rewrite append_cons. cbn [gsub_from].
  rewrite <- append_cons, (starts_with_clash _ _ _ Hc), append_cons.
  change (gsub_from (String "{" p) rep 0 (q +:+ s))
    with (gsub (String "{" p) rep (q +:+ s)).
  by rewrite gsub_nobrace_app.
Qed.

Lemma parse_regex_literal (p rest : string) :
  literal_regex p = true →
  parse_regex (p +:+ String "/" rest) = Some (p, rest).
Proof.
  induction p as [|c p IH]; intros H; [done |].
  simpl in H. apply andb_prop in H as [H Hp]. apply andb_prop in H as [H1 H2].
  apply negb_true_iff in H1.
  rewrite append_cons. simpl. rewrite H1, H2. by rewrite IH.
Qed.

Lemma parse_s_chunk (pre : string) (a : ascii) (p v : string) :
  pre = "s/" +:+ String a p +:+ "/" →
  literal_regex (String a p) = true →
  repl_safe v = true →
  parse_s (pre +:+ v +:+ "/g") = Some (SCmd (String a p) (items_of v)).
Proof.
  intros -> Hp Hv.
  rewrite !append_assoc.
  change (parse_s (String "s" (String "/"
            (String a p +:+ String "/" (v +:+ "/g"))))
          = Some (SCmd (String a p) (items_of v))).
  unfold parse_s. rewrite (parse_regex_literal _ _ Hp).
  by rewrite (parse_repl_safe _ _ Hv).
Qed.

Lemma repl_safe_app (a b : string) :
  repl_safe a = true → repl_safe b = true → repl_safe (a +:+ b) = true.
Proof.
  unfold repl_safe. rewrite !has_char_app.
  destruct (has_char "/" a), (has_char "\" a), (has_char nl a); simpl; try done.
Qed.

Lemma repl_safe_substring (s : string) (n m : nat) :
  repl_safe s = true → repl_safe (String.substring n m s) = true.
Proof.
  unfold repl_safe. intros H.
  apply andb_prop in H as [H H3]. apply andb_prop in H as [H1 H2].
  apply negb_true_iff in H1, H2, H3.
  by rewrite !has_char_substring.
Qed.

Lemma repl_safe_hostname (name : string) :
  repl_safe name = true → repl_safe (hostname_of name) = true.
Proof. intros H. by apply repl_safe_app. Qed.

(** The chunks built from safe values are all in the modelled fragment. *)
Lemma parse_sed_chunks (ip port name ts cid : string) :
  repl_safe ip = true → repl_safe port = true → repl_safe name = true →
  repl_safe ts = true → repl_safe cid = true →
  mapM parse_s (sed_chunks (hostname_of name) ip port name ts cid)
  = Some (parsed_chunks (hostname_of name) ip port name ts
                        (String.substring 0 12 cid)).
Proof.
  intros Hip Hport Hname Hts Hcid. unfold sed_chunks.
  pose proof (repl_safe_hostname _ Hname) as Hh.
  pose proof (repl_safe_substring _ 0 12 Hcid) as Hc.
  cbn [mapM].
  rewrite (parse_s_chunk "s/{hostname}/" "{" "hostname}" _ eq_refl eq_refl Hh).
  rewrite (parse_s_chunk "s/{container_ip}/" "{" "container_ip}" _ eq_refl eq_refl Hip).
  rewrite (parse_s_chunk "s/{container_port}/" "{" "container_port}" _ eq_refl eq_refl Hport).
  rewrite (parse_s_chunk "s/{challenge_name}/" "{" "challenge_name}" _ eq_refl eq_refl Hname).
  rewrite (parse_s_chunk "s/{timestamp}/" "{" "timestamp}" _ eq_refl eq_refl Hts).
  rewrite (parse_s_chunk "s/{container_id}/" "{" "container_id}" _ eq_refl eq_refl Hc).
  reflexivity.
Qed.

Lemma plain_repl_safe (v : string) : plain v = true → repl_safe v = true.
Proof.
  unfold plain. intros H. apply andb_prop in H as [H _].
  by apply andb_prop in H as [H _].
Qed.

Lemma plain_no_amp (v : string) : plain v = true → has_char "&" v = false.
Proof.
  unfold plain. intros H. apply andb_prop in H as [H _].
  apply andb_prop in H as [_ H]. by apply negb_true_iff.
Qed.

Lemma plain_no_brace (v : string) : plain v = true → has_char "{" v = false.
Proof.
  unfold plain. intros H. apply andb_prop in H as [_ H]. by apply negb_true_iff.
Qed.

Lemma plain_brace_free (v : string) : plain v = true → brace_free v = true.
Proof.
  intros H. unfold brace_free.
  by rewrite (plain_repl_safe _ H), (plain_no_brace _ H).
Qed.

Lemma brace_free_repl_safe (v : string) : brace_free v = true → repl_safe v = true.
Proof. unfold brace_free. intros H. by apply andb_prop in H as [H _]. Qed.

Lemma brace_free_no_brace (v : string) :
  brace_free v = true → has_char "{" v = false.
Proof.
  unfold brace_free. intros H. apply andb_prop in H as [_ H].
  by apply negb_true_iff.
Qed.

Lemma brace_free_hostname (name : string) :
  brace_free name = true → brace_free (hostname_of name) = true.
Proof.
  intros H. unfold brace_free.
  rewrite (repl_safe_hostname _ (brace_free_repl_safe _ H)).
  unfold hostname_of. by rewrite has_char_app, (brace_free_no_brace _ H).
Qed.

Lemma plain_app (a b : string) :
  plain a = true → plain b = true → plain (a +:+ b) = true.
Proof.
  intros Ha Hb. unfold plain.
  rewrite (repl_safe_app _ _ (plain_repl_safe _ Ha) (plain_repl_safe _ Hb)).
  rewrite !has_char_app.
  by rewrite (plain_no_amp _ Ha), (plain_no_amp _ Hb),
             (plain_no_brace _ Ha), (plain_no_brace _ Hb).
Qed.

Lemma plain_substring (s : string) (n m : nat) :
  plain s = true → plain (String.substring n m s) = true.
Proof.
  intros H. unfold plain.
  rewrite (repl_safe_substring _ n m (plain_repl_safe _ H)).
  by rewrite (has_char_substring _ _ n m (plain_no_amp _ H)),
             (has_char_substring _ _ n m (plain_no_brace _ H)).
Qed.

Lemma plain_hostname (name : string) :
  plain name = true → plain (hostname_of name) = true.
Proof. intros H. by apply plain_app. Qed.

(** A value without [&] stands for itself. *)
Lemma amp_plain (m v : string) : plain v = true → amp m v = v.
Proof. intros H. by apply expand_items_of, plain_no_amp. Qed.

(** A value expanded for one placeholder is copied by the command of
    another placeholder: its characters have no brace and its [&] have
    become the first placeholder. *)
Lemma gsub_amp_app (p rep q v s : string) :
  clash (String "{" p) (String "{" q) = true →
  has_char "{" q = false →
  has_char "{" v = false →
  gsub (String "{" p) rep (amp (String "{" q) v +:+ s)
  = amp (String "{" q) v +:+ gsub (String "{" p) rep s.
Proof.
  intros Hc Hq. unfold amp. induction v as [|c v IH]; intros Hv; [done |].
  simpl in Hv. destruct (Ascii.eqb c "{") eqn:Ec; [done |].
  cbn [items_of]. destruct (Ascii.eqb c "&"); cbn [expand].
  - rewrite append_assoc, (gsub_other _ _ _ _ Hc Hq), IH by done.
    by rewrite append_assoc.
  - rewrite append_cons.
    change (String c (expand (String "{" q) (items_of v) +:+ s))
      with (String c "" +:+ (expand (String "{" q) (items_of v) +:+ s)).
    rewrite gsub_nobrace_app by (simpl; by rewrite Ec).
    by rewrite IH.
Qed.

(** The parsed commands are the six substitutions of the expanded
    values. *)
Lemma sed_line_subst6 (h ip port name ts c12 line : string) :
  sed_line (parsed_chunks h ip port name ts c12) line
  = subst6 (amp "{hostname}" h) (amp "{container_ip}" ip)
           (amp "{container_port}" port) (amp "{challenge_name}" name)
           (amp "{timestamp}" ts) (amp "{container_id}" c12) line.
Proof. reflexivity. Qed.

(** Rewriting one line: every piece of the line is a text without brace, a
    value, or a placeholder. *)
Ltac gsub_step :=
  first
    [ rewrite gsub_nil
    | rewrite gsub_hit
    | rewrite gsub_other by reflexivity
    | rewrite gsub_amp_app
        by (first [reflexivity | by apply brace_free_no_brace])
    | rewrite gsub_nobrace_app
        by (first [reflexivity | by apply plain_no_brace]) ].

Ltac gsub_line :=
  unfold subst6; repeat gsub_step; rewrite ?append_nil_r; reflexivity.

Section RenderedLines.
Variables h ip port name ts c12 : string.
Hypothesis Hh : brace_free h = true.
Hypothesis Hip : plain ip = true.
Hypothesis Hport : plain port = true.
Hypothesis Hname : brace_free name = true.
Hypothesis Hts : plain ts = true.
Hypothesis Hc : plain c12 = true.

(** The hostname and the challenge name as sed writes them. *)
Let h' : string := amp "{hostname}" h.
Let name' : string := amp "{challenge_name}" name.

Lemma line_challenge_name :
  subst6 h' ip port name' ts c12
    ("# Challenge Instance: " +:+ "{challenge_name}" +:+ "")
  = "# Challenge Instance: " +:+ name'.
Proof using Hh Hip Hport Hname Hts Hc. subst h' name'. gsub_line. Qed.

Lemma line_timestamp :
  subst6 h' ip port name' ts c12 ("# Generated: " +:+ "{timestamp}" +:+ "")
  = "# Generated: " +:+ ts.
Proof using Hh Hip Hport Hname Hts Hc. subst h' name'. gsub_line. Qed.

Lemma line_container_id :
  subst6 h' ip port name' ts c12 ("# Container: " +:+ "{container_id}" +:+ "")
  = "# Container: " +:+ c12.
Proof using Hh Hip Hport Hname Hts Hc. subst h' name'. gsub_line. Qed.

Lemma line_server_name :
  subst6 h' ip port name' ts c12
    ("    server_name " +:+ "{hostname}" +:+ ";" +:+ "")
  = "    server_name " +:+ h' +:+ ";".
Proof using Hh Hip Hport Hname Hts Hc. subst h' name'. gsub_line. Qed.

Lemma line_proxy_pass :
  subst6 h' ip port name' ts c12
    ("        proxy_pass http://" +:+ "{container_ip}" +:+ ":"
       +:+ "{container_port}" +:+ "/;" +:+ "")
  = "        proxy_pass http://" +:+ ip +:+ ":" +:+ port +:+ "/;".
Proof using Hh Hip Hport Hname Hts Hc. subst h' name'. gsub_line. Qed.

Lemma line_access_log :
  subst6 h' ip port name' ts c12
    ("    access_log /var/log/nginx/challenges/" +:+ "{hostname}"
       +:+ "_access.log;" +:+ "")
  = "    access_log /var/log/nginx/challenges/" +:+ h' +:+ "_access.log;".
Proof using Hh Hip Hport Hname Hts Hc. subst h' name'. gsub_line. Qed.

Lemma line_error_log :
  subst6 h' ip port name' ts c12
    ("    error_log /var/log/nginx/challenges/" +:+ "{hostname}"
       +:+ "_error.log;" +:+ "")
  = "    error_log /var/log/nginx/challenges/" +:+ h' +:+ "_error.log;".
Proof using Hh Hip Hport Hname Hts Hc. subst h' name'. gsub_line. Qed.

End RenderedLines.

Lemma split_lines_template : split_lines challenge_template = template_lines ++ [""].
Proof. vm_compute. reflexivity. Qed.

Lemma join_lines_unlines (ls : list string) : join_lines (ls ++ [""]) = unlines ls.
Proof.
  induction ls as [|l ls IH]; [done |].
  cbn [app join_lines unlines]. rewrite IH.
  by destruct ls.
Qed.

Ltac line_const := apply (f_equal2 cons); [reflexivity |].
Ltac line_by L := apply (f_equal2 cons); [by apply L |].

Lemma subst6_template (ip port name ts cid : string) :
  plain ip = true → plain port = true → brace_free name = true →
  plain ts = true → plain cid = true →
  subst6 (amp "{hostname}" (hostname_of name)) ip port
         (amp "{challenge_name}" name) ts (String.substring 0 12 cid)
    <$> template_lines
  = rendered_lines (amp "{hostname}" (hostname_of name)) ip port
                   (amp "{challenge_name}" name) ts cid.
Proof.
  intros Hip Hport Hname Hts Hcid.
  pose proof (brace_free_hostname _ Hname) as Hh.
  pose proof (plain_substring _ 0 12 Hcid) as Hc.
  unfold template_lines, rendered_lines. cbn [fmap list_fmap].
  line_by line_challenge_name. line_by line_timestamp.
  line_by line_container_id. do 3 line_const.
  line_by line_server_name. do 3 line_const.
  line_by line_proxy_pass. do 26 line_const.
  line_by line_access_log. line_by line_error_log. line_const.
  reflexivity.
Qed.

(** The text sed writes when the challenge name may have [&]: the template
    with every placeholder replaced by its value, the [&] of the hostname
    and of the challenge name replaced by the placeholder itself. *)
Lemma sed_template_amp (ip port name ts cid : string) :
  plain ip = true → plain port = true → brace_free name = true →
  plain ts = true → plain cid = true →
  sed (sed_chunks (hostname_of name) ip port name ts cid) challenge_template
  = Some (rendered (amp "{hostname}" (hostname_of name)) ip port
                   (amp "{challenge_name}" name) ts cid).
Proof.
  intros Hip Hport Hname Hts Hcid.
  pose proof (plain_substring _ 0 12 Hcid) as Hc.
  unfold sed.
  rewrite parse_sed_chunks
    by (first [by apply plain_repl_safe | by apply brace_free_repl_safe]).
  cbn [mbind option_bind]. f_equal.
  rewrite split_lines_template, fmap_app, join_lines_unlines.
  unfold rendered. f_equal.
  rewrite <- subst6_template by done.
  apply list_fmap_ext. intros _ line _. rewrite sed_line_subst6.
  by rewrite (amp_plain _ ip), (amp_plain _ port), (amp_plain _ ts),
             (amp_plain _ (String.substring 0 12 cid)).
Qed.

(** The text sed writes for plain values: the template with every
    placeholder replaced by its value. *)
Lemma sed_template (ip port name ts cid : string) :
  plain ip = true → plain port = true → plain name = true →
  plain ts = true → plain cid = true →
  sed (sed_chunks (hostname_of name) ip port name ts cid) challenge_template
  = Some (rendered (hostname_of name) ip port name ts cid).
Proof.
  intros Hip Hport Hname Hts Hcid.
  rewrite sed_template_amp by (first [done | by apply plain_brace_free]).
  by rewrite (amp_plain _ _ (plain_hostname _ Hname)), (amp_plain _ _ Hname).
Qed.

(** ** Lemmas on the file system *)

Lemma set_dirs_set_dirs (d1 d2 : gset string) (w : world) :
  set_dirs d1 (set_dirs d2 w) = set_dirs d1 w.
Proof. done. Qed.

Lemma dirs_set_dirs (d : gset string) (w : world) : dirs (set_dirs d w) = d.
Proof. done. Qed.

Lemma set_dirs_same (d : gset string) (w : world) : d = dirs w → set_dirs d w = w.
Proof. intros ->. by destruct w. Qed.

Lemma mkdir_step_free (a : string) (w : world) :
  String.eqb a "/" = false →
  files w !! a = None →
  mkdir_step (w, true) a = (set_dirs ({[a]} ∪ dirs w) w, true).
Proof.
  intros Ha Hf. unfold mkdir_step, is_dir. cbn [negb]. rewrite Ha. cbn [orb].
  case_bool_decide as Hin.
  - f_equal. symmetry. apply set_dirs_same.
    by apply subseteq_union_1_L, singleton_subseteq_l.
  - by rewrite Hf.
Qed.

Lemma mkdir_steps_free (l : list string) (w : world) :
  (∀ a, a ∈ l → String.eqb a "/" = false ∧ files w !! a = None) →
  foldl mkdir_step (w, true) l = (set_dirs (list_to_set l ∪ dirs w) w, true).
Proof.
  revert w. induction l as [|a l IH]; intros w Hl.
  - cbn [foldl]. f_equal. symmetry. apply set_dirs_same.
    by rewrite list_to_set_nil, (left_id_L ∅ (∪)).
  - cbn [foldl]. destruct (Hl a) as [Ha Hf]; [apply list_elem_of_here |].
    rewrite (mkdir_step_free _ _ Ha Hf), IH.
    + rewrite set_dirs_set_dirs, dirs_set_dirs. do 2 f_equal.
      rewrite list_to_set_cons, (assoc_L (∪) (list_to_set l)).
      by rewrite (comm_L (∪) (list_to_set l)).
    + intros b Hb. apply Hl. by apply list_elem_of_further.
Qed.

Lemma not_root (a : string) : a ∈ layout_dirs → String.eqb a "/" = false.
Proof.
  unfold layout_dirs. rewrite !elem_of_cons, elem_of_nil.
  intros H. repeat (destruct H as [-> | H]; [reflexivity |]). done.
Qed.

Lemma mkdir_p_layout (p : string) (w : world) :
  (∀ a, a ∈ layout_dirs → files w !! a = None) →
  ancestors_from "" p ⊆ layout_dirs →
  mkdir_p p w = set_dirs (list_to_set (ancestors_from "" p) ∪ dirs w) w.
Proof.
  intros Hfree Hsub. unfold mkdir_p. rewrite mkdir_steps_free; [done |].
  intros a Ha. split; [apply not_root | apply Hfree]; by apply Hsub.
Qed.

Lemma ancestors_layout :
  ancestors_from "" NGINX_SITES_AVAILABLE ⊆ layout_dirs
  ∧ ancestors_from "" NGINX_SITES_ENABLED ⊆ layout_dirs
  ∧ ancestors_from "" LOG_DIR ⊆ layout_dirs
  ∧ ancestors_from "" (dirname TEMPLATE_FILE) ⊆ layout_dirs.
Proof.
  change (ancestors_from "" NGINX_SITES_AVAILABLE)
    with ["/etc"; "/etc/nginx"; "/etc/nginx/sites-available"].
  change (ancestors_from "" NGINX_SITES_ENABLED)
    with ["/etc"; "/etc/nginx"; "/etc/nginx/sites-enabled"].
  change (ancestors_from "" LOG_DIR)
    with ["/var"; "/var/log"; "/var/log/nginx"; "/var/log/nginx/challenges"].
  change (ancestors_from "" (dirname TEMPLATE_FILE))
    with ["/etc"; "/etc/nginx"; "/etc/nginx/templates"].
  unfold layout_dirs.
  repeat split; intros a; rewrite !elem_of_cons, !elem_of_nil; tauto.
Qed.

Lemma layout_set_eq :
  list_to_set (ancestors_from "" (dirname TEMPLATE_FILE))
  ∪ (list_to_set (ancestors_from "" LOG_DIR)
     ∪ (list_to_set (ancestors_from "" NGINX_SITES_ENABLED)
        ∪ list_to_set (ancestors_from "" NGINX_SITES_AVAILABLE)))
  = (list_to_set layout_dirs : gset string).
Proof.
  change (ancestors_from "" NGINX_SITES_AVAILABLE)
    with ["/etc"; "/etc/nginx"; "/etc/nginx/sites-available"].
  change (ancestors_from "" NGINX_SITES_ENABLED)
    with ["/etc"; "/etc/nginx"; "/etc/nginx/sites-enabled"].
  change (ancestors_from "" LOG_DIR)
    with ["/var"; "/var/log"; "/var/log/nginx"; "/var/log/nginx/challenges"].
  change (ancestors_from "" (dirname TEMPLATE_FILE))
    with ["/etc"; "/etc/nginx"; "/etc/nginx/templates"].
  unfold layout_dirs. apply set_eq. intros x.
  rewrite !elem_of_union, !elem_of_list_to_set, !elem_of_cons, !elem_of_nil.
  tauto.
Qed.

Lemma ensure_directories_ok (w : world) :
  (∀ a, a ∈ layout_dirs → files w !! a = None) →
  ensure_directories w = set_dirs (list_to_set layout_dirs ∪ dirs w) w.
Proof.
  intros Hfree. destruct ancestors_layout as (H1 & H2 & H3 & H4).
  unfold ensure_directories.
  rewrite (mkdir_p_layout NGINX_SITES_AVAILABLE w Hfree H1).
  rewrite (mkdir_p_layout NGINX_SITES_ENABLED (set_dirs _ w) Hfree H2).
  rewrite set_dirs_set_dirs, dirs_set_dirs.
  rewrite (mkdir_p_layout LOG_DIR (set_dirs _ w) Hfree H3).
  rewrite set_dirs_set_dirs, dirs_set_dirs.
  rewrite (mkdir_p_layout (dirname TEMPLATE_FILE) (set_dirs _ w) Hfree H4).
  rewrite set_dirs_set_dirs, dirs_set_dirs. f_equal.
  rewrite <- layout_set_eq. by rewrite !(assoc_L (∪)).
Qed.

Lemma is_dir_set_files (p : string) (f : gmap string node) (w : world) :
  is_dir p (set_files f w) = is_dir p w.
Proof. done. Qed.

Lemma files_set_files (f : gmap string node) (w : world) :
  files (set_files f w) = f.
Proof. done. Qed.

Lemma set_files_set_files (f1 f2 : gmap string node) (w : world) :
  set_files f1 (set_files f2 w) = set_files f1 w.
Proof. done. Qed.

Lemma resolve_not_link (k : nat) (f : gmap string node) (p : string) :
  (∀ t, f !! p ≠ Some (Link t)) → resolve (S k) f p = Some p.
Proof.
  intros H. cbn [resolve]. destruct (f !! p) as [[c|t]|] eqn:E; try done.
  by destruct (H t).
Qed.

Lemma write_file_ok (p text : string) (w : world) :
  (∀ t, files w !! p ≠ Some (Link t)) →
  is_dir p w = false →
  is_dir (dirname p) w = true →
  can_write p w = true
  ∧ write_file p text w = set_files (<[p := File text]> (files w)) w.
Proof.
  intros Hl Hp Hd. unfold can_write, write_file, max_links.
  rewrite (resolve_not_link _ _ _ Hl), Hp, Hd. done.
Qed.

Lemma read_file_ok (p text : string) (w : world) :
  files w !! p = Some (File text) →
  is_dir p w = false →
  read_file p w = Some text.
Proof.
  intros Hf Hp. unfold read_file, max_links.
  rewrite resolve_not_link by (intros t; by rewrite Hf).
  by rewrite Hp, Hf.
Qed.

Lemma ln_sf_ok (target link : string) (w : world) :
  is_dir link w = false →
  is_dir (dirname link) w = true →
  ln_sf target link w = set_files (<[link := Link target]> (files w)) w.
Proof. intros Hl Hd. unfold ln_sf. by rewrite !Hl, Hd. Qed.

(** ** Lemmas on the paths of a site *)

Lemma neq_by_prefix (p a b : string) :
  starts_with p a = true → starts_with p b = false → a ≠ b.
Proof. congruence. Qed.

Lemma conf_file_prefix (h : string) :
  starts_with "/etc/nginx/sites-available/" (conf_file_of h) = true.
Proof. apply (starts_with_app "/etc/nginx/sites-available/"). Qed.

Lemma enabled_link_prefix (h : string) :
  starts_with "/etc/nginx/sites-enabled/" (enabled_link_of h) = true.
Proof. apply (starts_with_app "/etc/nginx/sites-enabled/"). Qed.

Lemma not_in_layout (p a : string) :
  starts_with p a = true →
  forallb (fun d => negb (starts_with p d)) layout_dirs = true →
  a ∉ layout_dirs.
Proof.
  intros Ha Hall Hin. rewrite forallb_forall in Hall.
  apply list_elem_of_In in Hin. specialize (Hall _ Hin).
  by rewrite Ha in Hall.
Qed.

Lemma conf_file_not_layout (h : string) : conf_file_of h ∉ layout_dirs.
Proof. by apply (not_in_layout _ _ (conf_file_prefix h)). Qed.

Lemma enabled_link_not_layout (h : string) : enabled_link_of h ∉ layout_dirs.
Proof. by apply (not_in_layout _ _ (enabled_link_prefix h)). Qed.

Lemma conf_file_not_template (h : string) : conf_file_of h ≠ TEMPLATE_FILE.
Proof. by apply (neq_by_prefix _ _ _ (conf_file_prefix h)). Qed.

Lemma enabled_link_not_template (h : string) : enabled_link_of h ≠ TEMPLATE_FILE.
Proof. by apply (neq_by_prefix _ _ _ (enabled_link_prefix h)). Qed.

Lemma enabled_link_not_conf (h h' : string) : enabled_link_of h ≠ conf_file_of h'.
Proof.
  apply (neq_by_prefix _ _ _ (enabled_link_prefix h)).
  apply (starts_with_clash _ "/etc/nginx/sites-available/"). reflexivity.
Qed.

Lemma template_not_layout : TEMPLATE_FILE ∉ layout_dirs.
Proof.
  by apply (not_in_layout "/etc/nginx/templates/challenge.conf.template").
Qed.

Lemma before_last_slash_none (s : string) :
  has_char "/" s = false → before_last_slash s = None.
Proof.
  induction s as [|c s IH]; [done |]. simpl.
  destruct (Ascii.eqb c "/"); [done |]. intros H. by rewrite IH.
Qed.

Lemma before_last_slash_app (pre s : string) :
  has_char "/" s = false →
  before_last_slash (pre +:+ String "/" s) = Some pre.
Proof.
  intros H. induction pre as [|c pre IH].
  - rewrite append_nil_l. simpl. by rewrite before_last_slash_none.
  - rewrite append_cons. simpl. by rewrite IH.
Qed.

Lemma dirname_in (c : ascii) (pre s : string) :
  has_char "/" s = false →
  dirname (String c pre +:+ String "/" s) = String c pre.
Proof. intros H. unfold dirname. by rewrite before_last_slash_app. Qed.

Lemma dirname_conf_file (h : string) :
  has_char "/" h = false → dirname (conf_file_of h) = NGINX_SITES_AVAILABLE.
Proof.
  intros H. apply (dirname_in "/" "etc/nginx/sites-available").
  by rewrite has_char_app, H.
Qed.

Lemma dirname_enabled_link (h : string) :
  has_char "/" h = false → dirname (enabled_link_of h) = NGINX_SITES_ENABLED.
Proof.
  intros H. apply (dirname_in "/" "etc/nginx/sites-enabled").
  by rewrite has_char_app, H.
Qed.

Lemma repl_safe_no_slash (v : string) :
  repl_safe v = true → has_char "/" v = false.
Proof.
  unfold repl_safe. intros H. apply andb_prop in H as [H _].
  apply andb_prop in H as [H _]. by apply negb_true_iff.
Qed.

Lemma is_dir_layout (a : string) (d : gset string) (w : world) :
  a ∈ layout_dirs → is_dir a (set_dirs (list_to_set layout_dirs ∪ d) w) = true.
Proof.
  intros Ha. unfold is_dir. rewrite dirs_set_dirs.
  rewrite bool_decide_eq_true_2; [by rewrite orb_true_r |].
  apply elem_of_union_l. by apply elem_of_list_to_set.
Qed.

Lemma is_dir_outside (p : string) (w : world) :
  String.eqb p "/" = false → p ∉ layout_dirs → p ∉ dirs w →
  is_dir p (set_dirs (list_to_set layout_dirs ∪ dirs w) w) = false.
Proof.
  intros Hr Hl Hd. unfold is_dir. rewrite dirs_set_dirs, Hr.
  rewrite bool_decide_eq_false_2; [done |].
  rewrite elem_of_union, elem_of_list_to_set. tauto.
Qed.

Lemma initialize_ok (w : world) :
  host_ok w → create_template (ensure_directories w) = initialized w.
Proof.
  intros [Hfree [Hd Hl]].
  rewrite (ensure_directories_ok _ Hfree). unfold create_template.
  apply write_file_ok.
  - exact Hl.
  - apply is_dir_outside; [done | apply template_not_layout | exact Hd].
  - apply is_dir_layout. change (dirname TEMPLATE_FILE) with "/etc/nginx/templates".
    unfold layout_dirs. rewrite !elem_of_cons. tauto.
Qed.

Lemma sites_available_layout : NGINX_SITES_AVAILABLE ∈ layout_dirs.
Proof. unfold layout_dirs. rewrite !elem_of_cons. tauto. Qed.

Lemma sites_enabled_layout : NGINX_SITES_ENABLED ∈ layout_dirs.
Proof. unfold layout_dirs. rewrite !elem_of_cons. tauto. Qed.

Lemma render_to_ok (h text : string) (chunks : list string) (w : world) :
  host_ok w → site_ok h w → has_char "/" h = false →
  sed chunks challenge_template = Some text →
  render_to (conf_file_of h) chunks (initialized w)
  = Some (set_files (<[conf_file_of h := File text]> (files (initialized w)))
            (initialized w)).
Proof.
  intros Hhost [[Hcd Hcl] Hld] Hslash Hsed.
  assert (is_dir (conf_file_of h) (initialized w) = false) as Hnd.
  { apply is_dir_outside; [done | apply conf_file_not_layout | exact Hcd]. }
  assert (is_dir (dirname (conf_file_of h)) (initialized w) = true) as Hdd.
  { rewrite (dirname_conf_file _ Hslash).
    apply is_dir_layout, sites_available_layout. }
  assert (∀ t, files (initialized w) !! conf_file_of h ≠ Some (Link t)) as Hnl.
  { intros t. unfold initialized. rewrite files_set_files.
    rewrite lookup_insert_ne by (apply not_eq_sym, conf_file_not_template).
    apply Hcl. }
  unfold render_to.
  destruct (write_file_ok _ "" _ Hnl Hnd Hdd) as [-> ->].
  erewrite read_file_ok; cycle 1.
  - rewrite files_set_files.
    rewrite lookup_insert_ne by apply conf_file_not_template.
    unfold initialized. rewrite files_set_files. apply lookup_insert_eq.
  - apply is_dir_outside; [done | apply template_not_layout |].
    by destruct Hhost as [_ [? _]].
  - rewrite Hsed. cbn [mbind option_bind].
    destruct (write_file_ok (conf_file_of h) text
                (set_files (<[conf_file_of h := File ""]> (files (initialized w)))
                   (initialized w))) as [_ ->]; try done.
    + intros t. rewrite files_set_files, lookup_insert_eq. done.
    + rewrite files_set_files, set_files_set_files. by rewrite insert_insert_eq.
Qed.

(** [generate_for_container] after the initialisation, for values that
    sed accepts. *)
Lemma generate_ok (cid ip port name text : string) (w : world) :
  host_ok w → site_ok (hostname_of name) w →
  has_char "/" (hostname_of name) = false →
  sed (sed_chunks (hostname_of name) ip port name (now w) cid) challenge_template
  = Some text →
  generate_for_container [cid; ip; port; name] (initialized w)
  = Some (published (hostname_of name) text
            ("Generated: " +:+ hostname_of name +:+ " -> " +:+ ip +:+ ":" +:+ port)
            (initialized w)).
Proof.
  intros Hhost Hsite Hslash Hsed. unfold generate_for_container.
  change (param 0 [cid; ip; port; name]) with cid.
  change (param 1 [cid; ip; port; name]) with ip.
  change (param 2 [cid; ip; port; name]) with port.
  change (param 3 [cid; ip; port; name]) with name.
  change (now (initialized w)) with (now w).
  rewrite (render_to_ok _ text _ _ Hhost Hsite Hslash Hsed).
  cbn [mbind option_bind]. unfold published. do 2 f_equal.
  destruct Hsite as [_ Hld].
  rewrite ln_sf_ok.
  - by rewrite files_set_files, set_files_set_files.
  - rewrite is_dir_set_files.
    apply is_dir_outside; [done | apply enabled_link_not_layout | exact Hld].
  - rewrite is_dir_set_files, (dirname_enabled_link _ Hslash).
    apply is_dir_layout, sites_enabled_layout.
Qed.

(** The [generate] command in closed form. *)
Lemma main_generate (cid ip port name text : string) (w : world) :
  host_ok w → site_ok (hostname_of name) w →
  repl_safe name = true →
  sed (sed_chunks (hostname_of name) ip port name (now w) cid) challenge_template
  = Some text →
  main ["generate"; cid; ip; port; name] w
  = Some (reload_nginx
            (published (hostname_of name) text
               ("Generated: " +:+ hostname_of name +:+ " -> " +:+ ip +:+ ":" +:+ port)
               (initialized w)), 0).
Proof.
  intros Hhost Hsite Hname Hsed. unfold main.
  rewrite (initialize_ok _ Hhost). unfold dispatch.
  change (String.eqb "generate" "") with false.
  change (String.eqb "generate" "generate") with true. cbn [tail].
  rewrite (generate_ok _ _ _ _ text _ Hhost Hsite); [done | | done].
  apply repl_safe_no_slash. by apply repl_safe_hostname.
Qed.

(** What a run of [generate] leaves in the file system and in the trace. *)
Lemma files_reload_published (h text line : string) (w : world) :
  files (reload_nginx (published h text line w))
  = <[enabled_link_of h := Link (conf_file_of h)]>
      (<[conf_file_of h := File text]> (files w)).
Proof. unfold reload_nginx. by destruct (nginx_accepts _ _). Qed.

Lemma calls_reload_nginx (w : world) :
  calls (reload_nginx w)
  = calls w ++ NginxTest (nginx_accepts w (files w))
      :: (if nginx_accepts w (files w) then [SystemctlReload] else []).
Proof.
  unfold reload_nginx. destruct (nginx_accepts _ _); cbn; [| done].
  by rewrite <- app_assoc.
Qed.

Lemma conf_after_generate (h text line : string) (w : world) :
  files (reload_nginx (published h text line w)) !! conf_file_of h
  = Some (File text).
Proof.
  rewrite files_reload_published.
  rewrite lookup_insert_ne by apply enabled_link_not_conf.
  apply lookup_insert_eq.
Qed.

Lemma link_after_generate (h text line : string) (w : world) :
  files (reload_nginx (published h text line w)) !! enabled_link_of h
  = Some (Link (conf_file_of h)).
Proof. rewrite files_reload_published. apply lookup_insert_eq. Qed.

Lemma other_after_generate (h text line p : string) (w : world) :
  p ≠ conf_file_of h → p ≠ enabled_link_of h → p ≠ TEMPLATE_FILE →
  files (reload_nginx (published h text line (initialized w))) !! p
  = files w !! p.
Proof.
  intros H1 H2 H3. rewrite files_reload_published.
  rewrite !lookup_insert_ne by done.
  unfold initialized. rewrite files_set_files. by rewrite lookup_insert_ne.
Qed.

Lemma file_or_freeb_ok (p : string) (w : world) :
  file_or_freeb p w = true → file_or_free p w.
Proof.
  unfold file_or_freeb, file_or_free. intros H.
  apply andb_prop in H as [H1 H2]. apply negb_true_iff in H1.
  apply bool_decide_eq_false in H1.
  split; [done |]. intros t Ht. by rewrite Ht in H2.
Qed.

Lemma host_okb_ok (w : world) : host_okb w = true → host_ok w.
Proof.
  unfold host_okb, host_ok. intros H. apply andb_prop in H as [H1 H2].
  split; [| by apply file_or_freeb_ok].
  intros a Ha. rewrite forallb_forall in H1.
  apply list_elem_of_In in Ha. specialize (H1 _ Ha).
  by apply bool_decide_eq_true in H1.
Qed.

Lemma site_okb_ok (h : string) (w : world) : site_okb h w = true → site_ok h w.
Proof.
  unfold site_okb, site_ok. intros H. apply andb_prop in H as [H1 H2].
  split; [by apply file_or_freeb_ok |].
  apply negb_true_iff in H2. by apply bool_decide_eq_false in H2.
Qed.

(** ** Lemmas on the rendered text *)

Lemma split_lines_app_nl (l rest : string) :
  has_char nl l = false →
  split_lines (l +:+ String nl rest) = l :: split_lines rest.
Proof.
  induction l as [|c l IH]; intros H.
  - rewrite append_nil_l. reflexivity.
  - rewrite append_cons. simpl in H.
    destruct (Ascii.eqb c nl) eqn:E; [done |].
    cbn [split_lines]. rewrite E. by rewrite IH.
Qed.

Lemma split_lines_unlines (ls : list string) :
  Forall (fun l => has_char nl l = false) ls →
  split_lines (unlines ls) = ls ++ [""].
Proof.
  induction 1 as [|l ls Hl _ IH]; [done |].
  cbn [unlines]. rewrite (split_lines_app_nl _ _ Hl), IH. done.
Qed.

Lemma plain_no_nl (v : string) : plain v = true → has_char nl v = false.
Proof.
  intros H. apply plain_repl_safe in H. unfold repl_safe in H.
  apply andb_prop in H as [_ H]. by apply negb_true_iff.
Qed.

Lemma rendered_lines_no_nl (ip port name ts cid : string) :
  plain ip = true → plain port = true → plain name = true →
  plain ts = true → plain cid = true →
  Forall (fun l => has_char nl l = false)
         (rendered_lines (hostname_of name) ip port name ts cid).
Proof.
  intros Hip Hport Hname Hts Hcid.
  pose proof (plain_no_nl _ (plain_hostname _ Hname)) as Hh.
  pose proof (plain_no_nl _ (plain_substring _ 0 12 Hcid)) as Hc.
  apply plain_no_nl in Hip, Hport, Hname, Hts.
  unfold rendered_lines.
  repeat (apply Forall_cons; split;
          [rewrite ?has_char_app, ?Hh, ?Hc, ?Hip, ?Hport, ?Hname, ?Hts;
           reflexivity |]).
  apply Forall_nil_2.
Qed.

(** The lines of the text that [generate] writes for plain values. *)
Lemma split_lines_rendered (ip port name ts cid : string) :
  plain ip = true → plain port = true → plain name = true →
  plain ts = true → plain cid = true →
  split_lines (rendered (hostname_of name) ip port name ts cid)
  = rendered_lines (hostname_of name) ip port name ts cid ++ [""].
Proof.
  intros. unfold rendered. by apply split_lines_unlines, rendered_lines_no_nl.
Qed.

(** [generate] for plain values: the closed form of the run. *)
Lemma main_generate_plain (cid ip port name : string) (w : world) :
  host_ok w → site_ok (hostname_of name) w →
  plain cid = true → plain ip = true → plain port = true →
  plain name = true → plain (now w) = true →
  main ["generate"; cid; ip; port; name] w
  = Some (reload_nginx
            (published (hostname_of name)
               (rendered (hostname_of name) ip port name (now w) cid)
               ("Generated: " +:+ hostname_of name +:+ " -> " +:+ ip +:+ ":" +:+ port)
               (initialized w)), 0).
Proof.
  intros Hhost Hsite Hcid Hip Hport Hname Hts.
  apply main_generate; [done | done | by apply plain_repl_safe |].
  by apply sed_template.
Qed.

(** The two stubs make every event a no-op. *)
Lemma handle_container_event_noop (action container_id : string) (w : world) :
  handle_container_event action container_id w = Some w.
Proof.
  unfold handle_container_event, get_container_info, get_hostname_from_container.
  by repeat case_bool_decide.
Qed.

Lemma watch_lines_noop (pending : string) (events : list string) (w : world) :
  watch_lines pending events w = Some w.
Proof.
  revert pending. induction events as [|line events IH]; intros pending;
    [done |].
  cbn [watch_lines]. destruct (continued line) as [part|]; [apply IH |].
  destruct (read_two (pending +:+ line)) as [action container_id].
  rewrite handle_container_event_noop. apply IH.
Qed.

Lemma watch_loop_noop (events : list string) (w : world) :
  watch_loop events w = Some w.
Proof. apply watch_lines_noop. Qed.

Lemma append_length (a b : string) :
  String.length (a +:+ b) = String.length a + String.length b.
Proof.
  induction a as [|c a IH]; [done |]. rewrite append_cons. simpl. by rewrite IH.
Qed.

Lemma append_inj_l (a b s : string) : a +:+ s = b +:+ s → a = b.
Proof.
  revert b. induction a as [|c a IH]; intros [|d b] H.
  - done.
  - apply (f_equal String.length) in H.
    rewrite append_nil_l, append_length in H. simpl in H. lia.
  - apply (f_equal String.length) in H.
    rewrite append_nil_l, append_length in H. simpl in H. lia.
  - rewrite !append_cons in H. injection H as -> H. f_equal. by apply IH.
Qed.

(** * The claims *)

Ltac by_compute := vm_compute; reflexivity.

(** ** C1: a hostname that is already enabled *)




(** ** C2: the derived hostname *)

(** C2, as stated, fails: the [generate] of two instances of [pwn-101],
    with different containers, addresses and ports, prints the same
    hostname, writes its configuration under the same hostname and
    enables the same hostname; the hostname has no owner part. *)
Lemma C2_counterexample :
  let w1 := world_after first_instance (bare_host true new_year) in
  let w2 := world_after second_instance (bare_host true new_year) in
  param 0 (tail first_instance) ≠ param 0 (tail second_instance)
  ∧ stdout w1
    = ["Generated: pwn-101.challenges.ctf.com -> 10.0.0.5:8080"; "Nginx reloaded"]
  ∧ stdout w2
    = ["Generated: pwn-101.challenges.ctf.com -> 10.0.0.9:9090"; "Nginx reloaded"]
  ∧ conf_contains "pwn-101.challenges.ctf.com"
      "server_name pwn-101.challenges.ctf.com;" w1 = true
  ∧ conf_contains "pwn-101.challenges.ctf.com"
      "server_name pwn-101.challenges.ctf.com;" w2 = true
  ∧ enabled "pwn-101.challenges.ctf.com" w1
  ∧ enabled "pwn-101.challenges.ctf.com" w2.
Proof. cbv zeta. repeat split; try by_compute. discriminate. Qed.

(** C2, amended: the hostname that [generate] derives for an instance is
    [<challenge-name>.challenges.ctf.com], made of the challenge name
    alone with a fixed domain.  On an nginx host a [generate] with plain
    arguments exits with status 0, writes the configuration file named
    after that hostname, with that hostname as its [server_name], enables
    the link of the same name, prints the hostname, and writes no other
    path but the template, whatever the container, the address and the
    port: two instances of one challenge get the same hostname and the
    same two files. *)
Theorem C2_hostname_from_challenge_name
    (cid ip port name : string) (w : world) :
  host_ok w → site_ok (name +:+ ".challenges.ctf.com") w →
  plain cid = true → plain ip = true → plain port = true →
  plain name = true → plain (now w) = true →
  ∃ w' text,
    main ["generate"; cid; ip; port; name] w = Some (w', 0)
    ∧ files w' !! conf_file_of (name +:+ ".challenges.ctf.com")
      = Some (File text)
    ∧ has_lines
        ["    server_name " +:+ (name +:+ ".challenges.ctf.com") +:+ ";"] text
    ∧ files w' !! enabled_link_of (name +:+ ".challenges.ctf.com")
      = Some (Link (conf_file_of (name +:+ ".challenges.ctf.com")))
    ∧ stdout w'
      = stdout w
          ++ [ "Generated: " +:+ (name +:+ ".challenges.ctf.com") +:+ " -> "
                 +:+ ip +:+ ":" +:+ port;
               "Nginx reloaded" ]
    ∧ (∀ p, p ≠ conf_file_of (name +:+ ".challenges.ctf.com") →
            p ≠ enabled_link_of (name +:+ ".challenges.ctf.com") →
            p ≠ TEMPLATE_FILE → files w' !! p = files w !! p).
Proof.
  intros Hhost Hsite Hcid Hip Hport Hname Hts.
  change (name +:+ ".challenges.ctf.com") with (hostname_of name) in *.
  eexists _, _. split; [by apply main_generate_plain |].
  split; [apply conf_after_generate |].
  split.
  { unfold has_lines.
    rewrite (split_lines_rendered ip port name (now w) cid) by done.
    set (L := rendered_lines (hostname_of name) ip port name (now w) cid).
    by exists (take 6 L), (drop 7 L ++ [""]). }
  split; [apply link_after_generate |].
  split.
  { unfold reload_nginx.
    destruct (nginx_accepts _ _); cbn; by rewrite <- app_assoc. }
  intros p H1 H2 H3. by apply other_after_generate.
Qed.

Lemma C2_witness :
  ∃ w' text,
    main ["generate"; "bbbbbbbbbbbb"; "10.0.0.9"; "9090"; "pwn-101"]
      occupied_host = Some (w', 0)
    ∧ files w' !! conf_file_of ("pwn-101" +:+ ".challenges.ctf.com")
      = Some (File text)
    ∧ has_lines
        ["    server_name " +:+ ("pwn-101" +:+ ".challenges.ctf.com") +:+ ";"]
        text
    ∧ files w' !! enabled_link_of ("pwn-101" +:+ ".challenges.ctf.com")
      = Some (Link (conf_file_of ("pwn-101" +:+ ".challenges.ctf.com")))
    ∧ stdout w'
      = stdout occupied_host
          ++ [ "Generated: " +:+ ("pwn-101" +:+ ".challenges.ctf.com")
                 +:+ " -> " +:+ "10.0.0.9" +:+ ":" +:+ "9090";
               "Nginx reloaded" ]
    ∧ (∀ p, p ≠ conf_file_of ("pwn-101" +:+ ".challenges.ctf.com") →
            p ≠ enabled_link_of ("pwn-101" +:+ ".challenges.ctf.com") →
            p ≠ TEMPLATE_FILE → files w' !! p = files occupied_host !! p).
Proof.
  apply (C2_hostname_from_challenge_name "bbbbbbbbbbbb" "10.0.0.9" "9090"
           "pwn-101" occupied_host);
    try by_compute; [apply host_okb_ok | apply site_okb_ok]; by_compute.
Defined.

(** ** C3: rendering twice *)

(** C3, as stated, fails: two [generate] calls with identical arguments,
    one second apart, write different texts, because the text carries the
    time of the call. *)
Lemma C3_counterexample :
  conf_text pwn_101 (world_after first_instance (bare_host true new_year))
  ≠ conf_text pwn_101
      (world_after first_instance (bare_host true one_second_later)).
Proof. intros H. vm_compute in H. discriminate H. Qed.

(** C3, amended: two [generate] calls with identical plain arguments made
    at the same time of the clock write byte-identical configuration text,
    whatever else differs between the two hosts. *)
Theorem C3_same_arguments_same_time_same_text
    (cid ip port name : string) (w1 w2 : world) :
  host_ok w1 → host_ok w2 →
  site_ok (hostname_of name) w1 → site_ok (hostname_of name) w2 →
  plain cid = true → plain ip = true → plain port = true →
  plain name = true → plain (now w1) = true →
  now w1 = now w2 →
  ∃ w1' w2' text,
    main ["generate"; cid; ip; port; name] w1 = Some (w1', 0)
    ∧ main ["generate"; cid; ip; port; name] w2 = Some (w2', 0)
    ∧ conf_text (hostname_of name) w1' = Some text
    ∧ conf_text (hostname_of name) w2' = Some text.
Proof.
  intros Hh1 Hh2 Hs1 Hs2 Hcid Hip Hport Hname Hts Hnow.
  eexists _, _, (rendered (hostname_of name) ip port name (now w1) cid).
  split; [by apply main_generate_plain |].
  split; [apply main_generate_plain; try done; by rewrite <- Hnow |].
  unfold conf_text. rewrite !conf_after_generate. by rewrite Hnow.
Qed.

Lemma C3_witness :
  ∃ w1' w2' text,
    main second_instance (bare_host true new_year) = Some (w1', 0)
    ∧ main second_instance occupied_host = Some (w2', 0)
    ∧ conf_text pwn_101 w1' = Some text
    ∧ conf_text pwn_101 w2' = Some text.
Proof.
  apply (C3_same_arguments_same_time_same_text
           "bbbbbbbbbbbb" "10.0.0.9" "9090" "pwn-101"
           (bare_host true new_year) occupied_host);
    try by_compute; try (apply host_okb_ok; by_compute);
    apply site_okb_ok; by_compute.
Defined.

(** ** C4: the reload *)




(** ** C5: the sync command *)

(** C5, as stated, fails: on a host with a stale route and a running
    container without route, [sync] exits with status 0 and leaves the file
    system as the initialisation left it: the stale route is still
    enabled, nothing was published for the running container, and the
    proxy was not called. *)
Lemma C5_counterexample :
  let w' := world_after ["sync"] stale_host in
  docker_ps stale_host = ["abc123"]
  ∧ status_after ["sync"] stale_host = Some 0
  ∧ enabled old_site w'
  ∧ files w' = <[TEMPLATE_FILE := File challenge_template]> (files stale_host)
  ∧ calls w' = []
  ∧ stdout w' = ["Syncing all challenge containers..."; "Sync complete"].
Proof. cbv zeta. repeat split; by_compute. Qed.

(** C5, amended: [sync] retracts nothing and never fails: on an nginx host
    every file and link that was there before the run, the template
    apart, is there unchanged after it, and the exit status is 0. *)
Theorem C5_sync_retracts_nothing (w : world) :
  host_ok w →
  ∃ w', main ["sync"] w = Some (w', 0)
        ∧ ∀ p n, p ≠ TEMPLATE_FILE → files w !! p = Some n →
                 files w' !! p = Some n.
Proof.
  intros Hhost. eexists. split.
  - unfold main. rewrite (initialize_ok _ Hhost). reflexivity.
  - intros p n Hp Hn. cbn. by rewrite lookup_insert_ne.
Qed.

Lemma C5_witness :
  ∃ w', main ["sync"] stale_host = Some (w', 0)
        ∧ ∀ p n, p ≠ TEMPLATE_FILE → files stale_host !! p = Some n →
                 files w' !! p = Some n.
Proof. apply (C5_sync_retracts_nothing stale_host), host_okb_ok. by_compute. Defined.

(** ** C6: a start event *)

(** C6: the watcher does not do what the claim says.  After it has
    processed the start event of [abc123], there is no configuration file
    for [pwn-101.challenges.ctf.com], no enabling link, and the proxy was
    not called: [get_container_info] is a stub that answers nothing, and
    the guard on its answer skips [generate_for_container] and
    [reload_nginx]. *)
Theorem C6_start_event_publishes_nothing :
  let w' := world_after ["watch"] started_host in
  docker_events started_host = ["start abc123"]
  ∧ read_two "start abc123" = ("start", "abc123")
  ∧ get_container_info "abc123" = ""
  ∧ handle_container_event "start" "abc123" (initialized started_host)
    = Some (initialized started_host)
  ∧ status_after ["watch"] started_host = Some 0
  ∧ files w' !! conf_file_of pwn_101 = None
  ∧ files w' !! enabled_link_of pwn_101 = None
  ∧ calls w' = [].
Proof.
  cbv zeta. repeat split; by_compute.
Qed.

(** The sibling path: the [generate] command, given the descriptor of the
    scenario by hand, leaves what the claim expects of the watcher: the
    configuration file with the [proxy_pass] line, the enabling link, and
    one call of the reload. *)
Lemma scenario_through_generate (w : world) :
  host_ok w → site_ok pwn_101 w → plain (now w) = true →
  ∃ w' text,
    main ["generate"; "abc123"; "10.0.0.5"; "8080"; "pwn-101"] w = Some (w', 0)
    ∧ files w' !! conf_file_of pwn_101 = Some (File text)
    ∧ has_lines ["        proxy_pass http://10.0.0.5:8080/;"] text
    ∧ enabled pwn_101 w'
    ∧ calls w'
      = calls w ++ NginxTest (nginx_accepts w (files w'))
          :: (if nginx_accepts w (files w') then [SystemctlReload] else []).
Proof.
  intros Hhost Hsite Hts.
  eexists _, _. split; [by apply main_generate_plain |].
  split; [apply conf_after_generate |].
  split; [| split; [apply link_after_generate |]].
  - set (L := rendered_lines pwn_101 "10.0.0.5" "8080" "pwn-101" (now w) "abc123").
    exists (take 10 L), (drop 11 L ++ [""]).
    by rewrite (split_lines_rendered "10.0.0.5" "8080" "pwn-101" (now w) "abc123").
  - rewrite calls_reload_nginx, files_reload_published. done.
Qed.

(** On the host of the scenario the proxy is reloaded exactly once. *)
Lemma scenario_through_generate_once :
  let w' := world_after scenario started_host in
  calls w' = [NginxTest true; SystemctlReload]
  ∧ proxies_to pwn_101 "10.0.0.5:8080" w' = true
  ∧ enabled pwn_101 w'.
Proof. cbv zeta. repeat split; by_compute. Qed.

(** ** C7: the rendered configuration *)

(** C7, as stated, fails: it does not hold for every [generate].  With
    the address [10.0.0.5&] the run exits with status 0 and the
    configuration it has written does not pass the requests to
    [http://10.0.0.5&:8080/]: its [proxy_pass] line has the placeholder
    in it. *)
Lemma C7_counterexample :
  let w' := world_after address_with_amp (bare_host true new_year) in
  status_after address_with_amp (bare_host true new_year) = Some 0
  ∧ proxies_to pwn_101 "10.0.0.5&:8080" w' = false
  ∧ conf_contains pwn_101 "proxy_pass http://10.0.0.5{container_ip}:8080/;" w'
    = true.
Proof. cbv zeta. repeat split; by_compute. Qed.

(** C7, amended: on an nginx host, a [generate] whose arguments are plain
    (none of the characters slash, backslash, newline, [&] and opening
    brace, and so is the time of the clock) and whose container id is
    ASCII exits with
    status 0 and writes a configuration in which: the block [location /]
    passes every path to [http://{container_ip}:{container_port}/] and
    forwards the headers [Upgrade] and [Connection]; the block
    [location /health] switches the access log off and returns 200 with the
    text [healthy]; the access and error logs go to files named after the
    hostname in the log directory; and the container line carries the first
    twelve characters of the container id. *)
Theorem C7_rendered_configuration (cid ip port name : string) (w : world) :
  host_ok w → site_ok (hostname_of name) w →
  plain cid = true → ascii_only cid = true →
  plain ip = true → plain port = true →
  plain name = true → plain (now w) = true →
  ∃ w' text,
    main ["generate"; cid; ip; port; name] w = Some (w', 0)
    ∧ files w' !! conf_file_of (hostname_of name) = Some (File text)
    ∧ has_lines
        [ "    location / {";
          "        proxy_pass http://" +:+ ip +:+ ":" +:+ port +:+ "/;";
          "        proxy_http_version 1.1;";
          "        proxy_set_header Upgrade $http_upgrade;";
          "        proxy_set_header Connection "
            +:+ String dquote ("upgrade" +:+ String dquote ";") ] text
    ∧ has_lines
        [ "    location /health {";
          "        access_log off;";
          "        return 200 " +:+ String dquote ("healthy\n" +:+ String dquote ";");
          "        add_header Content-Type text/plain;";
          "    }" ] text
    ∧ has_lines
        [ "    access_log " +:+ LOG_DIR +:+ "/" +:+ hostname_of name +:+ "_access.log;";
          "    error_log " +:+ LOG_DIR +:+ "/" +:+ hostname_of name +:+ "_error.log;" ]
        text
    ∧ has_lines [ "# Container: " +:+ String.substring 0 12 cid ] text.
Proof.
  intros Hhost Hsite Hcid Hascii Hip Hport Hname Hts.
  eexists _, _. split; [by apply main_generate_plain |].
  split; [apply conf_after_generate |].
  set (L := rendered_lines (hostname_of name) ip port name (now w) cid).
  unfold has_lines. rewrite (split_lines_rendered ip port name (now w) cid) by done.
  fold L. repeat split.
  - by exists (take 9 L), (drop 14 L ++ [""]).
  - by exists (take 30 L), (drop 35 L ++ [""]).
  - by exists (take 37 L), (drop 39 L ++ [""]).
  - by exists (take 2 L), (drop 3 L ++ [""]).
Qed.

Lemma C7_witness :
  ∃ w' text,
    main ["generate"; "0123456789abcdef0123"; "10.0.0.5"; "8080"; "pwn-101"]
         (bare_host true new_year) = Some (w', 0)
    ∧ files w' !! conf_file_of pwn_101 = Some (File text)
    ∧ has_lines
        [ "    location / {";
          "        proxy_pass http://10.0.0.5:8080/;";
          "        proxy_http_version 1.1;";
          "        proxy_set_header Upgrade $http_upgrade;";
          "        proxy_set_header Connection "
            +:+ String dquote ("upgrade" +:+ String dquote ";") ] text
    ∧ has_lines
        [ "    location /health {";
          "        access_log off;";
          "        return 200 " +:+ String dquote ("healthy\n" +:+ String dquote ";");
          "        add_header Content-Type text/plain;";
          "    }" ] text
    ∧ has_lines
        [ "    access_log /var/log/nginx/challenges/pwn-101.challenges.ctf.com_access.log;";
          "    error_log /var/log/nginx/challenges/pwn-101.challenges.ctf.com_error.log;" ]
        text
    ∧ has_lines [ "# Container: 0123456789ab" ] text.
Proof.
  apply (C7_rendered_configuration
           "0123456789abcdef0123" "10.0.0.5" "8080" "pwn-101"
           (bare_host true new_year));
    try by_compute; [apply host_okb_ok | apply site_okb_ok]; by_compute.
Defined.

(** ** C8: the frames of the terminal session *)

Lemma sent_ws_send_string (s : string) (c : Terminal.client) :
  Terminal.sent (Terminal.ws_send (Terminal.SString s) c) = Terminal.sent c
  ∨ Terminal.sent (Terminal.ws_send (Terminal.SString s) c)
    = Terminal.sent c ++ [Terminal.TextFrame s].
Proof.
  unfold Terminal.ws_send. destruct (Terminal.readyState c); auto.
Qed.

Lemma text_frames_snoc (s : string) (l : list Terminal.frame) :
  Forall (fun f => Terminal.is_text f = true) l →
  Forall (fun f => Terminal.is_text f = true) (l ++ [Terminal.TextFrame s]).
Proof. intros H. apply Forall_app. split; [done |]. by apply Forall_singleton. Qed.

Lemma text_frames_send (s : string) (c : Terminal.client) :
  Forall (fun f => Terminal.is_text f = true) (Terminal.sent c) →
  Forall (fun f => Terminal.is_text f = true)
         (Terminal.sent (Terminal.ws_send (Terminal.SString s) c)).
Proof.
  intros H. destruct (sent_ws_send_string s c) as [-> | ->];
    [done | by apply text_frames_snoc].
Qed.

(** Whatever happens, the client sends text frames only. *)
Lemma text_frames_handle
    (JSON_parse : string → option Terminal.json) (e : Terminal.event)
    (c : Terminal.client) :
  Forall (fun f => Terminal.is_text f = true) (Terminal.sent c) →
  Forall (fun f => Terminal.is_text f = true)
         (Terminal.sent (Terminal.handle JSON_parse e c)).
Proof.
  intros H. destruct e as [| data | | | data | fitted]; cbn [Terminal.handle].
  - by apply text_frames_send.
  - replace (Terminal.sent (Terminal.onmessage JSON_parse data c))
      with (Terminal.sent c); [done |].
    unfold Terminal.onmessage. destruct data as [s | bytes]; [| done].
    destruct (JSON_parse s) as [[| | | | |fields]|]; try done.
    destruct (Terminal.field "type" fields) as [[| | |t| |]|]; try done.
    by destruct (String.eqb t "error").
  - done.
  - done.
  - unfold Terminal.onData. destruct (Terminal.readyState c) eqn:E; try done.
    by apply text_frames_send.
  - unfold Terminal.handleResize.
    destruct (Terminal.readyState (Terminal.set_size fitted c)); try done.
    by apply text_frames_send.
Qed.

Lemma text_frames_run
    (JSON_parse : string → option Terminal.json) (events : list Terminal.event)
    (c : Terminal.client) :
  Forall (fun f => Terminal.is_text f = true) (Terminal.sent c) →
  Forall (fun f => Terminal.is_text f = true)
         (Terminal.sent (Terminal.run JSON_parse events c)).
Proof.
  revert c. induction events as [|e events IH]; intros c H; [done |].
  apply IH. by apply text_frames_handle.
Qed.

(** C8, as stated, fails: what is typed in the terminal of an open session
    leaves as a text frame, not as a binary frame. *)
Lemma C8_counterexample :
  Terminal.sent (Terminal.onData "ls" Terminal.open_client)
  = [Terminal.TextFrame "ls"]
  ∧ ¬ ∃ bytes, Terminal.sent (Terminal.onData "ls" Terminal.open_client)
               = [Terminal.BinaryFrame bytes].
Proof. split; [reflexivity |]. intros [bytes H]. discriminate H. Qed.

(** C8, amended: on an open session every frame from the client is a text
    frame: the keystrokes go out as a text frame that carries the typed
    string as it is, and a resize, at the opening and at every resize of
    the window that [handleResize] handles, as a text frame with the JSON
    [{"type":"resize","cols":..,"rows":..}].  From the server, the client
    takes a binary frame as container output, which it writes to the
    terminal, and a text frame as a JSON control message, showing an
    object of type [error] as an error line with its message and sending
    nothing back.  Whatever the events of the session, no binary frame
    ever leaves the client. *)
Theorem C8_client_frames
    (JSON_parse : string → option Terminal.json) (c : Terminal.client)
    (keys bytes s message : string) (fitted : nat * nat) :
  Terminal.readyState c = Terminal.OPEN →
  JSON_parse s
  = Some (Terminal.JObj [("type", Terminal.JStr "error");
                         ("message", Terminal.JStr message)]) →
  Terminal.sent (Terminal.onData keys c)
  = Terminal.sent c ++ [Terminal.TextFrame keys]
  ∧ Terminal.sent (Terminal.onopen c)
    = Terminal.sent c
        ++ [Terminal.TextFrame
              (Terminal.resize_message (Terminal.cols c) (Terminal.rows c))]
  ∧ Terminal.sent (Terminal.handleResize fitted c)
    = Terminal.sent c
        ++ [Terminal.TextFrame (Terminal.resize_message (fst fitted) (snd fitted))]
  ∧ Terminal.screen (Terminal.onmessage JSON_parse (Terminal.Blob bytes) c)
    = Terminal.screen c ++ [Terminal.Write bytes]
  ∧ Terminal.screen (Terminal.onmessage JSON_parse (Terminal.Text s) c)
    = Terminal.screen c
        ++ [Terminal.Writeln (Terminal.sgr "31" +:+ "Error: " +:+ message
                                +:+ Terminal.sgr "0")]
  ∧ Terminal.sent (Terminal.onmessage JSON_parse (Terminal.Text s) c)
    = Terminal.sent c
  ∧ (∀ events,
       Forall (fun f => Terminal.is_text f = true) (Terminal.sent c) →
       Forall (fun f => Terminal.is_text f = true)
              (Terminal.sent (Terminal.run JSON_parse events c))).
Proof.
  intros Hopen Hparse. split_and!.
  - unfold Terminal.onData, Terminal.ws_send. by rewrite Hopen.
  - unfold Terminal.onopen, Terminal.send_resize, Terminal.ws_send. cbn.
    by rewrite Hopen.
  - unfold Terminal.handleResize, Terminal.send_resize, Terminal.ws_send. cbn.
    by rewrite Hopen.
  - done.
  - unfold Terminal.onmessage. by rewrite Hparse.
  - unfold Terminal.onmessage. by rewrite Hparse.
  - intros events. apply text_frames_run.
Qed.

Lemma C8_witness :
  Terminal.sent (Terminal.onData "ls" Terminal.open_client)
  = [Terminal.TextFrame "ls"]
  ∧ Terminal.sent (Terminal.onopen Terminal.open_client)
    = [Terminal.TextFrame (Terminal.resize_message 80 24)]
  ∧ Terminal.sent (Terminal.handleResize (120, 40) Terminal.open_client)
    = [Terminal.TextFrame (Terminal.resize_message 120 40)]
  ∧ Terminal.screen
      (Terminal.onmessage Terminal.one_message (Terminal.Blob "total 0")
         Terminal.open_client)
    = [Terminal.Write "total 0"]
  ∧ Terminal.screen
      (Terminal.onmessage Terminal.one_message
         (Terminal.Text
            ("{" +:+ Terminal.quoted "type" +:+ ":" +:+ Terminal.quoted "error"
                 +:+ "," +:+ Terminal.quoted "message" +:+ ":"
                 +:+ Terminal.quoted "no such container" +:+ "}"))
         Terminal.open_client)
    = [Terminal.Writeln (Terminal.sgr "31" +:+ "Error: " +:+ "no such container"
                           +:+ Terminal.sgr "0")]
  ∧ Terminal.sent
      (Terminal.onmessage Terminal.one_message
         (Terminal.Text
            ("{" +:+ Terminal.quoted "type" +:+ ":" +:+ Terminal.quoted "error"
                 +:+ "," +:+ Terminal.quoted "message" +:+ ":"
                 +:+ Terminal.quoted "no such container" +:+ "}"))
         Terminal.open_client)
    = []
  ∧ (∀ events,
       Forall (fun f => Terminal.is_text f = true)
              (Terminal.sent Terminal.open_client) →
       Forall (fun f => Terminal.is_text f = true)
              (Terminal.sent
                 (Terminal.run Terminal.one_message events Terminal.open_client))).
Proof.
  apply (C8_client_frames Terminal.one_message Terminal.open_client
           "ls" "total 0" _ "no such container" (120, 40));
    reflexivity.
Defined.

(** The JSON of a resize, as the server reads it. *)
Lemma resize_message_80_24 :
  Terminal.resize_message 80 24
  = "{" +:+ String dquote ("type" +:+ String dquote (":" +:+ String dquote
      ("resize" +:+ String dquote ("," +:+ String dquote ("cols" +:+ String dquote
      (":80," +:+ String dquote ("rows" +:+ String dquote ":24}"))))))).
Proof. by_compute. Qed.

(** ** C9: template-breaking characters *)

(** C9, as stated, fails: for the challenge name [r&d], whose hostname has
    the character [&] that sed expands, [generate] is not rejected: it
    exits with status 0, has produced a configuration for the hostname
    and has enabled the hostname. *)
Lemma C9_counterexample :
  let w' := world_after r_and_d (bare_host true new_year) in
  has_char "&" (hostname_of "r&d") = true
  ∧ status_after r_and_d (bare_host true new_year) = Some 0
  ∧ conf_contains (hostname_of "r&d") "listen 80;" w' = true
  ∧ enabled (hostname_of "r&d") w'.
Proof. cbv zeta. repeat split; by_compute. Qed.

(** C9, amended: the renderer validates nothing.  For every challenge
    name without slash, backslash, newline or opening brace, the names
    with a semicolon, a blank or [&] included, a [generate] with otherwise
    plain arguments on an nginx host is not rejected: it exits with
    status 0, writes a configuration file for the hostname and enables
    the hostname; and a name without [&] goes into the configuration as
    it is, the [server_name] line carrying the raw hostname. *)
Theorem C9_generate_validates_nothing (cid ip port name : string) (w : world) :
  host_ok w → site_ok (hostname_of name) w →
  plain cid = true → plain ip = true → plain port = true →
  brace_free name = true → plain (now w) = true →
  ∃ w' text,
    main ["generate"; cid; ip; port; name] w = Some (w', 0)
    ∧ files w' !! conf_file_of (hostname_of name) = Some (File text)
    ∧ enabled (hostname_of name) w'
    ∧ (has_char "&" name = false →
       has_lines ["    server_name " +:+ hostname_of name +:+ ";"] text).
Proof.
  intros Hhost Hsite Hcid Hip Hport Hname Hts.
  eexists _, _. split.
  - apply main_generate; [done | done | by apply brace_free_repl_safe |].
    by apply sed_template_amp.
  - split; [apply conf_after_generate |].
    split; [apply link_after_generate |].
    intros Hamp.
    assert (plain name = true) as Hplain.
    { unfold plain. rewrite (brace_free_repl_safe _ Hname), Hamp.
      by rewrite (brace_free_no_brace _ Hname). }
    rewrite (amp_plain _ name Hplain).
    rewrite (amp_plain _ (hostname_of name) (plain_hostname _ Hplain)).
    unfold has_lines.
    rewrite (split_lines_rendered ip port name (now w) cid) by done.
    set (L := rendered_lines (hostname_of name) ip port name (now w) cid).
    by exists (take 6 L), (drop 7 L ++ [""]).
Qed.

Lemma C9_witness :
  ∃ w' text,
    main name_with_semicolon (bare_host true new_year) = Some (w', 0)
    ∧ files w' !! conf_file_of (hostname_of "x;y") = Some (File text)
    ∧ enabled (hostname_of "x;y") w'
    ∧ (has_char "&" "x;y" = false →
       has_lines ["    server_name " +:+ hostname_of "x;y" +:+ ";"] text).
Proof.
  apply (C9_generate_validates_nothing "abc123" "10.0.0.5" "8080" "x;y"
           (bare_host true new_year));
    try by_compute; [apply host_okb_ok | apply site_okb_ok]; by_compute.
Defined.

(** ** C10: the initialisation *)

(** C10: every run of the script, whatever its arguments, first makes the
    directories of the sites, of the logs and of the template and
    overwrites the template file, and only then dispatches on the command:
    on an nginx host the command starts from a world where the four
    directories exist and the template file holds the canonical text. *)
Theorem C10_initialisation_before_dispatch (args : list string) (w : world) :
  host_ok w →
  let w1 := create_template (ensure_directories w) in
  main args w = dispatch args w1
  ∧ NGINX_SITES_AVAILABLE ∈ dirs w1
  ∧ NGINX_SITES_ENABLED ∈ dirs w1
  ∧ LOG_DIR ∈ dirs w1
  ∧ dirname TEMPLATE_FILE ∈ dirs w1
  ∧ read_file TEMPLATE_FILE w1 = Some challenge_template.
Proof.
  intros Hhost. cbv zeta. split; [done |].
  rewrite (initialize_ok _ Hhost).
  assert (∀ a, a ∈ layout_dirs → a ∈ dirs (initialized w)) as Hin.
  { intros a Ha.
    change (dirs (initialized w)) with (list_to_set layout_dirs ∪ dirs w).
    apply elem_of_union_l. by apply elem_of_list_to_set. }
  split_and!; try (apply Hin; unfold layout_dirs; rewrite !elem_of_cons; tauto).
  apply read_file_ok; [apply lookup_insert_eq |].
  apply is_dir_outside; [done | apply template_not_layout |].
  by destruct Hhost as [_ [? _]].
Qed.

Lemma C10_witness :
  let w1 := create_template (ensure_directories edited_host) in
  main ["sync"] edited_host = dispatch ["sync"] w1
  ∧ NGINX_SITES_AVAILABLE ∈ dirs w1
  ∧ NGINX_SITES_ENABLED ∈ dirs w1
  ∧ LOG_DIR ∈ dirs w1
  ∧ dirname TEMPLATE_FILE ∈ dirs w1
  ∧ read_file TEMPLATE_FILE w1 = Some challenge_template.
Proof.
  apply (C10_initialisation_before_dispatch ["sync"] edited_host), host_okb_ok.
  by_compute.
Defined.

(** * Further properties of the script *)

(** ** The layout is kept by every operation *)

Lemma host_ok_layout_ready (w : world) : host_ok w → layout_ready (initialized w).
Proof.
  intros [Hfree [Hd Hl]]. split.
  - intros a Ha. split.
    + change (dirs (initialized w)) with (list_to_set layout_dirs ∪ dirs w).
      apply elem_of_union_l. by apply elem_of_list_to_set.
    + unfold initialized. rewrite files_set_files, lookup_insert_ne; [by apply Hfree |].
      intros <-. by apply template_not_layout.
  - split.
    + change (dirs (initialized w)) with (list_to_set layout_dirs ∪ dirs w).
      rewrite elem_of_union, elem_of_list_to_set.
      intros [H | H]; [by apply template_not_layout | done].
    + intros t. unfold initialized. by rewrite files_set_files, lookup_insert_eq.
Qed.

Lemma layout_ready_host_ok (w : world) : layout_ready w → host_ok w.
Proof. intros [Hl Ht]. split; [| done]. intros a Ha. by apply Hl. Qed.

Lemma is_dir_elem (p : string) (w : world) : p ∈ dirs w → is_dir p w = true.
Proof.
  intros H. unfold is_dir. rewrite bool_decide_eq_true_2 by done.
  apply orb_true_r.
Qed.

(** Putting a node at a path that is not a directory and not the template,
    or a regular file at any path that is not a directory, keeps the
    layout. *)
Lemma layout_ready_insert (q : string) (n : node) (w : world) :
  is_dir q w = false →
  (q = TEMPLATE_FILE → ∃ text, n = File text) →
  layout_ready w →
  layout_ready (set_files (<[q := n]> (files w)) w).
Proof.
  intros Hq Hn [Hl [Htd Htl]]. split; [| split].
  - intros a Ha. destruct (Hl a Ha) as [Hin Hnone]. split; [done |].
    rewrite files_set_files, lookup_insert_ne; [done |].
    intros ->. by rewrite (is_dir_elem _ _ Hin) in Hq.
  - done.
  - intros t. rewrite files_set_files.
    destruct (decide (q = TEMPLATE_FILE)) as [-> | Hne].
    + rewrite lookup_insert_eq. destruct (Hn eq_refl) as [text ->]. done.
    + rewrite lookup_insert_ne by done. apply Htl.
Qed.

Lemma layout_ready_write_file (p text : string) (w : world) :
  layout_ready w → layout_ready (write_file p text w).
Proof.
  intros H. unfold write_file.
  destruct (resolve max_links (files w) p) as [q|]; [| done].
  destruct (is_dir q w) eqn:Hq; [done |].
  destruct (is_dir (dirname q) w); [| done].
  apply layout_ready_insert; eauto.
Qed.

Lemma layout_ready_rm_f (p : string) (w : world) :
  layout_ready w → layout_ready (rm_f p w).
Proof.
  intros [Hl [Htd Htl]]. unfold rm_f. destruct (is_dir p w); [done |].
  split; [| split].
  - intros a Ha. destruct (Hl a Ha) as [Hin Hnone]. split; [done |].
    rewrite files_set_files, lookup_delete. by case_decide.
  - done.
  - intros t. rewrite files_set_files, lookup_delete. case_decide; [done | apply Htl].
Qed.

Lemma starts_with_app_l (p a b : string) :
  starts_with p a = true → starts_with p (a +:+ b) = true.
Proof.
  revert a. induction p as [|c p IH]; intros [|d a] H; try done.
  rewrite append_cons. simpl in *. destruct (Ascii.eqb c d); [by apply IH | done].
Qed.

Lemma layout_ready_ln_sf (target link : string) (w : world) :
  starts_with "/etc/nginx/sites-enabled/" link = true →
  layout_ready w → layout_ready (ln_sf target link w).
Proof.
  intros Hp H. unfold ln_sf.
  set (dest := if is_dir link w then link +:+ "/" +:+ basename target else link).
  assert (starts_with "/etc/nginx/sites-enabled/" dest = true) as Hd.
  { subst dest. destruct (is_dir link w); [by apply starts_with_app_l | done]. }
  destruct (is_dir dest w) eqn:Hdir; [done |].
  destruct (is_dir (dirname dest) w); [| done].
  apply layout_ready_insert; [done | | done].
  intros ->. done.
Qed.

Lemma layout_ready_echo (line : string) (w : world) :
  layout_ready w → layout_ready (echo line w).
Proof. done. Qed.

Lemma layout_ready_reload_nginx (w : world) :
  layout_ready w → layout_ready (reload_nginx w).
Proof. unfold reload_nginx. by destruct (nginx_accepts w (files w)). Qed.

Lemma layout_ready_render_to (conf : string) (chunks : list string) (w w' : world) :
  layout_ready w → render_to conf chunks w = Some w' → layout_ready w'.
Proof.
  intros H. unfold render_to. destruct (can_write conf w); [| by intros [= <-]].
  destruct (read_file TEMPLATE_FILE (write_file conf "" w)) as [template|].
  - destruct (sed chunks template) as [text|]; [| done]. intros [= <-].
    by do 2 apply layout_ready_write_file.
  - destruct (mapM parse_s chunks); [| done]. intros [= <-].
    by apply layout_ready_write_file.
Qed.

Lemma layout_ready_generate (args : list string) (w w' : world) :
  layout_ready w → generate_for_container args w = Some w' → layout_ready w'.
Proof.
  intros H. unfold generate_for_container.
  destruct (render_to _ _ w) as [w1|] eqn:E; [| done]. intros [= <-].
  apply layout_ready_echo, layout_ready_ln_sf.
  - apply enabled_link_prefix.
  - by apply (layout_ready_render_to _ _ _ _ H E).
Qed.

Lemma layout_ready_remove (hostname : string) (w w' : world) :
  layout_ready w → remove_for_hostname hostname w = Some w' → layout_ready w'.
Proof.
  intros H. unfold remove_for_hostname.
  destruct (has_char "/" hostname); [done |]. intros [= <-].
  by apply layout_ready_echo, layout_ready_rm_f, layout_ready_rm_f.
Qed.

Lemma layout_ready_usage (w : world) : layout_ready w → layout_ready (usage w).
Proof. done. Qed.

Lemma layout_ready_dispatch (args : list string) (w w' : world) (status : nat) :
  layout_ready w → dispatch args w = Some (w', status) → layout_ready w'.
Proof.
  intros H. unfold dispatch.
  set (command := match args with
                  | c :: _ => if String.eqb c "" then "help" else c
                  | [] => "help"
                  end).
  destruct (String.eqb command "generate").
  { destruct (generate_for_container _ w) as [w1|] eqn:E; [| done].
    intros [= <- _]. apply layout_ready_reload_nginx.
    by apply (layout_ready_generate _ _ _ H E). }
  destruct (String.eqb command "remove").
  { destruct (remove_for_hostname _ w) as [w1|] eqn:E; [| done].
    intros [= <- _]. apply layout_ready_reload_nginx.
    by apply (layout_ready_remove _ _ _ H E). }
  destruct (String.eqb command "watch").
  { unfold watch_docker_events. rewrite watch_loop_noop. by intros [= <- _]. }
  destruct (String.eqb command "sync"); [by intros [= <- _] |].
  destruct (String.eqb command "init").
  { intros [= <- _]. by apply layout_ready_echo, layout_ready_write_file. }
  by intros [= <- _].
Qed.

(** ** The commands in closed form *)

Lemma rm_f_ok (p : string) (w : world) :
  is_dir p w = false → rm_f p w = set_files (delete p (files w)) w.
Proof. intros H. unfold rm_f. by rewrite H. Qed.

Lemma remove_ok (h : string) (w : world) :
  has_char "/" h = false →
  conf_file_of h ∉ dirs w → enabled_link_of h ∉ dirs w →
  remove_for_hostname h (initialized w) = Some (retracted h (initialized w)).
Proof.
  intros Hs Hc Hl. unfold remove_for_hostname, retracted. rewrite Hs.
  rewrite (rm_f_ok (conf_file_of h))
    by (apply is_dir_outside; [done | apply conf_file_not_layout | done]).
  rewrite rm_f_ok.
  - by rewrite files_set_files, set_files_set_files.
  - rewrite is_dir_set_files.
    apply is_dir_outside; [done | apply enabled_link_not_layout | done].
Qed.

Lemma main_remove (h : string) (rest : list string) (w : world) :
  host_ok w → has_char "/" h = false →
  conf_file_of h ∉ dirs w → enabled_link_of h ∉ dirs w →
  main ("remove" :: h :: rest) w
  = Some (reload_nginx (retracted h (initialized w)), 0).
Proof.
  intros Hhost Hs Hc Hl. unfold main. rewrite (initialize_ok _ Hhost).
  change (dispatch ("remove" :: h :: rest) (initialized w))
    with (w1 ← remove_for_hostname h (initialized w); Some (reload_nginx w1, 0)).
  by rewrite remove_ok.
Qed.

Lemma files_reload_nginx (w : world) : files (reload_nginx w) = files w.
Proof. unfold reload_nginx. by destruct (nginx_accepts w (files w)). Qed.

Lemma dirs_reload_nginx (w : world) : dirs (reload_nginx w) = dirs w.
Proof. unfold reload_nginx. by destruct (nginx_accepts w (files w)). Qed.

Lemma stdout_reload_nginx (w : world) :
  stdout (reload_nginx w) = stdout w ++ ["Nginx reloaded"].
Proof. unfold reload_nginx. by destruct (nginx_accepts w (files w)). Qed.

Lemma now_reload_nginx (w : world) : now (reload_nginx w) = now w.
Proof. unfold reload_nginx. by destruct (nginx_accepts w (files w)). Qed.

Lemma nginx_accepts_reload_nginx (w : world) :
  nginx_accepts (reload_nginx w) = nginx_accepts w.
Proof. unfold reload_nginx. by destruct (nginx_accepts w (files w)). Qed.

(** ** The runs keep the host usable *)

Lemma host_ok_main (args : list string) (w w' : world) (status : nat) :
  host_ok w →
  main args w = Some (w', status) →
  host_ok w' ∧ ∀ a, a ∈ layout_dirs → a ∈ dirs w'.
Proof.
  intros Hhost Hrun. unfold main in Hrun. rewrite (initialize_ok _ Hhost) in Hrun.
  pose proof (layout_ready_dispatch _ _ _ _ (host_ok_layout_ready _ Hhost) Hrun)
    as Hready.
  split; [by apply layout_ready_host_ok |].
  intros a Ha. by apply Hready.
Qed.

(** X1. Every run of the script that the model covers, whatever the command and
    its arguments, leaves an nginx host an nginx host, with all the
    directories of the layout in place: the next run finds what it needs. *)
Theorem run_keeps_host (args : list string) (w w' : world) (status : nat) :
  host_ok w →
  main args w = Some (w', status) →
  host_ok w' ∧ ∀ a, a ∈ layout_dirs → a ∈ dirs w'.
Proof. apply host_ok_main. Qed.

Lemma run_keeps_host_witness :
  host_ok (world_after second_instance occupied_host)
  ∧ ∀ a, a ∈ layout_dirs → a ∈ dirs (world_after second_instance occupied_host).
Proof.
  apply (run_keeps_host second_instance occupied_host _ 0).
  - apply host_okb_ok. vm_compute. reflexivity.
  - vm_compute. reflexivity.
Defined.

(** ** The remove command *)

(** X2. [remove] never fails on a hostname: for every hostname without slash,
    published or not, it exits with status 0, leaves neither the
    configuration file nor the link of the hostname, touches no other file
    but the template, prints its two messages and calls the reload once. *)
Theorem remove_retracts (h : string) (rest : list string) (w : world) :
  host_ok w → has_char "/" h = false →
  conf_file_of h ∉ dirs w → enabled_link_of h ∉ dirs w →
  ∃ w', main ("remove" :: h :: rest) w = Some (w', 0)
        ∧ files w' !! conf_file_of h = None
        ∧ files w' !! enabled_link_of h = None
        ∧ (∀ p, p ≠ conf_file_of h → p ≠ enabled_link_of h →
                p ≠ TEMPLATE_FILE → files w' !! p = files w !! p)
        ∧ stdout w' = stdout w ++ ["Removed: " +:+ h; "Nginx reloaded"]
        ∧ calls w'
          = calls w ++ NginxTest (nginx_accepts w (files w'))
              :: (if nginx_accepts w (files w') then [SystemctlReload] else []).
Proof.
  intros Hhost Hs Hc Hl. eexists. split; [by apply main_remove |].
  rewrite files_reload_nginx, stdout_reload_nginx, calls_reload_nginx.
  unfold retracted. cbn [files echo set_files stdout calls nginx_accepts initialized set_dirs].
  split_and!.
  - rewrite lookup_delete_ne by apply enabled_link_not_conf.
    apply lookup_delete_eq.
  - apply lookup_delete_eq.
  - intros p H1 H2 H3. by rewrite !lookup_delete_ne, lookup_insert_ne.
  - by rewrite <- app_assoc.
  - done.
Qed.

Lemma remove_retracts_witness :
  ∃ w', main ["remove"; "nothing-here.challenges.ctf.com"] occupied_host
        = Some (w', 0)
        ∧ files w' !! conf_file_of "nothing-here.challenges.ctf.com" = None
        ∧ files w' !! enabled_link_of "nothing-here.challenges.ctf.com" = None
        ∧ (∀ p, p ≠ conf_file_of "nothing-here.challenges.ctf.com" →
                p ≠ enabled_link_of "nothing-here.challenges.ctf.com" →
                p ≠ TEMPLATE_FILE → files w' !! p = files occupied_host !! p)
        ∧ stdout w'
          = stdout occupied_host
              ++ ["Removed: " +:+ "nothing-here.challenges.ctf.com"; "Nginx reloaded"]
        ∧ calls w'
          = calls occupied_host
              ++ NginxTest (nginx_accepts occupied_host (files w'))
              :: (if nginx_accepts occupied_host (files w')
                  then [SystemctlReload] else []).
Proof.
  apply (remove_retracts "nothing-here.challenges.ctf.com" [] occupied_host).
  - apply host_okb_ok. vm_compute. reflexivity.
  - vm_compute. reflexivity.
  - apply (proj1 (proj1 (site_okb_ok "nothing-here.challenges.ctf.com"
                           occupied_host eq_refl))).
  - apply (proj2 (site_okb_ok "nothing-here.challenges.ctf.com"
                    occupied_host eq_refl)).
Defined.

(** ** Round trips and repetitions *)

Lemma site_ok_after_generate (h text line : string) (w : world) :
  conf_file_of h ∉ dirs w → enabled_link_of h ∉ dirs w →
  site_ok h (reload_nginx (published h text line w)).
Proof.
  intros Hc Hl. split; [split |].
  - by rewrite dirs_reload_nginx.
  - intros t. by rewrite conf_after_generate.
  - by rewrite dirs_reload_nginx.
Qed.

Lemma outside_initialized (p : string) (w : world) :
  p ∉ layout_dirs → p ∉ dirs w → p ∉ dirs (initialized w).
Proof.
  intros Hl Hd.
  change (dirs (initialized w)) with (list_to_set layout_dirs ∪ dirs w).
  rewrite elem_of_union, elem_of_list_to_set. tauto.
Qed.

Lemma site_ok_after_first_run (h text line : string) (w : world) :
  conf_file_of h ∉ dirs w → enabled_link_of h ∉ dirs w →
  site_ok h (reload_nginx (published h text line (initialized w))).
Proof.
  intros Hc Hl. apply site_ok_after_generate; apply outside_initialized;
    first [apply conf_file_not_layout | apply enabled_link_not_layout | done].
Qed.

Lemma dirs_initialized_twice (w : world) :
  list_to_set layout_dirs ∪ (list_to_set layout_dirs ∪ dirs w)
  = list_to_set layout_dirs ∪ dirs w.
Proof. by rewrite (assoc_L (∪)), (idemp_L (∪)). Qed.

(** X3. Publishing a site that was free and retracting it again leaves the
    files as the initialisation alone leaves them: [remove] undoes
    [generate]. *)
Theorem generate_then_remove (cid ip port name : string) (w : world) :
  host_ok w →
  plain cid = true → plain ip = true → plain port = true →
  plain name = true → plain (now w) = true →
  conf_file_of (hostname_of name) ∉ dirs w →
  enabled_link_of (hostname_of name) ∉ dirs w →
  files w !! conf_file_of (hostname_of name) = None →
  files w !! enabled_link_of (hostname_of name) = None →
  ∃ w1 w2,
    main ["generate"; cid; ip; port; name] w = Some (w1, 0)
    ∧ main ["remove"; hostname_of name] w1 = Some (w2, 0)
    ∧ files w2 = <[TEMPLATE_FILE := File challenge_template]> (files w)
    ∧ dirs w2 = dirs w1.
Proof.
  intros Hhost Hcid Hip Hport Hname Hts Hcd Hld Hcf Hlf.
  assert (site_ok (hostname_of name) w) as Hsite.
  { repeat split; [done | | done]. intros t. by rewrite Hcf. }
  pose proof (main_generate_plain cid ip port name w Hhost Hsite
                Hcid Hip Hport Hname Hts) as Hgen.
  destruct (host_ok_main _ _ _ _ Hhost Hgen) as [Hhost1 Hin1].
  eexists _, _. split; [exact Hgen |]. split.
  - apply main_remove; [done | | |].
    + apply repl_safe_no_slash, repl_safe_hostname. by apply plain_repl_safe.
    + apply (site_ok_after_first_run _ _ _ w Hcd Hld).
    + apply (site_ok_after_first_run _ _ _ w Hcd Hld).
  - split.
    + rewrite files_reload_nginx. unfold retracted, initialized, published.
      cbn [files echo set_files set_dirs].
      rewrite files_reload_nginx. cbn [files echo set_files set_dirs].
      apply map_eq. intros p.
      rewrite !lookup_delete, !lookup_insert.
      repeat case_decide; subst; done.
    + rewrite dirs_reload_nginx. unfold retracted, initialized.
      cbn [dirs echo set_files set_dirs].
      rewrite dirs_reload_nginx. cbn [dirs published echo set_files set_dirs].
      apply dirs_initialized_twice.
Qed.

Lemma generate_then_remove_witness :
  ∃ w1 w2,
    main second_instance (bare_host true new_year) = Some (w1, 0)
    ∧ main ["remove"; pwn_101] w1 = Some (w2, 0)
    ∧ files w2
      = <[TEMPLATE_FILE := File challenge_template]>
          (files (bare_host true new_year))
    ∧ dirs w2 = dirs w1.
Proof.
  apply (generate_then_remove "bbbbbbbbbbbb" "10.0.0.9" "9090" "pwn-101"
           (bare_host true new_year));
    try (vm_compute; reflexivity).
  - apply host_okb_ok. vm_compute. reflexivity.
  - apply (proj1 (proj1 (site_okb_ok pwn_101 (bare_host true new_year) eq_refl))).
  - apply (proj2 (site_okb_ok pwn_101 (bare_host true new_year) eq_refl)).
Defined.

(** X4. Running the same [generate] again at the same time of the clock
    changes nothing in the file system: the second run rewrites the same
    text and the same link; it only validates and reloads once more. *)
Theorem generate_twice (cid ip port name : string) (w : world) :
  host_ok w → site_ok (hostname_of name) w →
  plain cid = true → plain ip = true → plain port = true →
  plain name = true → plain (now w) = true →
  ∃ w1 w2,
    main ["generate"; cid; ip; port; name] w = Some (w1, 0)
    ∧ main ["generate"; cid; ip; port; name] w1 = Some (w2, 0)
    ∧ files w2 = files w1
    ∧ dirs w2 = dirs w1
    ∧ calls w2
      = calls w1 ++ NginxTest (nginx_accepts w (files w1))
          :: (if nginx_accepts w (files w1) then [SystemctlReload] else []).
Proof.
  intros Hhost Hsite Hcid Hip Hport Hname Hts.
  pose proof (main_generate_plain cid ip port name w Hhost Hsite
                Hcid Hip Hport Hname Hts) as Hgen.
  destruct (host_ok_main _ _ _ _ Hhost Hgen) as [Hhost1 Hin1].
  destruct Hsite as [[Hcd Hcl] Hld].
  set (line := "Generated: " +:+ hostname_of name +:+ " -> " +:+ ip +:+ ":" +:+ port)
    in *.
  set (text := rendered (hostname_of name) ip port name (now w) cid) in *.
  set (w1 := reload_nginx (published (hostname_of name) text line (initialized w)))
    in *.
  assert (now w1 = now w) as Hnow by (subst w1; by rewrite now_reload_nginx).
  assert (nginx_accepts w1 = nginx_accepts w) as Hacc
    by (subst w1; by rewrite nginx_accepts_reload_nginx).
  assert (main ["generate"; cid; ip; port; name] w1
          = Some (reload_nginx
                    (published (hostname_of name) text line (initialized w1)), 0))
    as Hgen2.
  { subst text. rewrite <- Hnow. apply main_generate_plain; try done.
    - by apply site_ok_after_first_run.
    - by rewrite Hnow. }
  assert (files (published (hostname_of name) text line (initialized w1))
          = files w1) as Hfiles.
  { subst w1. rewrite files_reload_published. unfold published, initialized.
    cbn [files echo set_files set_dirs]. rewrite files_reload_nginx.
    cbn [files echo set_files set_dirs].
    apply map_eq. intros p. rewrite !lookup_insert.
    repeat case_decide; subst; done. }
  exists w1, (reload_nginx (published (hostname_of name) text line (initialized w1))).
  split_and!; try done.
  - by rewrite files_reload_nginx.
  - rewrite dirs_reload_nginx. unfold published, initialized.
    cbn [dirs echo set_files set_dirs]. subst w1. rewrite dirs_reload_nginx.
    cbn [dirs published echo set_files set_dirs initialized].
    apply dirs_initialized_twice.
  - rewrite calls_reload_nginx, Hfiles.
    change (nginx_accepts (published (hostname_of name) text line (initialized w1)))
      with (nginx_accepts w1).
    by rewrite Hacc.
Qed.

Lemma generate_twice_witness :
  ∃ w1 w2,
    main second_instance (bare_host false new_year) = Some (w1, 0)
    ∧ main second_instance w1 = Some (w2, 0)
    ∧ files w2 = files w1
    ∧ dirs w2 = dirs w1
    ∧ calls w2
      = calls w1 ++ NginxTest (nginx_accepts (bare_host false new_year) (files w1))
          :: (if nginx_accepts (bare_host false new_year) (files w1)
              then [SystemctlReload] else []).
Proof.
  apply (generate_twice "bbbbbbbbbbbb" "10.0.0.9" "9090" "pwn-101"
           (bare_host false new_year));
    try (vm_compute; reflexivity).
  - apply host_okb_ok. vm_compute. reflexivity.
  - apply site_okb_ok. vm_compute. reflexivity.
Defined.

(** ** The init, watch and usage branches *)

Lemma create_template_initialized (w : world) :
  host_ok w → create_template (initialized w) = initialized w.
Proof.
  intros Hhost. pose proof (host_ok_layout_ready _ Hhost) as [Hl [Htd Htl]].
  unfold create_template.
  destruct (write_file_ok TEMPLATE_FILE challenge_template (initialized w))
    as [_ ->].
  - exact Htl.
  - unfold is_dir. by rewrite bool_decide_eq_false_2.
  - apply is_dir_elem, Hl.
    change (dirname TEMPLATE_FILE) with "/etc/nginx/templates".
    unfold layout_dirs. rewrite !elem_of_cons. tauto.
  - unfold initialized. rewrite files_set_files, set_files_set_files.
    by rewrite insert_insert_eq.
Qed.

Lemma initialized_twice (w : world) :
  files (initialized (initialized w)) = files (initialized w)
  ∧ dirs (initialized (initialized w)) = dirs (initialized w).
Proof.
  split.
  - unfold initialized. rewrite !files_set_files. by rewrite insert_insert_eq.
  - apply dirs_initialized_twice.
Qed.

Lemma read_template_initialized (w : world) :
  host_ok w → read_file TEMPLATE_FILE (initialized w) = Some challenge_template.
Proof.
  intros Hhost. apply read_file_ok; [apply lookup_insert_eq |].
  apply is_dir_outside; [done | apply template_not_layout |].
  by destruct Hhost as [_ [? _]].
Qed.

(** X5. [init] writes the canonical template, whatever was at its path, says
    so, and calls nothing else; a second [init] changes neither the files
    nor the directories.  All of this is already done by the
    initialisation of every run: the files after [init] are the files
    after any command that does nothing. *)
Theorem init_idempotent (w : world) :
  host_ok w →
  ∃ w1 w2,
    main ["init"] w = Some (w1, 0)
    ∧ read_file TEMPLATE_FILE w1 = Some challenge_template
    ∧ files w1 = <[TEMPLATE_FILE := File challenge_template]> (files w)
    ∧ stdout w1 = stdout w ++ ["Template created at " +:+ TEMPLATE_FILE]
    ∧ calls w1 = calls w
    ∧ main ["init"] w1 = Some (w2, 0)
    ∧ files w2 = files w1
    ∧ dirs w2 = dirs w1
    ∧ Some (files w1) = (fun r => files (fst r)) <$> main ["sync"] w.
Proof.
  intros Hhost.
  assert (∀ v, host_ok v →
            main ["init"] v
            = Some (echo ("Template created at " +:+ TEMPLATE_FILE)
                      (initialized v), 0)) as Hinit.
  { intros v Hv. unfold main. rewrite (initialize_ok _ Hv).
    change (dispatch ["init"] (initialized v))
      with (Some (echo ("Template created at " +:+ TEMPLATE_FILE)
                    (create_template (initialized v)), 0)).
    by rewrite create_template_initialized. }
  pose proof (Hinit w Hhost) as H1.
  destruct (host_ok_main _ _ _ _ Hhost H1) as [Hhost1 _].
  exists (echo ("Template created at " +:+ TEMPLATE_FILE) (initialized w)),
         (echo ("Template created at " +:+ TEMPLATE_FILE)
            (initialized
               (echo ("Template created at " +:+ TEMPLATE_FILE) (initialized w)))).
  split_and!.
  - exact H1.
  - by apply (read_template_initialized w).
  - done.
  - done.
  - done.
  - apply (Hinit _ Hhost1).
  - apply (initialized_twice w).
  - apply (initialized_twice w).
  - unfold main. by rewrite (initialize_ok _ Hhost).
Qed.

Lemma init_idempotent_witness :
  ∃ w1 w2,
    main ["init"] edited_host = Some (w1, 0)
    ∧ read_file TEMPLATE_FILE w1 = Some challenge_template
    ∧ files w1 = <[TEMPLATE_FILE := File challenge_template]> (files edited_host)
    ∧ stdout w1 = stdout edited_host ++ ["Template created at " +:+ TEMPLATE_FILE]
    ∧ calls w1 = calls edited_host
    ∧ main ["init"] w1 = Some (w2, 0)
    ∧ files w2 = files w1
    ∧ dirs w2 = dirs w1
    ∧ Some (files w1) = (fun r => files (fst r)) <$> main ["sync"] edited_host.
Proof.
  apply (init_idempotent edited_host), host_okb_ok. vm_compute. reflexivity.
Defined.

Lemma stdout_usage (w : world) :
  stdout (usage w) = stdout w ++ usage_lines (script_name w).
Proof.
  unfold usage, usage_lines. cbn [foldl echo stdout].
  by repeat rewrite <- app_assoc.
Qed.

Lemma dispatch_unknown (args : list string) (w : world) :
  (∀ c, head args = Some c → c ∉ commands) →
  dispatch args w = Some (usage w, 1).
Proof.
  intros Hc. unfold dispatch.
  set (command := match args with
                  | c :: _ => if String.eqb c "" then "help" else c
                  | [] => "help"
                  end).
  assert (command ∉ commands) as Hn.
  { subst command. destruct args as [|c rest].
    - unfold commands. rewrite !elem_of_cons, elem_of_nil.
      intros H. repeat (destruct H as [H | H]; [discriminate H |]). done.
    - destruct (String.eqb c "") eqn:E; [| by apply Hc].
      unfold commands. rewrite !elem_of_cons, elem_of_nil.
      intros H. repeat (destruct H as [H | H]; [discriminate H |]). done. }
  unfold commands in Hn. rewrite !not_elem_of_cons in Hn.
  destruct Hn as (H1 & H2 & H3 & H4 & H5 & _).
  apply String.eqb_neq in H1, H2, H3, H4, H5.
  by rewrite H1, H2, H3, H4, H5.
Qed.

(** X6. Without a command, with an empty one or with a word that is not a
    command, the script prints the eight lines of the usage and exits with
    status 1; it has still initialised the host, and it calls nginx
    never. *)
Theorem unknown_command_usage (args : list string) (w : world) :
  host_ok w →
  (∀ c, head args = Some c → c ∉ commands) →
  ∃ w', main args w = Some (w', 1)
        ∧ stdout w' = stdout w ++ usage_lines (script_name w)
        ∧ calls w' = calls w
        ∧ files w' = <[TEMPLATE_FILE := File challenge_template]> (files w)
        ∧ ∀ a, a ∈ layout_dirs → a ∈ dirs w'.
Proof.
  intros Hhost Hc. exists (usage (initialized w)). split_and!.
  - unfold main. rewrite (initialize_ok _ Hhost). by apply dispatch_unknown.
  - exact (stdout_usage (initialized w)).
  - done.
  - done.
  - intros a Ha. by apply (host_ok_layout_ready _ Hhost).
Qed.

Lemma unknown_command_usage_witness :
  ∃ w', main ["status"; "pwn-101"] edited_host = Some (w', 1)
        ∧ stdout w' = stdout edited_host ++ usage_lines (script_name edited_host)
        ∧ calls w' = calls edited_host
        ∧ files w'
          = <[TEMPLATE_FILE := File challenge_template]> (files edited_host)
        ∧ ∀ a, a ∈ layout_dirs → a ∈ dirs w'.
Proof.
  apply (unknown_command_usage ["status"; "pwn-101"] edited_host).
  - apply host_okb_ok. vm_compute. reflexivity.
  - intros c [= <-]. unfold commands. rewrite !elem_of_cons, elem_of_nil.
    intros H. repeat (destruct H as [H | H]; [discriminate H |]). exact H.
Defined.

(** X7. Whatever the runtime prints, starts and creations as well as stops and
    deaths, [watch] neither publishes nor retracts a route and never calls
    nginx: it consumes the events, leaves the world as the initialisation
    left it, and ends with status 0 when the stream ends. *)
Theorem watch_does_nothing (w : world) :
  host_ok w →
  ∃ w', main ["watch"] w = Some (w', 0)
        ∧ files w' = <[TEMPLATE_FILE := File challenge_template]> (files w)
        ∧ calls w' = calls w
        ∧ stdout w' = stdout w.
Proof.
  intros Hhost. exists (initialized w). split; [| done].
  unfold main. rewrite (initialize_ok _ Hhost).
  change (dispatch ["watch"] (initialized w))
    with (w1 ← watch_docker_events (initialized w); Some (w1, 0)).
  unfold watch_docker_events. by rewrite watch_loop_noop.
Qed.

Lemma watch_does_nothing_witness :
  let w := World ∅ (files occupied_host) [] new_year (fun _ => true) []
             ["start abc123"; "die 0123456789ab"; "stop 0123456789ab";
              "health_status: healthy abc123"] [] "generate-nginx-blocks.sh" in
  ∃ w', main ["watch"] w = Some (w', 0)
        ∧ files w' = <[TEMPLATE_FILE := File challenge_template]> (files w)
        ∧ calls w' = calls w
        ∧ stdout w' = stdout w.
Proof.
  cbv zeta. apply watch_does_nothing, host_okb_ok. vm_compute. reflexivity.
Defined.

(** ** Missing arguments *)



(** ** No placeholder is left *)

Lemma contains_nobrace (p v : string) :
  has_char "{" v = false → contains (String "{" p) v = false.
Proof.
  induction v as [|c v IH]; intros H; [done |].
  simpl in H. destruct (Ascii.eqb c "{") eqn:E; [done |].
  cbn [contains starts_with]. rewrite Ascii.eqb_sym, E. by apply IH.
Qed.

Lemma contains_nobrace_app (p v s : string) :
  has_char "{" v = false →
  contains (String "{" p) (v +:+ s) = contains (String "{" p) s.
Proof.
  induction v as [|c v IH]; intros H; [done |].
  simpl in H. destruct (Ascii.eqb c "{") eqn:E; [done |].
  rewrite append_cons. cbn [contains starts_with].
  rewrite Ascii.eqb_sym, E. by apply IH.
Qed.

Ltac no_placeholder :=
  unfold placeholder_free, placeholders; cbn [forallb];
  repeat rewrite contains_nobrace_app
    by (first [reflexivity | by apply plain_no_brace]);
  repeat rewrite contains_nobrace
    by (first [reflexivity | by apply plain_no_brace]);
  reflexivity.

Lemma rendered_lines_placeholder_free (ip port name ts cid : string) :
  plain ip = true → plain port = true → plain name = true →
  plain ts = true → plain cid = true →
  Forall (fun l => placeholder_free l = true)
         (rendered_lines (hostname_of name) ip port name ts cid).
Proof.
  intros Hip Hport Hname Hts Hcid.
  pose proof (plain_hostname _ Hname) as Hh.
  pose proof (plain_substring _ 0 12 Hcid) as Hc.
  unfold rendered_lines.
  repeat (apply Forall_cons; split; [no_placeholder |]).
  apply Forall_nil_2.
Qed.

(** X9. The six substitutions cover the template: in the configuration that a
    [generate] with plain arguments writes, no line has any of the six
    placeholders left. *)
Theorem no_placeholder_left (cid ip port name : string) (w : world) :
  host_ok w → site_ok (hostname_of name) w →
  plain cid = true → plain ip = true → plain port = true →
  plain name = true → plain (now w) = true →
  ∃ w' text,
    main ["generate"; cid; ip; port; name] w = Some (w', 0)
    ∧ conf_text (hostname_of name) w' = Some text
    ∧ Forall (fun l => placeholder_free l = true) (split_lines text).
Proof.
  intros Hhost Hsite Hcid Hip Hport Hname Hts.
  eexists _, _. split; [by apply main_generate_plain |].
  split; [unfold conf_text; by rewrite conf_after_generate |].
  rewrite split_lines_rendered by done.
  apply Forall_app. split; [by apply rendered_lines_placeholder_free |].
  by apply Forall_singleton.
Qed.

Lemma no_placeholder_left_witness :
  ∃ w' text,
    main scenario (bare_host true new_year) = Some (w', 0)
    ∧ conf_text pwn_101 w' = Some text
    ∧ Forall (fun l => placeholder_free l = true) (split_lines text).
Proof.
  apply (no_placeholder_left "abc123" "10.0.0.5" "8080" "pwn-101"
           (bare_host true new_year));
    try (vm_compute; reflexivity).
  - apply host_okb_ok. vm_compute. reflexivity.
  - apply site_okb_ok. vm_compute. reflexivity.
Defined.

(** ** Reading an event line *)

Lemma word_cons (c : ascii) (s : string) :
  word (String c s) = true →
  is_blank c = false ∧ Ascii.eqb c "\" = false ∧ word s = true.
Proof.
  cbn [word]. intros H. apply andb_prop in H as [H Hs].
  apply andb_prop in H as [Hb He].
  apply negb_true_iff in Hb. apply negb_true_iff in He. done.
Qed.

Lemma word_no_backslash (s : string) :
  word s = true → has_char "\" s = false.
Proof.
  induction s as [|c s IH]; [done |].
  intros (_ & He & Hs)%word_cons. cbn. rewrite He. by apply IH.
Qed.

Lemma first_field_word (a rest : string) :
  word a = true →
  first_field (a +:+ " " +:+ rest) = (a, rest).
Proof.
  rewrite (append_cons " " "" rest), append_nil_l.
  induction a as [|c a IH]; [done |].
  intros (Hb & He & Ha)%word_cons.
  rewrite append_cons. cbn [first_field]. by rewrite He, Hb, IH.
Qed.

Lemma drop_blanks_word (s rest : string) :
  word s = true → s ≠ "" → drop_blanks (s +:+ rest) = s +:+ rest.
Proof.
  destruct s as [|c s]; [done |]. intros (Hb & _ & _)%word_cons _.
  rewrite append_cons. cbn [drop_blanks]. by rewrite Hb.
Qed.

Lemma last_field_word (s : string) : word s = true → last_field s = s.
Proof.
  induction s as [|c s IH]; [done |].
  intros (Hb & He & Hs)%word_cons. cbn [last_field].
  rewrite He, (IH Hs), Hb. by destruct s.
Qed.

Lemma last_field_end (x s : string) :
  has_char "\" x = false → word s = true → s ≠ "" →
  last_field (x +:+ s) = x +:+ s.
Proof.
  intros Hx Hs Hne. induction x as [|c x IH].
  - rewrite append_nil_l. by apply last_field_word.
  - cbn in Hx. destruct (Ascii.eqb c "\") eqn:He; [done |].
    rewrite append_cons. cbn [last_field]. rewrite He, (IH Hx).
    destruct (x +:+ s) eqn:E; [| done].
    destruct x; [by rewrite append_nil_l in E | by rewrite append_cons in E].
Qed.

Lemma last_field_backslash (a b : string) :
  word a = true → word b = true → b ≠ "" →
  last_field (a +:+ "\" +:+ b) = a +:+ b.
Proof.
  intros Ha Hb Hne. rewrite (append_cons "\" "" b), append_nil_l.
  induction a as [|c a IH].
  - rewrite !append_nil_l. destruct b as [|c b]; [done |].
    apply word_cons in Hb as (_ & _ & Hb). cbn [last_field].
    change (Ascii.eqb "\" "\") with true. cbn match.
    by rewrite (last_field_word _ Hb).
  - apply word_cons in Ha as (Hbl & He & Ha).
    rewrite !append_cons. cbn [last_field]. rewrite He, (IH Ha).
    destruct (a +:+ b) eqn:E; [| done].
    destruct a; [by rewrite append_nil_l in E | by rewrite append_cons in E].
Qed.

(** X10. The event line that [docker events] prints in the format
    [{{.Action}} {{.Actor.ID}}] is read back by [read action container_id]
    as the action and the id when both are words of ordinary characters,
    without blank and without backslash.  When the action has two words,
    as [health_status: healthy], the second word lands in front of the id
    in [container_id].  And since [read] is called without [-r], a
    backslash in the id is dropped. *)
Theorem read_event_line (action second id more : string) :
  word action = true → action ≠ "" →
  word second = true → second ≠ "" →
  word id = true → id ≠ "" →
  word more = true → more ≠ "" →
  read_two (action +:+ " " +:+ id) = (action, id)
  ∧ read_two (action +:+ " " +:+ second +:+ " " +:+ id)
    = (action, second +:+ " " +:+ id)
  ∧ read_two (action +:+ " " +:+ id +:+ "\" +:+ more)
    = (action, id +:+ more).
Proof.
  intros Ha Hane Hs Hsne Hi Hine Hm Hmne. unfold read_two. split_and!.
  - rewrite (drop_blanks_word _ _ Ha Hane).
    rewrite (first_field_word _ _ Ha).
    rewrite <- (append_nil_r id) at 1.
    rewrite (drop_blanks_word _ _ Hi Hine), append_nil_r.
    by rewrite (last_field_word _ Hi).
  - rewrite (drop_blanks_word _ _ Ha Hane).
    rewrite (first_field_word _ _ Ha).
    rewrite (drop_blanks_word _ _ Hs Hsne).
    rewrite <- (append_assoc second " " id).
    rewrite (last_field_end (second +:+ " ") id); [done | | done | done].
    by rewrite has_char_app, (word_no_backslash _ Hs).
  - rewrite (drop_blanks_word _ _ Ha Hane).
    rewrite (first_field_word _ _ Ha).
    rewrite (drop_blanks_word _ _ Hi Hine).
    by rewrite (last_field_backslash _ _ Hi Hm Hmne).
Qed.

Lemma read_event_line_witness :
  read_two ("health_status:" +:+ " " +:+ "abc123") = ("health_status:", "abc123")
  ∧ read_two ("health_status:" +:+ " " +:+ "healthy" +:+ " " +:+ "abc123")
    = ("health_status:", "healthy" +:+ " " +:+ "abc123")
  ∧ read_two ("health_status:" +:+ " " +:+ "abc123" +:+ "\" +:+ "123")
    = ("health_status:", "abc123" +:+ "123").
Proof.
  apply (read_event_line "health_status:" "healthy" "abc123" "123");
    first [reflexivity | discriminate].
Defined.

(** * Further properties of the terminal client *)

Lemma ready_onData (data : string) (c : Terminal.client) :
  Terminal.readyState (Terminal.onData data c) = Terminal.readyState c.
Proof.
  unfold Terminal.onData, Terminal.ws_send.
  by destruct (Terminal.readyState c) eqn:E; rewrite ?E.
Qed.

Lemma screen_onData (data : string) (c : Terminal.client) :
  Terminal.screen (Terminal.onData data c) = Terminal.screen c.
Proof.
  unfold Terminal.onData, Terminal.ws_send.
  by destruct (Terminal.readyState c) eqn:E; rewrite ?E.
Qed.

Lemma run_cons
    (JSON_parse : string → option Terminal.json) (e : Terminal.event)
    (events : list Terminal.event) (c : Terminal.client) :
  Terminal.run JSON_parse (e :: events) c
  = Terminal.run JSON_parse events (Terminal.handle JSON_parse e c).
Proof. reflexivity. Qed.

(** X11. On an open socket the keystrokes leave in the order in which they are
    typed, one text frame for each call of the input handler, nothing
    merged, nothing dropped, and the screen is not touched: the echo only
    comes from the server. *)
Theorem keystrokes_in_order
    (JSON_parse : string → option Terminal.json) (keys : list string)
    (c : Terminal.client) :
  Terminal.readyState c = Terminal.OPEN →
  Terminal.sent (Terminal.run JSON_parse (Terminal.EvData <$> keys) c)
  = Terminal.sent c ++ (Terminal.TextFrame <$> keys)
  ∧ Terminal.screen (Terminal.run JSON_parse (Terminal.EvData <$> keys) c)
    = Terminal.screen c.
Proof.
  revert c. induction keys as [|k keys IH]; intros c Hopen.
  - cbn. by rewrite app_nil_r.
  - rewrite fmap_cons, run_cons. cbn [Terminal.handle].
    destruct (IH (Terminal.onData k c)) as [-> ->];
      [by rewrite ready_onData |].
    rewrite screen_onData. split; [| done].
    unfold Terminal.onData, Terminal.ws_send. rewrite Hopen. cbn.
    by rewrite <- app_assoc.
Qed.

Lemma keystrokes_in_order_witness :
  Terminal.sent
    (Terminal.run Terminal.one_message
       (Terminal.EvData <$> ["l"; "s"; String (ascii_of_nat 13) ""])
       Terminal.open_client)
  = Terminal.sent Terminal.open_client
      ++ (Terminal.TextFrame <$> ["l"; "s"; String (ascii_of_nat 13) ""])
  ∧ Terminal.screen
      (Terminal.run Terminal.one_message
         (Terminal.EvData <$> ["l"; "s"; String (ascii_of_nat 13) ""])
         Terminal.open_client)
    = Terminal.screen Terminal.open_client.
Proof.
  apply (keystrokes_in_order Terminal.one_message
           ["l"; "s"; String (ascii_of_nat 13) ""] Terminal.open_client).
  reflexivity.
Defined.

Lemma quiet_handle
    (JSON_parse : string → option Terminal.json) (e : Terminal.event)
    (c : Terminal.client) :
  e ≠ Terminal.EvOpen →
  Terminal.readyState c ≠ Terminal.OPEN →
  Terminal.readyState (Terminal.handle JSON_parse e c) ≠ Terminal.OPEN
  ∧ Terminal.sent (Terminal.handle JSON_parse e c) = Terminal.sent c.
Proof.
  intros He Hc. destruct e as [| data | | | data | fitted]; [done | | | | |];
    cbn [Terminal.handle].
  - unfold Terminal.onmessage. destruct data as [s | bytes]; [| done].
    destruct (JSON_parse s) as [[| | | | |fields]|]; try done.
    destruct (Terminal.field "type" fields) as [[| | |t| |]|]; try done.
    by destruct (String.eqb t "error").
  - done.
  - done.
  - unfold Terminal.onData.
    by destruct (Terminal.readyState c) eqn:E; rewrite ?E.
  - unfold Terminal.handleResize.
    change (Terminal.readyState (Terminal.set_size fitted c))
      with (Terminal.readyState c).
    by destruct (Terminal.readyState c) eqn:E; cbn; rewrite ?E.
Qed.

(** X12. While the socket is not open, whatever is typed and every resize is
    dropped, not queued: from a socket that is connecting, closing or
    closed, no sequence of events without an opening makes the client send
    a frame; a resize still gives the terminal its new size. *)
Theorem nothing_sent_unless_open
    (JSON_parse : string → option Terminal.json) (events : list Terminal.event)
    (c : Terminal.client) (fitted : nat * nat) :
  Terminal.readyState c ≠ Terminal.OPEN →
  Terminal.EvOpen ∉ events →
  Terminal.sent (Terminal.run JSON_parse events c) = Terminal.sent c
  ∧ Terminal.cols (Terminal.handleResize fitted c) = fst fitted
  ∧ Terminal.rows (Terminal.handleResize fitted c) = snd fitted.
Proof.
  intros Hc Hev. split.
  - revert c Hc. induction events as [|e events IH]; intros c Hc; [done |].
    apply not_elem_of_cons in Hev as [He Hev].
    rewrite run_cons.
    destruct (quiet_handle JSON_parse e c) as [Hr Hs]; [done | done |].
    rewrite <- Hs. by apply IH.
  - unfold Terminal.handleResize.
    change (Terminal.readyState (Terminal.set_size fitted c))
      with (Terminal.readyState c).
    by destruct (Terminal.readyState c).
Qed.

Lemma nothing_sent_unless_open_witness :
  let c := Terminal.handle Terminal.one_message Terminal.EvClose
             Terminal.open_client in
  let events := [Terminal.EvData "ls"; Terminal.EvResize (120, 40);
                 Terminal.EvMessage (Terminal.Text "late");
                 Terminal.EvError; Terminal.EvData "pwd"] in
  Terminal.sent (Terminal.run Terminal.one_message events c) = Terminal.sent c
  ∧ Terminal.cols (Terminal.handleResize (120, 40) c) = 120
  ∧ Terminal.rows (Terminal.handleResize (120, 40) c) = 40.
Proof.
  cbv zeta.
  apply (nothing_sent_unless_open Terminal.one_message _ _ (120, 40)).
  - discriminate.
  - rewrite !not_elem_of_cons. repeat split; try discriminate.
    apply not_elem_of_nil.
Defined.

(** X13. What the client makes of a text frame: a text that is not JSON, and
    the JSON [null], are written to the terminal as they are; an object of
    type [error] without message is shown as [Error: undefined]; every
    other JSON value, an object of another type included, is ignored.  In
    no case does the client answer or change its connection status. *)
Theorem text_frame_cases
    (JSON_parse : string → option Terminal.json) (s : string)
    (c : Terminal.client) :
  let c' := Terminal.onmessage JSON_parse (Terminal.Text s) c in
  Terminal.sent c' = Terminal.sent c
  ∧ Terminal.isConnected c' = Terminal.isConnected c
  ∧ Terminal.error c' = Terminal.error c
  ∧ (JSON_parse s = None ∨ JSON_parse s = Some Terminal.JNull →
     Terminal.screen c' = Terminal.screen c ++ [Terminal.Write s])
  ∧ (JSON_parse s = Some (Terminal.JObj [("type", Terminal.JStr "error")]) →
     Terminal.screen c'
     = Terminal.screen c
         ++ [Terminal.Writeln (Terminal.sgr "31" +:+ "Error: " +:+ "undefined"
                                 +:+ Terminal.sgr "0")])
  ∧ (∀ v, JSON_parse s = Some v → v ≠ Terminal.JNull →
          (∀ fields, v = Terminal.JObj fields →
                     Terminal.field "type" fields
                     ≠ Some (Terminal.JStr "error")) →
          c' = c).
Proof.
  cbv zeta. unfold Terminal.onmessage. split_and!.
  - destruct (JSON_parse s) as [[| | | | |fields]|]; try done.
    destruct (Terminal.field "type" fields) as [[| | |t| |]|]; try done.
    by destruct (String.eqb t "error").
  - destruct (JSON_parse s) as [[| | | | |fields]|]; try done.
    destruct (Terminal.field "type" fields) as [[| | |t| |]|]; try done.
    by destruct (String.eqb t "error").
  - destruct (JSON_parse s) as [[| | | | |fields]|]; try done.
    destruct (Terminal.field "type" fields) as [[| | |t| |]|]; try done.
    by destruct (String.eqb t "error").
  - by intros [-> | ->].
  - by intros ->.
  - intros v -> Hnull Hobj. destruct v as [| | | | |fields]; try done.
    specialize (Hobj fields eq_refl).
    destruct (Terminal.field "type" fields) as [[| | |t| |]|]; try done.
    destruct (String.eqb_spec t "error") as [-> | Hne]; done.
Qed.

Lemma text_frame_cases_witness :
  let c' := Terminal.onmessage Terminal.one_message (Terminal.Text "hello")
              Terminal.open_client in
  Terminal.sent c' = Terminal.sent Terminal.open_client
  ∧ Terminal.isConnected c' = Terminal.isConnected Terminal.open_client
  ∧ Terminal.error c' = Terminal.error Terminal.open_client
  ∧ (Terminal.one_message "hello" = None
     ∨ Terminal.one_message "hello" = Some Terminal.JNull →
     Terminal.screen c'
     = Terminal.screen Terminal.open_client ++ [Terminal.Write "hello"])
  ∧ (Terminal.one_message "hello"
     = Some (Terminal.JObj [("type", Terminal.JStr "error")]) →
     Terminal.screen c'
     = Terminal.screen Terminal.open_client
         ++ [Terminal.Writeln (Terminal.sgr "31" +:+ "Error: " +:+ "undefined"
                                 +:+ Terminal.sgr "0")])
  ∧ (∀ v, Terminal.one_message "hello" = Some v → v ≠ Terminal.JNull →
          (∀ fields, v = Terminal.JObj fields →
                     Terminal.field "type" fields
                     ≠ Some (Terminal.JStr "error")) →
          c' = Terminal.open_client).
Proof.
  exact (text_frame_cases Terminal.one_message "hello" Terminal.open_client).
Defined.

(** * The drawer with all its sockets *)

Lemma length_ws_send (ws : nat) (text : string) (socks : list Drawer.socket) :
  length (Drawer.ws_send ws text socks) = length socks.
Proof.
  unfold Drawer.ws_send. destruct (socks !! ws) as [s|]; [| done].
  destruct (Drawer.readyState s); try done. apply length_alter.
Qed.

Lemma lookup_ws_send_ne (ws j : nat) (text : string)
    (socks : list Drawer.socket) :
  ws ≠ j → Drawer.ws_send ws text socks !! j = socks !! j.
Proof.
  intros Hne. unfold Drawer.ws_send. destruct (socks !! ws) as [s|]; [| done].
  destruct (Drawer.readyState s); try done. by apply list_lookup_alter_ne.
Qed.

Lemma ws_send_not_open (ws : nat) (text : string)
    (socks : list Drawer.socket) :
  (∀ s, socks !! ws = Some s → Drawer.readyState s ≠ Terminal.OPEN) →
  Drawer.ws_send ws text socks = socks.
Proof.
  intros H. unfold Drawer.ws_send. destruct (socks !! ws) as [s|]; [| done].
  specialize (H s eq_refl). by destruct (Drawer.readyState s).
Qed.

Lemma lookup_ws_send (ws j : nat) (text : string)
    (socks : list Drawer.socket) (s : Drawer.socket) :
  socks !! j = Some s →
  ∃ s', Drawer.ws_send ws text socks !! j = Some s'
        ∧ Drawer.url s' = Drawer.url s
        ∧ Drawer.readyState s' = Drawer.readyState s
        ∧ (Drawer.sent s' = Drawer.sent s
           ∨ (ws = j ∧ Drawer.readyState s = Terminal.OPEN
              ∧ Drawer.sent s'
                = Drawer.sent s ++ [Terminal.TextFrame text])).
Proof.
  intros Hj. destruct (decide (ws = j)) as [-> | Hne].
  - unfold Drawer.ws_send. rewrite Hj.
    destruct (Drawer.readyState s) eqn:E;
      try (exists s; rewrite ?E; split_and!; auto; fail).
    rewrite list_lookup_alter_eq, Hj. cbn. eexists. split; [done |]. cbn.
    split_and!; [done | done | by right].
  - rewrite lookup_ws_send_ne by done. exists s. auto.
Qed.

Lemma ready_ws_send (ws j : nat) (text : string)
    (socks : list Drawer.socket) :
  Drawer.readyState <$> Drawer.ws_send ws text socks !! j
  = Drawer.readyState <$> socks !! j.
Proof.
  destruct (socks !! j) as [s|] eqn:Hj.
  - destruct (lookup_ws_send ws j text socks s Hj) as (s' & Hs' & _ & Hr & _).
    rewrite Hs'. cbn. by rewrite Hr.
  - assert (Drawer.ws_send ws text socks !! j = None) as ->; [| done].
    apply lookup_ge_None. rewrite length_ws_send. by apply lookup_ge_None.
Qed.

(** The listeners of the terminal, run one after the other, send what
    the listener of [ws] alone sends, when no socket has two listeners
    and no other socket that is listened for is open. *)
Lemma listeners_send_once (data : string) (ws : nat) (l : list nat)
    (socks : list Drawer.socket) :
  NoDup l →
  (∀ j s, j ∈ l → j ≠ ws → socks !! j = Some s →
          Drawer.readyState s ≠ Terminal.OPEN) →
  foldl (fun socks ws => Drawer.ws_send ws data socks) socks l
  = if decide (ws ∈ l) then Drawer.ws_send ws data socks else socks.
Proof.
  revert socks. induction l as [|j l IH]; intros socks Hnd Hcl.
  - cbn. by rewrite decide_False by apply not_elem_of_nil.
  - apply NoDup_cons in Hnd as [Hj Hnd]. cbn [foldl].
    destruct (decide (j = ws)) as [-> | Hne].
    + rewrite IH; [| done |].
      * rewrite decide_False by done.
        rewrite decide_True by apply list_elem_of_here. done.
      * intros j s Hin Hjw Hs. rewrite lookup_ws_send_ne in Hs by done.
        apply (Hcl j s); [by apply list_elem_of_further | done | done].
    + rewrite (ws_send_not_open j data socks).
      2:{ intros s Hs. apply (Hcl j s); [apply list_elem_of_here | done | done]. }
      rewrite IH; [| done |].
      * destruct (decide (ws ∈ l)) as [Hin | Hnin].
        -- rewrite decide_True by by apply list_elem_of_further. done.
        -- rewrite decide_False; [done |].
           rewrite elem_of_cons. intros [-> | ?]; done.
      * intros j' s Hin Hjw Hs.
        apply (Hcl j' s); [by apply list_elem_of_further | done | done].
Qed.

Lemma closing_not_open (s : Drawer.socket) :
  Drawer.closing s → Drawer.readyState s ≠ Terminal.OPEN.
Proof. intros [H | H]; rewrite H; discriminate. Qed.

(** A change that keeps the current socket, the states of the sockets and
    the listeners keeps the drawer consistent. *)
Lemma consistent_ext (d d' : Drawer.drawer) :
  Drawer.wsRef d' = Drawer.wsRef d →
  (∀ j, Drawer.readyState <$> Drawer.sockets d' !! j
        = Drawer.readyState <$> Drawer.sockets d !! j) →
  Drawer.listeners <$> Drawer.terminalInstanceRef d'
  = Drawer.listeners <$> Drawer.terminalInstanceRef d →
  Drawer.consistent d → Drawer.consistent d'.
Proof.
  intros Hws Hst Hl [H1 H2 H3 H4 H5].
  assert (length (Drawer.sockets d') = length (Drawer.sockets d)) as Hlen.
  { apply Nat.le_antisymm.
    - apply Nat.nlt_ge. intros Hlt.
      pose proof (Hst (length (Drawer.sockets d))) as E.
      rewrite (proj2 (lookup_ge_None (Drawer.sockets d) _)) in E by lia.
      destruct (lookup_lt_is_Some_2 (Drawer.sockets d') _ Hlt) as [x Hx].
      by rewrite Hx in E.
    - apply Nat.nlt_ge. intros Hlt.
      pose proof (Hst (length (Drawer.sockets d'))) as E.
      rewrite (proj2 (lookup_ge_None (Drawer.sockets d') _)) in E by lia.
      destruct (lookup_lt_is_Some_2 (Drawer.sockets d) _ Hlt) as [x Hx].
      by rewrite Hx in E. }
  split.
  - intros ws Hw. rewrite Hlen. apply H1. by rewrite <- Hws.
  - intros ws Hw. rewrite Hws in Hw. destruct (H2 ws Hw) as (t & Ht & Hin).
    rewrite Ht in Hl. destruct (Drawer.terminalInstanceRef d') as [t'|];
      [| done].
    exists t'. split; [done |]. cbn in Hl. injection Hl as ->. done.
  - intros ws s' Hs Hw. rewrite Hws in Hw. pose proof (Hst ws) as E.
    rewrite Hs in E. destruct (Drawer.sockets d !! ws) as [s|] eqn:Hs0;
      [| done].
    cbn in E. injection E as E. specialize (H3 ws s Hs0 Hw).
    unfold Drawer.closing in *. by rewrite E.
  - intros t' Ht'. rewrite Ht' in Hl.
    destruct (Drawer.terminalInstanceRef d) as [t|]; [| done].
    cbn in Hl. injection Hl as ->. by apply H4.
  - intros t' ws Ht' Hin. rewrite Ht' in Hl.
    destruct (Drawer.terminalInstanceRef d) as [t|]; [| done].
    cbn in Hl. injection Hl as Hl. rewrite Hl in Hin. rewrite Hlen.
    by apply (H5 t).
Qed.

(** A change of one socket that leaves a closing socket closing. *)
Lemma consistent_alter (f : Drawer.socket → Drawer.socket) (ws : nat)
    (d : Drawer.drawer) :
  (∀ s, Drawer.sockets d !! ws = Some s → Drawer.closing s →
        Drawer.closing (f s)) →
  Drawer.consistent d →
  Drawer.consistent (Drawer.set_sockets (alter f ws (Drawer.sockets d)) d).
Proof.
  intros Hf [H1 H2 H3 H4 H5]. split; cbn.
  - intros i Hi. rewrite length_alter. by apply H1.
  - done.
  - intros j s' Hs Hw. destruct (decide (ws = j)) as [-> | Hne].
    + rewrite list_lookup_alter_eq in Hs.
      destruct (Drawer.sockets d !! j) as [s|] eqn:Hs0; [| done].
      cbn in Hs. injection Hs as <-. apply Hf; [done |]. by apply (H3 j).
    + rewrite list_lookup_alter_ne in Hs by done. by apply (H3 j).
  - done.
  - intros t i Ht Hin. rewrite length_alter. by apply (H5 t).
Qed.

Lemma closing_close (s : Drawer.socket) : Drawer.closing (Drawer.close s).
Proof.
  unfold Drawer.close, Drawer.closing.
  destruct (Drawer.readyState s) eqn:E; cbn; rewrite ?E; auto.
Qed.

Lemma consistent_close_current (d : Drawer.drawer) :
  Drawer.consistent d → Drawer.consistent (Drawer.close_current d).
Proof.
  intros Hd. unfold Drawer.close_current.
  destruct (Drawer.wsRef d) as [ws|] eqn:Hw; [| done].
  destruct Hd as [H1 H2 H3 H4 H5]. split; cbn.
  - done.
  - done.
  - intros j s' Hs _. destruct (decide (ws = j)) as [-> | Hne].
    + rewrite list_lookup_alter_eq in Hs.
      destruct (Drawer.sockets d !! j) as [s|] eqn:Hs0; [| done].
      cbn in Hs. injection Hs as <-. apply closing_close.
    + rewrite list_lookup_alter_ne in Hs by done. apply (H3 j); [done |].
      rewrite Hw. congruence.
  - done.
  - intros t i Ht Hin. rewrite length_alter. by apply (H5 t).
Qed.

Lemma wsRef_close_current (d : Drawer.drawer) :
  Drawer.wsRef (Drawer.close_current d) = None.
Proof.
  unfold Drawer.close_current. by destruct (Drawer.wsRef d) eqn:E.
Qed.

Lemma consistent_connectWebSocket (d d' : Drawer.drawer) :
  Drawer.wsRef d = None →
  Drawer.connectWebSocket d = Some d' →
  Drawer.consistent d → Drawer.consistent d'.
Proof.
  intros Hw Hc Hd. unfold Drawer.connectWebSocket in Hc.
  destruct (Drawer.terminalInstanceRef d) as [t|] eqn:Ht.
  2:{ injection Hc as <-. revert Hd. apply consistent_ext; try done.
      cbn. by rewrite Ht. }
  destruct (Drawer.containerId d) as [[|a rest]|] eqn:Hcid.
  1,3: injection Hc as <-; revert Hd; apply consistent_ext; try done;
       cbn; by rewrite Ht.
  destruct (has_char "#" (String a rest)); [done |]. injection Hc as <-.
  destruct Hd as [H1 H2 H3 H4 H5]. split; cbn.
  - intros ws [= <-]. rewrite length_app. cbn. lia.
  - intros ws [= <-]. eexists. split; [done |]. cbn.
    apply elem_of_app. right. apply list_elem_of_here.
  - intros ws s Hs Hne. apply lookup_app_Some in Hs as [Hs | [Hge Hs]].
    + apply (H3 ws s Hs). by rewrite Hw.
    + destruct (ws - length (Drawer.sockets d)) eqn:E; [| done].
      destruct Hne. f_equal. lia.
  - intros t' [= <-]. cbn. apply NoDup_app. split_and!.
    + by apply H4.
    + intros ws Hin Hin'. apply list_elem_of_singleton in Hin'.
      specialize (H5 t ws Ht Hin). lia.
    + apply NoDup_singleton.
  - intros t' ws [= <-] Hin. cbn in Hin. rewrite length_app. cbn.
    apply elem_of_app in Hin as [Hin | Hin].
    + specialize (H5 t ws Ht Hin). lia.
    + apply list_elem_of_singleton in Hin. lia.
Qed.

Lemma consistent_step
    (JSON_parse : string → option Terminal.json) (a : Drawer.action)
    (d d' : Drawer.drawer) :
  Drawer.step JSON_parse a d = Some d' →
  Drawer.consistent d → Drawer.consistent d'.
Proof.
  intros Hs Hd. destruct a; cbn [Drawer.step] in Hs.
  - injection Hs as <-. revert Hd. by apply consistent_ext.
  - injection Hs as <-. revert Hd. by apply consistent_ext.
  - injection Hs as <-. revert Hd. by apply consistent_ext.
  - injection Hs as <-. unfold Drawer.initialize_terminal. cbn.
    destruct (Drawer.isOpen d && Drawer.modulesLoaded d
              && negb (bool_decide (is_Some (Drawer.terminalInstanceRef d))))
      eqn:G; [| revert Hd; by apply consistent_ext].
    apply andb_true_iff in G as [_ G]. apply negb_true_iff in G.
    apply bool_decide_eq_false in G.
    destruct Hd as [H1 H2 H3 H4 H5]. split; cbn.
    + done.
    + intros ws Hw. destruct (H2 ws Hw) as (t & Ht & _). destruct G. eauto.
    + done.
    + intros t [= <-]. apply NoDup_nil_2.
    + intros t ws [= <-] Hin. by apply elem_of_nil in Hin.
  - unfold Drawer.connect_effect in Hs.
    destruct (Drawer.isOpen d && Drawer.modulesLoaded d
              && bool_decide (is_Some (Drawer.terminalInstanceRef d))
              && Drawer.truthy (Drawer.containerId d)
              && negb (bool_decide (is_Some (Drawer.wsRef d)))) eqn:G.
    + apply andb_true_iff in G as [_ G]. apply negb_true_iff in G.
      apply bool_decide_eq_false in G.
      apply (consistent_connectWebSocket d d'); [| done | done].
      destruct (Drawer.wsRef d); [| done]. destruct G. eauto.
    + by injection Hs as <-.
  - injection Hs as <-. unfold Drawer.cleanup.
    destruct (negb (Drawer.isOpen d)); [| done].
    pose proof (consistent_close_current d Hd) as [H1 H2 H3 H4 H5].
    pose proof (wsRef_close_current d) as Hw.
    split; cbn; try done.
    + rewrite Hw. done.
  - injection Hs as <-. revert Hd. apply consistent_ext; try done.
    cbn. by destruct (Drawer.terminalInstanceRef d).
  - destruct (Drawer.resizeListener d); injection Hs as <-; [| done].
    unfold Drawer.handleResize.
    destruct (Drawer.terminalInstanceRef d) as [t|] eqn:Ht; [| done].
    cbn. destruct (Drawer.wsRef d) as [ws|] eqn:Hw.
    + revert Hd. apply consistent_ext; cbn; try done.
      * intros j. apply ready_ws_send.
      * by rewrite Ht.
    + revert Hd. apply consistent_ext; cbn; try done. by rewrite Ht.
  - unfold Drawer.handleReconnect in Hs.
    apply (consistent_connectWebSocket (Drawer.close_current d) d');
      [apply wsRef_close_current | done | by apply consistent_close_current].
  - injection Hs as <-. unfold Drawer.onData.
    destruct (Drawer.terminalInstanceRef d) as [t|] eqn:Ht; [| done].
    revert Hd. apply consistent_ext; cbn; try done.
    intros j. generalize (Drawer.sockets d).
    induction (Drawer.listeners t) as [|i l IH]; intros socks; [done |].
    cbn [foldl]. rewrite IH. apply ready_ws_send.
  - injection Hs as <-. revert Hd. by apply consistent_ext.
  - destruct (Drawer.sockets d !! ws) as [s|] eqn:Hsock;
      [| by injection Hs as <-].
    destruct (Drawer.readyState s) eqn:Hr; try by injection Hs as <-.
    injection Hs as <-.
    assert (Drawer.consistent
              (Drawer.set_sockets
                 (alter (Drawer.set_ready Terminal.OPEN) ws (Drawer.sockets d))
                 d)) as Hd1.
    { apply consistent_alter; [| done]. intros s0 Hs0 [Hc | Hc];
        rewrite Hsock in Hs0; injection Hs0 as <-; rewrite Hr in Hc; done. }
    revert Hd1. unfold Drawer.onopen. cbn.
    destruct (Drawer.terminalInstanceRef d) as [t|] eqn:Ht; cbn.
    + apply consistent_ext; cbn; try done.
      * intros j. apply ready_ws_send.
      * by rewrite Ht.
    + apply consistent_ext; cbn; try done. by rewrite Ht.
  - case_bool_decide; injection Hs as <-; [| done].
    revert Hd. apply consistent_ext; try done.
    + unfold Drawer.onmessage. destruct data as [s | bytes]; [| done].
      destruct (JSON_parse s) as [[| | | | |fields]|]; try done.
      destruct (Terminal.field "type" fields) as [[| | |t| |]|]; try done.
      by destruct (String.eqb t "error").
    + unfold Drawer.onmessage. destruct data as [s | bytes]; [| done].
      destruct (JSON_parse s) as [[| | | | |fields]|]; try done.
      destruct (Terminal.field "type" fields) as [[| | |t| |]|]; try done.
      by destruct (String.eqb t "error").
    + unfold Drawer.onmessage.
      destruct data as [s | bytes];
        [| cbn; by destruct (Drawer.terminalInstanceRef d)].
      destruct (JSON_parse s) as [[| | | | |fields]|]; try done;
        try (cbn; by destruct (Drawer.terminalInstanceRef d)).
      destruct (Terminal.field "type" fields) as [[| | |t| |]|]; try done.
      destruct (String.eqb t "error"); [| done].
      cbn; by destruct (Drawer.terminalInstanceRef d).
  - case_bool_decide; injection Hs as <-; [| done].
    revert Hd. apply consistent_ext; try done.
    cbn; by destruct (Drawer.terminalInstanceRef d).
  - case_bool_decide; injection Hs as <-; [| done].
    assert (Drawer.consistent
              (Drawer.set_sockets
                 (alter (Drawer.set_ready Terminal.CLOSED) ws
                    (Drawer.sockets d)) d)) as Hd1.
    { apply consistent_alter; [| done]. intros s0 _ _. by right. }
    revert Hd1. apply consistent_ext; try done.
    cbn; by destruct (Drawer.terminalInstanceRef d).
Qed.

Lemma consistent_run
    (JSON_parse : string → option Terminal.json)
    (actions : list Drawer.action) (d d' : Drawer.drawer) :
  Drawer.run JSON_parse actions d = Some d' →
  Drawer.consistent d → Drawer.consistent d'.
Proof.
  revert d. induction actions as [|a rest IH]; intros d Hr Hd.
  - by injection Hr as <-.
  - cbn in Hr. destruct (Drawer.step JSON_parse a d) as [d1|] eqn:Hs; [| done].
    cbn in Hr. apply (IH d1 Hr). by apply (consistent_step JSON_parse a d).
Qed.

Lemma consistent_mount (o : bool) (cid title token : option string)
    (protocol host : string) :
  Drawer.consistent (Drawer.mount o cid title token protocol host).
Proof.
  split; cbn; try done.
Qed.

(** X14. Whatever happens to the drawer, at most one of the sockets it has
    made is alive: every socket other than the current one is closing or
    closed, and the terminal has one listener for each socket it listens
    for. *)
Theorem one_live_socket
    (JSON_parse : string → option Terminal.json)
    (actions : list Drawer.action) (o : bool)
    (cid title token : option string) (protocol host : string)
    (d : Drawer.drawer) :
  Drawer.run JSON_parse actions
    (Drawer.mount o cid title token protocol host) = Some d →
  (∀ ws s, Drawer.sockets d !! ws = Some s → Drawer.wsRef d ≠ Some ws →
           Drawer.closing s)
  ∧ (∀ t, Drawer.terminalInstanceRef d = Some t →
          NoDup (Drawer.listeners t)).
Proof.
  intros Hr.
  destruct (consistent_run JSON_parse actions _ d Hr
              (consistent_mount o cid title token protocol host))
    as [_ _ H3 H4 _].
  done.
Qed.

Lemma one_live_socket_witness :
  (∀ ws s, Drawer.sockets Drawer.after_session !! ws = Some s →
           Drawer.wsRef Drawer.after_session ≠ Some ws → Drawer.closing s)
  ∧ (∀ t, Drawer.terminalInstanceRef Drawer.after_session = Some t →
          NoDup (Drawer.listeners t)).
Proof.
  apply (one_live_socket Terminal.one_message Drawer.session true
           (Some "3f9a7c21") (Some "pwn 101") (Some "a b&c=d") "https:"
           "ctf.example" Drawer.after_session).
  vm_compute. reflexivity.
Defined.

Lemma onData_consistent (data : string) (d : Drawer.drawer) :
  Drawer.consistent d →
  Drawer.sockets (Drawer.onData data d)
  = match Drawer.wsRef d with
    | Some ws => Drawer.ws_send ws data (Drawer.sockets d)
    | None => Drawer.sockets d
    end.
Proof.
  intros [H1 H2 H3 H4 H5]. unfold Drawer.onData.
  destruct (Drawer.terminalInstanceRef d) as [t|] eqn:Ht.
  - cbn. destruct (Drawer.wsRef d) as [ws|] eqn:Hw.
    + rewrite (listeners_send_once data ws).
      * destruct (H2 ws eq_refl) as (t' & [= <-] & Hin).
        by rewrite decide_True.
      * by apply H4.
      * intros j s Hin Hne Hs. apply closing_not_open. apply (H3 j s Hs).
        congruence.
    + rewrite (listeners_send_once data (length (Drawer.sockets d))).
      * rewrite decide_False; [done |]. intros Hin.
        specialize (H5 t _ eq_refl Hin). lia.
      * by apply H4.
      * intros j s Hin Hne Hs. apply closing_not_open. by apply (H3 j s Hs).
  - destruct (Drawer.wsRef d) as [ws|] eqn:Hw; [| done].
    by destruct (H2 ws eq_refl) as (t' & [=] & _).
Qed.

(** X15. What is typed goes out once, on the current socket, however many
    listeners the reconnections have left on the terminal: the listeners
    together send what one [ws.send] on the current socket sends, and
    nothing when there is no current socket. *)
Theorem keystroke_once
    (JSON_parse : string → option Terminal.json)
    (actions : list Drawer.action) (o : bool)
    (cid title token : option string) (protocol host : string)
    (d : Drawer.drawer) (data : string) :
  Drawer.run JSON_parse actions
    (Drawer.mount o cid title token protocol host) = Some d →
  Drawer.sockets (Drawer.onData data d)
  = match Drawer.wsRef d with
    | Some ws => Drawer.ws_send ws data (Drawer.sockets d)
    | None => Drawer.sockets d
    end.
Proof.
  intros Hr. apply onData_consistent.
  apply (consistent_run JSON_parse actions _ d Hr).
  apply consistent_mount.
Qed.

Lemma keystroke_once_witness :
  Drawer.sockets (Drawer.onData "ls" Drawer.after_session)
  = match Drawer.wsRef Drawer.after_session with
    | Some ws => Drawer.ws_send ws "ls" (Drawer.sockets Drawer.after_session)
    | None => Drawer.sockets Drawer.after_session
    end.
Proof.
  apply (keystroke_once Terminal.one_message Drawer.session true
           (Some "3f9a7c21") (Some "pwn 101") (Some "a b&c=d") "https:"
           "ctf.example" Drawer.after_session "ls").
  vm_compute. reflexivity.
Defined.

Lemma view_Some (ws : nat) (d : Drawer.drawer) (c : Terminal.client) :
  Drawer.view ws d = Some c →
  ∃ s t, Drawer.sockets d !! ws = Some s
         ∧ Drawer.terminalInstanceRef d = Some t
         ∧ c = Terminal.Client (Drawer.readyState s) (Drawer.sent s)
                 (Drawer.screen t) (Drawer.cols t) (Drawer.rows t)
                 (Drawer.isConnected d) (Drawer.isLoading d) (Drawer.error d).
Proof.
  unfold Drawer.view. intros H.
  destruct (Drawer.sockets d !! ws) as [s|]; [| done].
  destruct (Drawer.terminalInstanceRef d) as [t|]; [| done].
  cbn in H. injection H as <-. by exists s, t.
Qed.

(** What a send on the current socket leaves of the socket [ws]. *)
Lemma lookup_current_send (text : string) (ws : nat) (d : Drawer.drawer)
    (s : Drawer.socket) :
  Drawer.consistent d →
  Drawer.sockets d !! ws = Some s →
  match Drawer.wsRef d with
  | Some w => Drawer.ws_send w text (Drawer.sockets d)
  | None => Drawer.sockets d
  end !! ws
  = Some match Drawer.readyState s with
         | Terminal.OPEN => Drawer.push (Terminal.TextFrame text) s
         | _ => s
         end.
Proof.
  intros Hd Hs.
  assert (Drawer.wsRef d ≠ Some ws →
          match Drawer.readyState s with
          | Terminal.OPEN => Drawer.push (Terminal.TextFrame text) s
          | _ => s
          end = s) as Hother.
  { intros Hne. destruct (Drawer.others_closing d Hd ws s Hs Hne) as [-> | ->]; done. }
  destruct (Drawer.wsRef d) as [w|] eqn:Hw.
  - destruct (decide (w = ws)) as [-> | Hne].
    + unfold Drawer.ws_send. rewrite Hs.
      destruct (Drawer.readyState s) eqn:E; try done.
      by rewrite list_lookup_alter_eq, Hs.
    + rewrite lookup_ws_send_ne by done. rewrite Hother; [done | congruence].
  - by rewrite Hother.
Qed.

Lemma drawer_shows_client_consistent
    (JSON_parse : string → option Terminal.json) (a : Drawer.action)
    (ws : nat) (e : Terminal.event) (d : Drawer.drawer)
    (c : Terminal.client) :
  Drawer.consistent d →
  Drawer.event_of ws a = Some e →
  Drawer.view ws d = Some c →
  (e = Terminal.EvOpen → Terminal.readyState c = Terminal.CONNECTING) →
  (∀ fitted, a = Drawer.WindowResize fitted →
             Drawer.resizeListener d = true) →
  ∃ d', Drawer.step JSON_parse a d = Some d'
        ∧ Drawer.view ws d' = Some (Terminal.handle JSON_parse e c).
Proof.
  intros Hd He Hv Hopen Hres.
  destruct (view_Some ws d c Hv) as (s & t & Hs & Ht & ->).
  assert (ws < length (Drawer.sockets d)) as Hlt
    by (apply lookup_lt_is_Some; eauto).
  destruct a; cbn [Drawer.event_of] in He; try done;
    try (case_bool_decide; [subst ws0 | done]); injection He as <-;
    cbn [Drawer.step Terminal.handle].
  - (* the window is resized *)
    rewrite (Hres fitted eq_refl).
    eexists. split; [done |].
    pose proof (lookup_current_send
                  (Terminal.resize_message (fst fitted) (snd fitted))
                  ws d s Hd Hs) as Hl.
    unfold Drawer.handleResize, Drawer.view. rewrite Ht. cbn.
    unfold Terminal.handleResize. cbn.
    destruct (Drawer.wsRef d) as [w|]; cbn; rewrite Hl;
      destruct s as [u [] frames]; reflexivity.
  - (* the terminal emits data *)
    eexists. split; [done |].
    pose proof (lookup_current_send data ws d s Hd Hs) as Hl.
    pose proof (onData_consistent data d Hd) as Hsock.
    unfold Drawer.view. rewrite Hsock, Hl. cbn.
    unfold Drawer.onData. rewrite Ht. cbn. rewrite Ht.
    destruct s as [u [] frames]; reflexivity.
  - (* the socket opens *)
    cbn in Hopen. rewrite Hs, (Hopen eq_refl).
    eexists. split; [done |].
    unfold Drawer.onopen, Drawer.view. cbn. rewrite Ht. cbn.
    unfold Drawer.ws_send. rewrite list_lookup_alter_eq, Hs. cbn.
    rewrite list_lookup_alter_eq, list_lookup_alter_eq, Hs, ?Ht.
    reflexivity.
  - (* a message *)
    rewrite bool_decide_true by done. eexists. split; [done |].
    unfold Drawer.onmessage, Terminal.onmessage, Drawer.view.
    destruct data as [text | bytes]; [| (cbn; rewrite Hs, Ht; reflexivity)].
    destruct (JSON_parse text) as [[| | | | |fields]|];
      try ((cbn; rewrite Hs, Ht; reflexivity)).
    destruct (Terminal.field "type" fields) as [[| | |type| |]|];
      try ((cbn; rewrite Hs, Ht; reflexivity)).
    destruct (String.eqb type "error"); (cbn; rewrite Hs, Ht; reflexivity).
  - (* an error *)
    rewrite bool_decide_true by done. eexists. split; [done |].
    unfold Drawer.onerror, Drawer.view. cbn. rewrite Hs, Ht.
    reflexivity.
  - (* the socket closes *)
    rewrite bool_decide_true by done. eexists. split; [done |].
    unfold Drawer.onclose, Drawer.view. cbn.
    rewrite list_lookup_alter_eq, Hs, Ht. reflexivity.
Qed.

(** X16. Seen through any one of its sockets, the drawer is the one-socket
    client: an event of that socket or of the terminal, or a resize of
    the window while [handleResize] is registered on it, takes the
    drawer to a drawer that shows what the handler of the client makes
    of the client shown before.  An open event comes on a connecting
    socket only. *)
Theorem drawer_shows_client
    (JSON_parse : string → option Terminal.json)
    (actions : list Drawer.action) (o : bool)
    (cid title token : option string) (protocol host : string)
    (d : Drawer.drawer) (a : Drawer.action) (ws : nat) (e : Terminal.event)
    (c : Terminal.client) :
  Drawer.run JSON_parse actions
    (Drawer.mount o cid title token protocol host) = Some d →
  Drawer.event_of ws a = Some e →
  Drawer.view ws d = Some c →
  (e = Terminal.EvOpen → Terminal.readyState c = Terminal.CONNECTING) →
  (∀ fitted, a = Drawer.WindowResize fitted →
             Drawer.resizeListener d = true) →
  ∃ d', Drawer.step JSON_parse a d = Some d'
        ∧ Drawer.view ws d' = Some (Terminal.handle JSON_parse e c).
Proof.
  intros Hr. apply drawer_shows_client_consistent.
  apply (consistent_run JSON_parse actions _ d Hr). apply consistent_mount.
Qed.

Lemma drawer_shows_client_witness :
  ∃ d', Drawer.step Terminal.one_message (Drawer.WindowResize (120, 40))
          Drawer.after_session = Some d'
        ∧ Drawer.view 1 d'
          = Some (Terminal.handle Terminal.one_message
                    (Terminal.EvResize (120, 40)) Drawer.session_client).
Proof.
  apply (drawer_shows_client Terminal.one_message Drawer.session true
           (Some "3f9a7c21") (Some "pwn 101") (Some "a b&c=d") "https:"
           "ctf.example" Drawer.after_session (Drawer.WindowResize (120, 40))
           1 (Terminal.EvResize (120, 40)) Drawer.session_client).
  - vm_compute. reflexivity.
  - reflexivity.
  - vm_compute. reflexivity.
  - discriminate.
  - intros fitted _. vm_compute. reflexivity.
Defined.

Lemma grows_refl (socks : list Drawer.socket) : Drawer.grows socks socks.
Proof. intros ws s Hs. exists s. by split_and!. Qed.

Lemma grows_trans (l1 l2 l3 : list Drawer.socket) :
  Drawer.grows l1 l2 → Drawer.grows l2 l3 → Drawer.grows l1 l3.
Proof.
  intros H12 H23 ws s Hs.
  destruct (H12 ws s Hs) as (s2 & Hs2 & Hu2 & Hp2 & Hc2).
  destruct (H23 ws s2 Hs2) as (s3 & Hs3 & Hu3 & Hp3 & Hc3).
  exists s3. split_and!; [done | congruence | by etrans |].
  intros Hc. destruct (Hc2 Hc) as [Hc2' E2].
  destruct (Hc3 Hc2') as [Hc3' E3]. split; [done | congruence].
Qed.

Lemma grows_ws_send (ws : nat) (text : string) (socks : list Drawer.socket) :
  Drawer.grows socks (Drawer.ws_send ws text socks).
Proof.
  intros j s Hs.
  destruct (lookup_ws_send ws j text socks s Hs)
    as (s' & Hs' & Hu & Hr & [Hsent | (-> & Hopen & Hsent)]);
    exists s'; split_and!; try done.
  - by rewrite Hsent.
  - intros Hc. unfold Drawer.closing in *. by rewrite Hr.
  - rewrite Hsent. by apply prefix_app_r.
  - intros Hc. by apply closing_not_open in Hc.
Qed.

Lemma grows_alter (f : Drawer.socket → Drawer.socket) (ws : nat)
    (socks : list Drawer.socket) :
  (∀ s, socks !! ws = Some s →
        Drawer.url (f s) = Drawer.url s ∧ Drawer.sent (f s) = Drawer.sent s
        ∧ (Drawer.closing s → Drawer.closing (f s))) →
  Drawer.grows socks (alter f ws socks).
Proof.
  intros Hf j s Hs. destruct (decide (ws = j)) as [-> | Hne].
  - rewrite list_lookup_alter_eq, Hs. cbn. exists (f s).
    destruct (Hf s Hs) as (Hu & Hsent & Hc).
    split_and!; [done | done | by rewrite Hsent | auto].
  - rewrite list_lookup_alter_ne by done. by apply grows_refl.
Qed.

Lemma grows_app (socks new : list Drawer.socket) :
  Drawer.grows socks (socks ++ new).
Proof.
  intros j s Hs. exists s. split_and!; try done.
  by apply lookup_app_l_Some.
Qed.

Lemma grows_listeners (data : string) (l : list nat)
    (socks : list Drawer.socket) :
  Drawer.grows socks
    (foldl (fun socks ws => Drawer.ws_send ws data socks) socks l).
Proof.
  revert socks. induction l as [|ws l IH]; intros socks; [apply grows_refl |].
  cbn [foldl]. eapply grows_trans; [apply grows_ws_send | apply IH].
Qed.

Lemma grows_close_current (d : Drawer.drawer) :
  Drawer.grows (Drawer.sockets d) (Drawer.sockets (Drawer.close_current d)).
Proof.
  unfold Drawer.close_current.
  destruct (Drawer.wsRef d) as [ws|]; [| apply grows_refl].
  cbn. apply grows_alter. intros s _. split_and!.
  - unfold Drawer.close. by destruct (Drawer.readyState s).
  - unfold Drawer.close. by destruct (Drawer.readyState s).
  - intros _. apply closing_close.
Qed.

Lemma grows_connectWebSocket (d d' : Drawer.drawer) :
  Drawer.connectWebSocket d = Some d' →
  Drawer.grows (Drawer.sockets d) (Drawer.sockets d').
Proof.
  unfold Drawer.connectWebSocket. intros Hc.
  destruct (Drawer.terminalInstanceRef d) as [t|];
    [| injection Hc as <-; apply grows_refl].
  destruct (Drawer.containerId d) as [[|a rest]|];
    try (injection Hc as <-; apply grows_refl).
  destruct (has_char "#" (String a rest)); [done |]. injection Hc as <-.
  cbn. apply grows_app.
Qed.

Lemma grows_step
    (JSON_parse : string → option Terminal.json) (a : Drawer.action)
    (d d' : Drawer.drawer) :
  Drawer.step JSON_parse a d = Some d' →
  Drawer.grows (Drawer.sockets d) (Drawer.sockets d').
Proof.
  intros Hs. destruct a; cbn [Drawer.step] in Hs;
    try (injection Hs as <-; apply grows_refl).
  - injection Hs as <-. unfold Drawer.initialize_terminal.
    destruct (_ && _); apply grows_refl.
  - unfold Drawer.connect_effect in Hs. destruct (_ && _).
    + by apply grows_connectWebSocket.
    + injection Hs as <-. apply grows_refl.
  - injection Hs as <-. unfold Drawer.cleanup.
    destruct (negb _); [| apply grows_refl]. apply grows_close_current.
  - destruct (Drawer.resizeListener d); injection Hs as <-;
      [| apply grows_refl].
    unfold Drawer.handleResize.
    destruct (Drawer.terminalInstanceRef d); [| apply grows_refl]. cbn.
    destruct (Drawer.wsRef d); [| apply grows_refl]. apply grows_ws_send.
  - unfold Drawer.handleReconnect in Hs.
    eapply grows_trans; [apply grows_close_current |].
    by apply grows_connectWebSocket.
  - injection Hs as <-. unfold Drawer.onData.
    destruct (Drawer.terminalInstanceRef d); [| apply grows_refl].
    apply grows_listeners.
  - destruct (Drawer.sockets d !! ws) as [s|] eqn:Hsock;
      [| injection Hs as <-; apply grows_refl].
    destruct (Drawer.readyState s) eqn:Hr;
      try (injection Hs as <-; apply grows_refl).
    injection Hs as <-. unfold Drawer.onopen. cbn.
    eapply grows_trans.
    + apply (grows_alter (Drawer.set_ready Terminal.OPEN) ws).
      intros s0 Hs0. rewrite Hsock in Hs0. injection Hs0 as <-.
      split_and!; [done | done |]. intros [Hc | Hc]; by rewrite Hr in Hc.
    + destruct (Drawer.terminalInstanceRef d); cbn;
        [apply grows_ws_send | apply grows_refl].
  - case_bool_decide; injection Hs as <-; [| apply grows_refl].
    unfold Drawer.onmessage. destruct data as [s | bytes]; [| apply grows_refl].
    destruct (JSON_parse s) as [[| | | | |fields]|]; try apply grows_refl.
    destruct (Terminal.field "type" fields) as [[| | |t| |]|];
      try apply grows_refl.
    destruct (String.eqb t "error"); apply grows_refl.
  - case_bool_decide; injection Hs as <-; apply grows_refl.
  - case_bool_decide; injection Hs as <-; [| apply grows_refl].
    cbn. apply grows_alter. intros s _. split_and!; [done | done |].
    intros _. by right.
Qed.

(** X17. Whatever happens to the drawer, no socket is lost or reused: each
    keeps its URL, the frames it has sent stay sent, in their order, and
    once a socket is closing or closed it stays so and not one more
    frame goes out on it. *)
Theorem frames_only_grow
    (JSON_parse : string → option Terminal.json)
    (actions : list Drawer.action) (d d' : Drawer.drawer) (ws : nat)
    (s : Drawer.socket) :
  Drawer.run JSON_parse actions d = Some d' →
  Drawer.sockets d !! ws = Some s →
  ∃ s', Drawer.sockets d' !! ws = Some s'
        ∧ Drawer.url s' = Drawer.url s
        ∧ Drawer.sent s `prefix_of` Drawer.sent s'
        ∧ (Drawer.closing s → Drawer.closing s'
                              ∧ Drawer.sent s' = Drawer.sent s).
Proof.
  intros Hr. revert ws s.
  change (Drawer.grows (Drawer.sockets d) (Drawer.sockets d')).
  revert d Hr. induction actions as [|a rest IH]; intros d Hr.
  - injection Hr as <-. apply grows_refl.
  - cbn in Hr.
    destruct (Drawer.step JSON_parse a d) as [d1|] eqn:Hs; [| done].
    cbn in Hr. eapply grows_trans; [by eapply grows_step | by apply IH].
Qed.

Lemma frames_only_grow_witness :
  ∃ s', Drawer.sockets
          (default Drawer.after_session
             (Drawer.run Terminal.one_message
                [Drawer.Data "ls"; Drawer.ClickReconnect; Drawer.SocketOpen 0;
                 Drawer.Data "pwd"] Drawer.after_session)) !! 0 = Some s'
        ∧ Drawer.url s'
          = "wss://ctf.example/api/ws/terminal/3f9a7c21?token=a%20b%26c%3Dd"
        ∧ [Terminal.TextFrame (Terminal.resize_message 80 24)]
            `prefix_of` Drawer.sent s'
        ∧ (Drawer.closing
             (Drawer.Socket
                "wss://ctf.example/api/ws/terminal/3f9a7c21?token=a%20b%26c%3Dd"
                Terminal.CLOSED
                [Terminal.TextFrame (Terminal.resize_message 80 24)]) →
           Drawer.closing s'
           ∧ Drawer.sent s'
             = [Terminal.TextFrame (Terminal.resize_message 80 24)]).
Proof.
  apply (frames_only_grow Terminal.one_message
           [Drawer.Data "ls"; Drawer.ClickReconnect; Drawer.SocketOpen 0;
            Drawer.Data "pwd"] Drawer.after_session _ 0
           (Drawer.Socket
              "wss://ctf.example/api/ws/terminal/3f9a7c21?token=a%20b%26c%3Dd"
              Terminal.CLOSED
              [Terminal.TextFrame (Terminal.resize_message 80 24)])).
  - vm_compute. reflexivity.
  - vm_compute. reflexivity.
Defined.

Lemma closing_close_current (d : Drawer.drawer) (ws : nat)
    (s : Drawer.socket) :
  Drawer.consistent d →
  Drawer.sockets (Drawer.close_current d) !! ws = Some s →
  Drawer.closing s.
Proof.
  intros Hd Hs.
  apply (Drawer.others_closing _ (consistent_close_current d Hd) ws s Hs).
  by rewrite wsRef_close_current.
Qed.

Lemma length_close_current (d : Drawer.drawer) :
  length (Drawer.sockets (Drawer.close_current d))
  = length (Drawer.sockets d).
Proof.
  unfold Drawer.close_current. destruct (Drawer.wsRef d); [| done].
  cbn. apply length_alter.
Qed.

Lemma terminal_close_current (d : Drawer.drawer) :
  Drawer.terminalInstanceRef (Drawer.close_current d)
  = Drawer.terminalInstanceRef d.
Proof. unfold Drawer.close_current. by destruct (Drawer.wsRef d). Qed.

Lemma containerId_close_current (d : Drawer.drawer) :
  Drawer.containerId (Drawer.close_current d) = Drawer.containerId d.
Proof. unfold Drawer.close_current. by destruct (Drawer.wsRef d). Qed.

(** X18. A reconnection with a terminal and a container id without [#] makes
    one new socket, connecting, with no frame sent, and makes it the
    current one; every socket made before is left closing or closed with
    the frames it had sent; the drawer shows that it is loading, and the
    terminal gets one more listener. *)
Theorem reconnect_fresh_socket
    (JSON_parse : string → option Terminal.json)
    (actions : list Drawer.action) (o : bool)
    (cid title token : option string) (protocol host : string)
    (d : Drawer.drawer) (t : Drawer.term) (id : string) :
  Drawer.run JSON_parse actions
    (Drawer.mount o cid title token protocol host) = Some d →
  Drawer.terminalInstanceRef d = Some t →
  Drawer.containerId d = Some id →
  id ≠ "" →
  has_char "#" id = false →
  ∃ d' u,
    Drawer.handleReconnect d = Some d'
    ∧ Drawer.wsRef d' = Some (length (Drawer.sockets d))
    ∧ Drawer.sockets d' !! length (Drawer.sockets d)
      = Some (Drawer.Socket u Terminal.CONNECTING [])
    ∧ length (Drawer.sockets d') = S (length (Drawer.sockets d))
    ∧ (∀ ws s, Drawer.sockets d !! ws = Some s →
               ∃ s', Drawer.sockets d' !! ws = Some s'
                     ∧ Drawer.closing s'
                     ∧ Drawer.sent s' = Drawer.sent s)
    ∧ Drawer.isLoading d' = true
    ∧ Drawer.error d' = None
    ∧ Drawer.terminalInstanceRef d'
      = Some (Drawer.term_onData (length (Drawer.sockets d)) t).
Proof.
  intros Hr Ht Hid Hne Hhash.
  assert (Drawer.consistent d) as Hd.
  { apply (consistent_run JSON_parse actions _ d Hr). apply consistent_mount. }
  unfold Drawer.handleReconnect, Drawer.connectWebSocket.
  rewrite terminal_close_current, containerId_close_current, Ht, Hid.
  destruct id as [|a rest]; [done |]. rewrite Hhash.
  eexists _, _. split; [done |]. cbn. rewrite length_close_current.
  split_and!; try done.
  - rewrite lookup_app_r by (rewrite length_close_current; lia).
    rewrite length_close_current, Nat.sub_diag. done.
  - rewrite length_app, length_close_current. cbn. lia.
  - intros ws s Hs.
    destruct (grows_close_current d ws s Hs) as (s' & Hs' & _ & Hp & _).
    pose proof (closing_close_current d ws s' Hd Hs') as Hc.
    exists s'. split_and!; [by apply lookup_app_l_Some | done |].
    revert Hs'. unfold Drawer.close_current.
    destruct (Drawer.wsRef d) as [w|]; cbn; [| congruence].
    destruct (decide (w = ws)) as [-> | Hw].
    + rewrite list_lookup_alter_eq, Hs. cbn. intros [= <-].
      unfold Drawer.close. by destruct (Drawer.readyState s).
    + rewrite list_lookup_alter_ne by done. congruence.
Qed.

Lemma reconnect_fresh_socket_witness :
  ∃ d' u,
    Drawer.handleReconnect Drawer.after_session = Some d'
    ∧ Drawer.wsRef d' = Some (length (Drawer.sockets Drawer.after_session))
    ∧ Drawer.sockets d' !! length (Drawer.sockets Drawer.after_session)
      = Some (Drawer.Socket u Terminal.CONNECTING [])
    ∧ length (Drawer.sockets d')
      = S (length (Drawer.sockets Drawer.after_session))
    ∧ (∀ ws s, Drawer.sockets Drawer.after_session !! ws = Some s →
               ∃ s', Drawer.sockets d' !! ws = Some s'
                     ∧ Drawer.closing s'
                     ∧ Drawer.sent s' = Drawer.sent s)
    ∧ Drawer.isLoading d' = true
    ∧ Drawer.error d' = None
    ∧ Drawer.terminalInstanceRef d'
      = Some (Drawer.term_onData
                (length (Drawer.sockets Drawer.after_session))
                (default (Drawer.Term [] 80 24 [])
                   (Drawer.terminalInstanceRef Drawer.after_session))).
Proof.
  apply (reconnect_fresh_socket Terminal.one_message Drawer.session true
           (Some "3f9a7c21") (Some "pwn 101") (Some "a b&c=d") "https:"
           "ctf.example" Drawer.after_session _ "3f9a7c21").
  - vm_compute. reflexivity.
  - vm_compute. reflexivity.
  - reflexivity.
  - discriminate.
  - reflexivity.
Defined.

(** X19. A reconnection without container id, or without terminal, closes
    the current socket and makes none: no socket is current afterwards,
    every socket is closing or closed, and the status is as it was. *)
Theorem reconnect_without_container
    (JSON_parse : string → option Terminal.json)
    (actions : list Drawer.action) (o : bool)
    (cid title token : option string) (protocol host : string)
    (d : Drawer.drawer) :
  Drawer.run JSON_parse actions
    (Drawer.mount o cid title token protocol host) = Some d →
  Drawer.truthy (Drawer.containerId d) = false
  ∨ Drawer.terminalInstanceRef d = None →
  ∃ d',
    Drawer.handleReconnect d = Some d'
    ∧ Drawer.wsRef d' = None
    ∧ length (Drawer.sockets d') = length (Drawer.sockets d)
    ∧ (∀ ws s, Drawer.sockets d' !! ws = Some s → Drawer.closing s)
    ∧ Drawer.isConnected d' = Drawer.isConnected d
    ∧ Drawer.isLoading d' = Drawer.isLoading d
    ∧ Drawer.error d' = Drawer.error d
    ∧ Drawer.terminalInstanceRef d'
      = Drawer.term_write
          (Terminal.Writeln
             (Terminal.sgr "31" +:+ "Error: No container ID provided"
                +:+ Terminal.sgr "0"))
        <$> Drawer.terminalInstanceRef d.
Proof.
  intros Hr Hno.
  assert (Drawer.consistent d) as Hd.
  { apply (consistent_run JSON_parse actions _ d Hr). apply consistent_mount. }
  assert (Drawer.handleReconnect d
          = Some (Drawer.term_call
                    (Terminal.Writeln
                       (Terminal.sgr "31" +:+ "Error: No container ID provided"
                          +:+ Terminal.sgr "0")) (Drawer.close_current d)))
    as ->.
  { unfold Drawer.handleReconnect, Drawer.connectWebSocket.
    rewrite terminal_close_current, containerId_close_current.
    destruct Hno as [Hno | ->]; [| done].
    destruct (Drawer.terminalInstanceRef d); [| done].
    by destruct (Drawer.containerId d) as [[|]|]. }
  eexists. split; [done |]. cbn.
  rewrite wsRef_close_current, length_close_current, terminal_close_current.
  split_and!; try done.
  - intros ws s. by apply closing_close_current.
  - unfold Drawer.close_current. by destruct (Drawer.wsRef d).
  - unfold Drawer.close_current. by destruct (Drawer.wsRef d).
  - unfold Drawer.close_current. by destruct (Drawer.wsRef d).
Qed.

Lemma reconnect_without_container_witness :
  ∃ d',
    Drawer.handleReconnect Drawer.no_container = Some d'
    ∧ Drawer.wsRef d' = None
    ∧ length (Drawer.sockets d') = length (Drawer.sockets Drawer.no_container)
    ∧ (∀ ws s, Drawer.sockets d' !! ws = Some s → Drawer.closing s)
    ∧ Drawer.isConnected d' = Drawer.isConnected Drawer.no_container
    ∧ Drawer.isLoading d' = Drawer.isLoading Drawer.no_container
    ∧ Drawer.error d' = Drawer.error Drawer.no_container
    ∧ Drawer.terminalInstanceRef d'
      = Drawer.term_write
          (Terminal.Writeln
             (Terminal.sgr "31" +:+ "Error: No container ID provided"
                +:+ Terminal.sgr "0"))
        <$> Drawer.terminalInstanceRef Drawer.no_container.
Proof.
  apply (reconnect_without_container Terminal.one_message
           [Drawer.ModulesLoaded; Drawer.InitializeTerminal;
            Drawer.ConnectEffect]
           true None None None "http:" "localhost:3000" Drawer.no_container).
  - vm_compute. reflexivity.
  - left. reflexivity.
Defined.

Lemma all_chars_app (p : ascii → bool) (a b : string) :
  Drawer.all_chars p (a +:+ b) = Drawer.all_chars p a && Drawer.all_chars p b.
Proof.
  induction a as [|x a IH]; [done |].
  rewrite append_cons. cbn. rewrite IH. by rewrite andb_assoc.
Qed.

Lemma all_chars_has_char (p : ascii → bool) (s : string) (x : ascii) :
  Drawer.all_chars p s = true → has_char x s = true → p x = true.
Proof.
  induction s as [|c s IH]; [done |]. cbn.
  intros [Hc Hs]%andb_true_iff.
  destruct (Ascii.eqb_spec c x) as [-> | Hne]; [done | by apply IH].
Qed.

Lemma percent_chars (c : ascii) :
  Drawer.all_chars (fun x => Ascii.eqb x "%" || Drawer.unreserved x)
    (Drawer.percent c) = true.
Proof. destruct c as [[] [] [] [] [] [] [] []]; vm_compute; reflexivity. Qed.

Lemma encodeURIComponent_chars (s : string) :
  Drawer.all_chars (fun x => Ascii.eqb x "%" || Drawer.unreserved x)
    (Drawer.encodeURIComponent s) = true.
Proof.
  induction s as [|c s IH]; [done |].
  cbn [Drawer.encodeURIComponent]. rewrite all_chars_app, IH, andb_true_r.
  destruct (Drawer.unreserved c) eqn:E; [| apply percent_chars].
  cbn. by rewrite E, orb_true_r.
Qed.

Lemma encodeURIComponent_unreserved (s : string) :
  Drawer.all_chars Drawer.unreserved s = true →
  Drawer.encodeURIComponent s = s.
Proof.
  induction s as [|c s IH]; [done |]. cbn.
  intros [Hc Hs]%andb_true_iff. rewrite Hc, (IH Hs).
  by rewrite append_cons, append_nil_l.
Qed.

(** X20. The token cannot leave its place in the URL of the socket: the URL
    is the address of the terminal of the container, [?token=] and the
    encoded token, in which no character but [%] and the unreserved ones
    occurs, so none that ends the parameter or starts a fragment; a
    token of unreserved characters, as a JWT is, goes as it is, and no
    token at all goes as the empty string. *)
Theorem token_stays_in_query (d d' : Drawer.drawer) (t : Drawer.term)
    (id : string) :
  Drawer.connectWebSocket d = Some d' →
  Drawer.terminalInstanceRef d = Some t →
  Drawer.containerId d = Some id →
  id ≠ "" →
  ∃ q,
    Drawer.sockets d' !! length (Drawer.sockets d)
    = Some (Drawer.Socket
              (((if String.eqb (Drawer.protocol d) "https:"
                 then "wss:" else "ws:")
                  +:+ "//" +:+ Drawer.host d +:+ "/api/ws/terminal/" +:+ id)
                 +:+ "?token=" +:+ q)
              Terminal.CONNECTING [])
    ∧ (∀ x, x ∈ ["&"; "#"; "="; "?"; "/"; " "; "+"]%char →
            has_char x q = false)
    ∧ (∀ x, has_char x q = true → x = "%"%char ∨ Drawer.unreserved x = true)
    ∧ (∀ token, Drawer.token d = Some token →
                Drawer.all_chars Drawer.unreserved token = true → q = token)
    ∧ (Drawer.token d = None → q = "").
Proof.
  intros Hc Ht Hid Hne. unfold Drawer.connectWebSocket in Hc.
  rewrite Ht, Hid in Hc. destruct id as [|a rest]; [done |].
  destruct (has_char "#" (String a rest)); [done |]. injection Hc as <-.
  exists (Drawer.encodeURIComponent (default "" (Drawer.token d))).
  assert (∀ x, has_char x
                 (Drawer.encodeURIComponent (default "" (Drawer.token d)))
               = true → x = "%"%char ∨ Drawer.unreserved x = true) as Hsafe.
  { intros x Hx.
    pose proof (all_chars_has_char _ _ x (encodeURIComponent_chars _) Hx) as H.
    cbn in H. apply orb_true_iff in H as [H | H]; [left | by right].
    by apply Ascii.eqb_eq in H. }
  split_and!.
  - cbn. rewrite lookup_app_r by lia. rewrite Nat.sub_diag. cbn.
    do 2 f_equal. by rewrite !append_assoc.
  - intros x Hx.
    destruct (has_char x _) eqn:E; [| done].
    destruct (Hsafe x E) as [-> | Hu].
    + exfalso. revert Hx. rewrite !elem_of_cons, elem_of_nil.
      intros [?|[?|[?|[?|[?|[?|[?|[]]]]]]]]; discriminate.
    + exfalso. revert Hx Hu. rewrite !elem_of_cons, elem_of_nil.
      intros [->|[->|[->|[->|[->|[->|[->|[]]]]]]]]; discriminate.
  - done.
  - intros token -> Hall. by apply encodeURIComponent_unreserved.
  - by intros ->.
Qed.

Lemma token_stays_in_query_witness :
  ∃ q,
    Drawer.sockets
      (default Drawer.ready_page (Drawer.connectWebSocket Drawer.ready_page))
      !! length (Drawer.sockets Drawer.ready_page)
    = Some (Drawer.Socket
              (((if String.eqb (Drawer.protocol Drawer.ready_page) "https:"
                 then "wss:" else "ws:")
                  +:+ "//" +:+ Drawer.host Drawer.ready_page
                  +:+ "/api/ws/terminal/" +:+ "3f9a7c21")
                 +:+ "?token=" +:+ q)
              Terminal.CONNECTING [])
    ∧ (∀ x, x ∈ ["&"; "#"; "="; "?"; "/"; " "; "+"]%char →
            has_char x q = false)
    ∧ (∀ x, has_char x q = true → x = "%"%char ∨ Drawer.unreserved x = true)
    ∧ (∀ token, Drawer.token Drawer.ready_page = Some token →
                Drawer.all_chars Drawer.unreserved token = true → q = token)
    ∧ (Drawer.token Drawer.ready_page = None → q = "").
Proof.
  apply (token_stays_in_query Drawer.ready_page _
           (default (Drawer.Term [] 80 24 [])
              (Drawer.terminalInstanceRef Drawer.ready_page)) "3f9a7c21").
  - vm_compute. reflexivity.
  - vm_compute. reflexivity.
  - reflexivity.
  - discriminate.
Defined.

(** * The login form and the typing effect *)

Lemma may_pass_handle {unit : Type} (e : LoginForm.event unit)
    (f : LoginForm.form unit) :
  (∀ v, e = LoginForm.Username v → length v < 3) →
  ¬ LoginForm.may_pass f → ¬ LoginForm.may_pass (LoginForm.handle e f).
Proof.
  intros He Hf Hp. apply Hf. clear Hf. unfold LoginForm.may_pass in *.
  destruct e as [v | v | |]; cbn in Hp.
  - destruct Hp as [Hp | [Hp | Hp]]; [by left | | by right; right].
    specialize (He v eq_refl). lia.
  - exact Hp.
  - destruct Hp as [Hp | [Hp | (held & Hin & Hlen)]];
      [by left | by right; left |].
    apply elem_of_app in Hin as [Hin | Hin].
    + right. right. by exists held.
    + apply list_elem_of_singleton in Hin. subst held. by right; left.
  - revert Hp.
    destruct (LoginForm.waiting f) as [|held rest] eqn:Hw; intros Hp;
      [rewrite ?Hw in Hp; exact Hp |].
    unfold LoginForm.handle, LoginForm.resume in Hp. rewrite ?Hw in Hp.
    cbn [fst snd] in Hp.
    destruct ((length held.1 <? 3) || (length held.2 <? 6)) eqn:Hu;
      cbn in Hp.
    + destruct Hp as [Hp | [Hp | (h & Hin & Hlen)]];
        [by left | by right; left |].
      right. right. exists h. split; [by apply list_elem_of_further | done].
    + apply orb_false_iff in Hu as [Hu _]. apply Nat.ltb_ge in Hu.
      right. right. exists held.
      split; [apply list_elem_of_here | done].
Qed.

(** X21. No success without a username of three units: as long as every
    username entered is shorter, the form never shows success, whatever
    the passwords, however often and by which way it is submitted, and
    whenever the waits end. *)
Theorem short_username_never_passes {unit : Type}
    (events : list (LoginForm.event unit)) :
  (∀ v, LoginForm.Username v ∈ events → length v < 3) →
  LoginForm.showSuccess (LoginForm.run events LoginForm.initial) = false.
Proof.
  intros Hev.
  assert (¬ LoginForm.may_pass (LoginForm.run events LoginForm.initial))
    as Hno.
  { assert (¬ LoginForm.may_pass (@LoginForm.initial unit)) as H0.
    { intros [H | [H | (h & Hin & _)]]; [done | cbn in H; lia |].
      by apply elem_of_nil in Hin. }
    revert H0. generalize (@LoginForm.initial unit).
    induction events as [|e rest IH]; intros f Hf; [done |].
    cbn. apply IH.
    - intros v Hin. apply Hev. by apply list_elem_of_further.
    - apply may_pass_handle; [| done]. intros v ->. apply Hev.
      apply list_elem_of_here. }
  destruct (LoginForm.showSuccess _) eqn:E; [| done].
  destruct Hno. by left.
Qed.

Lemma short_username_never_passes_witness :
  LoginForm.showSuccess
    (LoginForm.run
       [LoginForm.Username [1; 2]; LoginForm.Password [1; 2; 3; 4; 5; 6; 7];
        LoginForm.Submit; LoginForm.Username [1]; LoginForm.Submit;
        LoginForm.Waited; LoginForm.Waited]
       LoginForm.initial) = false.
Proof.
  apply (short_username_never_passes
           [LoginForm.Username [1; 2];
            LoginForm.Password [1; 2; 3; 4; 5; 6; 7];
            LoginForm.Submit; LoginForm.Username [1]; LoginForm.Submit;
            LoginForm.Waited; LoginForm.Waited]).
  intros v Hin. rewrite !elem_of_cons, elem_of_nil in Hin.
  destruct Hin as [[= ->]|[?|[?|[[= ->]|[?|[?|[?|[]]]]]]]];
    try discriminate; cbn; lia.
Defined.

(** X22. A submit is judged on what the fields held when it was made: with a
    username of at least three units and a password of at least six, and
    no other call waiting, the form shows success when the wait ends,
    whatever is typed into the fields during the wait; and with a
    shorter username or password it shows the error and no success it
    did not show before. *)
Theorem submit_judged_on_its_values {unit : Type}
    (f : LoginForm.form unit) (edits : list (LoginForm.event unit)) :
  LoginForm.waiting f = [] →
  (∀ e, e ∈ edits → ∃ v, e = LoginForm.Username v ∨ e = LoginForm.Password v) →
  let f' := LoginForm.run (LoginForm.Submit :: edits ++ [LoginForm.Waited]) f in
  LoginForm.isLoading f' = false
  ∧ LoginForm.waiting f' = []
  ∧ (3 ≤ length (LoginForm.username f) → 6 ≤ length (LoginForm.password f) →
     LoginForm.showSuccess f' = true ∧ LoginForm.error f' = None)
  ∧ (length (LoginForm.username f) < 3 ∨ length (LoginForm.password f) < 6 →
     LoginForm.showSuccess f' = LoginForm.showSuccess f
     ∧ LoginForm.error f'
       = Some "AUTHENTICATION_FAILED: Invalid credentials").
Proof.
  intros Hw Hed. cbv zeta. unfold LoginForm.run.
  cbn [foldl]. rewrite foldl_app. cbn [foldl].
  assert (∀ g, LoginForm.waiting g
               = [(LoginForm.username f, LoginForm.password f)] →
               LoginForm.error g = None →
               LoginForm.showSuccess g = LoginForm.showSuccess f →
               let g' := foldl (λ f0 e, LoginForm.handle e f0) g edits in
               LoginForm.waiting g'
               = [(LoginForm.username f, LoginForm.password f)]
               ∧ LoginForm.error g' = None
               ∧ LoginForm.showSuccess g' = LoginForm.showSuccess f) as Hkeep.
  { induction edits as [|e rest IH]; intros g G1 G3 G4; [done |].
    cbn. apply IH.
    - intros e' Hin. apply Hed. by apply list_elem_of_further.
    - destruct (Hed e (list_elem_of_here _ _)) as (v & [-> | ->]); done.
    - destruct (Hed e (list_elem_of_here _ _)) as (v & [-> | ->]); done.
    - destruct (Hed e (list_elem_of_here _ _)) as (v & [-> | ->]); done. }
  destruct (Hkeep (LoginForm.handleSubmit f)) as (K1 & K2 & K3).
  { cbn. by rewrite Hw. }
  { done. } { done. }
  cbn [LoginForm.handle]. rewrite K1. unfold LoginForm.resume.
  cbn [fst snd].
  destruct (Nat.ltb_spec (length (LoginForm.username f)) 3) as [Hu | Hu];
    destruct (Nat.ltb_spec (length (LoginForm.password f)) 6) as [Hp | Hp];
    cbn [orb LoginForm.isLoading LoginForm.waiting LoginForm.showSuccess
         LoginForm.error];
    rewrite ?K2, ?K3; split_and!; try done; intros; try lia; by split.
Qed.

Lemma submit_judged_on_its_values_witness :
  let f := LoginForm.run
             [LoginForm.Username [1; 2; 3];
              LoginForm.Password [1; 2; 3; 4; 5; 6]] LoginForm.initial in
  let f' := LoginForm.run
              (LoginForm.Submit
                 :: [LoginForm.Username []; LoginForm.Password [9]]
                 ++ [LoginForm.Waited]) f in
  LoginForm.isLoading f' = false
  ∧ LoginForm.waiting f' = []
  ∧ (3 ≤ length (LoginForm.username f) → 6 ≤ length (LoginForm.password f) →
     LoginForm.showSuccess f' = true ∧ LoginForm.error f' = None)
  ∧ (length (LoginForm.username f) < 3 ∨ length (LoginForm.password f) < 6 →
     LoginForm.showSuccess f' = LoginForm.showSuccess f
     ∧ LoginForm.error f'
       = Some "AUTHENTICATION_FAILED: Invalid credentials").
Proof.
  cbv zeta.
  apply (submit_judged_on_its_values
           (LoginForm.run
              [LoginForm.Username [1; 2; 3];
               LoginForm.Password [1; 2; 3; 4; 5; 6]] LoginForm.initial)
           [LoginForm.Username []; LoginForm.Password [9]]).
  - reflexivity.
  - intros e He. rewrite !elem_of_cons, elem_of_nil in He.
    destruct He as [-> | [-> | []]]; eauto.
Defined.

Lemma typing_run_snoc {unit : Type} (text : list unit)
    (events : list TypingEffect.event) (e : TypingEffect.event)
    (st : TypingEffect.typing unit) :
  TypingEffect.run text (events ++ [e]) st
  = TypingEffect.handle text e (TypingEffect.run text events st).
Proof. unfold TypingEffect.run. by rewrite foldl_app. Qed.

Lemma ticks_snoc (events : list TypingEffect.event) (e : TypingEffect.event) :
  TypingEffect.ticks (events ++ [e])
  = TypingEffect.ticks events
    + match e with TypingEffect.Tick => 1 | TypingEffect.Render => 0 end.
Proof.
  induction events as [|x events IH]; [by destruct e |].
  destruct x; cbn; rewrite IH; lia.
Qed.

(** The state after any ticks and renders. *)
Lemma typing_state {unit : Type} (text : list unit)
    (events : list TypingEffect.event) :
  ∃ c, TypingEffect.run text events (TypingEffect.mount text)
       = TypingEffect.Typing (take (TypingEffect.ticks events) text)
           (TypingEffect.ticks events `min` length text) c
       ∧ (c = 0 ↔ TypingEffect.ticks events < length text).
Proof.
  induction events as [|e events IH] using rev_ind.
  - unfold TypingEffect.run, TypingEffect.mount, TypingEffect.effect.
    cbn [foldl TypingEffect.ticks TypingEffect.currentIndex
         TypingEffect.displayText TypingEffect.completed].
    destruct (Nat.ltb_spec 0 (length text)) as [Hlt | Hge].
    + exists 0. split; [by rewrite take_0 | done].
    + exists 1. split; [by rewrite take_0 |]. split; [done | lia].
  - destruct IH as (c & Hst & Hc).
    rewrite typing_run_snoc, Hst, ticks_snoc.
    set (n := TypingEffect.ticks events) in *.
    destruct e; cbn [TypingEffect.handle].
    + unfold TypingEffect.tick.
      cbn [TypingEffect.currentIndex TypingEffect.displayText
           TypingEffect.completed].
      destruct (Nat.ltb_spec (n `min` length text) (length text))
        as [Hlt | Hge].
      * assert (n < length text) as Hn by lia.
        rewrite (Nat.min_l n) by lia.
        unfold TypingEffect.timeout, TypingEffect.effect.
        cbn [TypingEffect.currentIndex TypingEffect.displayText
             TypingEffect.completed].
        destruct (lookup_lt_is_Some_2 text n Hn) as [x Hx]. rewrite Hx.
        cbn [TypingEffect.currentIndex TypingEffect.displayText
             TypingEffect.completed].
        rewrite <- (take_S_r text n x Hx).
        replace (n + 1) with (S n) by lia.
        rewrite (Nat.min_l (S n)) by lia.
        destruct (Nat.ltb_spec (S n) (length text)) as [Hlt' | Hge'].
        -- exists c. split; [done |]. split; [done | intros _; by apply Hc].
        -- exists (S c). split; [done |]. split; [done | lia].
      * assert (length text ≤ n) as Hn by lia.
        exists c. split.
        -- by rewrite !take_ge, !Nat.min_r by lia.
        -- split; [intros H; apply Hc in H; lia | lia].
    + rewrite Nat.add_0_r. unfold TypingEffect.effect.
      cbn [TypingEffect.currentIndex TypingEffect.displayText
           TypingEffect.completed].
      destruct (Nat.ltb_spec (n `min` length text) (length text))
        as [Hlt | Hge].
      * by exists c.
      * exists (S c). split; [done |]. split; [done | lia].
Qed.

(** Once the text is complete, a tick does nothing and a render calls
    [onComplete]. *)
Lemma typing_after_complete {unit : Type} (text : list unit)
    (more : list TypingEffect.event) (st : TypingEffect.typing unit) :
  length text ≤ TypingEffect.currentIndex st →
  TypingEffect.run text more st
  = TypingEffect.Typing (TypingEffect.displayText st)
      (TypingEffect.currentIndex st)
      (TypingEffect.completed st + TypingEffect.renders more).
Proof.
  revert st. induction more as [|e more IH]; intros st Hst.
  - cbn. rewrite Nat.add_0_r. by destruct st.
  - change (TypingEffect.run text (e :: more) st)
      with (TypingEffect.run text more (TypingEffect.handle text e st)).
    destruct e; cbn [TypingEffect.handle TypingEffect.renders].
    + unfold TypingEffect.tick.
      rewrite (proj2 (Nat.ltb_ge _ _) Hst). by apply IH.
    + unfold TypingEffect.effect.
      rewrite (proj2 (Nat.ltb_ge _ _) Hst). rewrite IH by done.
      cbn [TypingEffect.currentIndex TypingEffect.displayText
           TypingEffect.completed]. f_equal. lia.
Qed.

(** X23. The typing effect spells its text: after any ticks of its 50 ms
    timer and any renders by its parent it shows the first units of the
    text, as many as there were ticks, and all of it from the length of
    the text on.  It has not called [onComplete] before the text is
    complete; the tick that completes the text makes the first call, an
    empty text has it at once, and from then on every render by the
    parent calls [onComplete] once more, so that it may be called more
    than once. *)
Theorem typing_spells_text {unit : Type} (text : list unit)
    (events : list TypingEffect.event) :
  let n := TypingEffect.ticks events in
  let st := TypingEffect.run text events (TypingEffect.mount text) in
  TypingEffect.displayText st = take n text
  ∧ TypingEffect.currentIndex st = n `min` length text
  ∧ (TypingEffect.completed st = 0 ↔ n < length text)
  ∧ (∀ pre, events = pre ++ [TypingEffect.Tick] →
            TypingEffect.ticks pre + 1 = length text →
            TypingEffect.completed st = 1)
  ∧ (text = [] → TypingEffect.completed st = 1 + TypingEffect.renders events)
  ∧ (∀ more, length text ≤ n →
             TypingEffect.completed
               (TypingEffect.run text (events ++ more)
                  (TypingEffect.mount text))
             = TypingEffect.completed st + TypingEffect.renders more).
Proof.
  cbv zeta. destruct (typing_state text events) as (c & Hst & Hc).
  rewrite Hst. cbn [TypingEffect.currentIndex TypingEffect.displayText
                    TypingEffect.completed].
  split_and!; try done.
  - intros pre -> Hlen.
    destruct (typing_state text pre) as (c0 & Hpre & Hc0).
    rewrite typing_run_snoc, Hpre in Hst.
    assert (c0 = 0) as -> by (apply Hc0; lia).
    revert Hst. cbn [TypingEffect.handle]. unfold TypingEffect.tick.
    cbn [TypingEffect.currentIndex TypingEffect.displayText
         TypingEffect.completed].
    rewrite (Nat.min_l (TypingEffect.ticks pre)) by lia.
    rewrite (proj2 (Nat.ltb_lt _ _)) by lia.
    unfold TypingEffect.timeout, TypingEffect.effect.
    cbn [TypingEffect.currentIndex TypingEffect.displayText
         TypingEffect.completed].
    destruct (lookup_lt_is_Some_2 text (TypingEffect.ticks pre) ltac:(lia))
      as [x Hx].
    rewrite Hx.
    cbn [TypingEffect.currentIndex TypingEffect.displayText
         TypingEffect.completed].
    rewrite (proj2 (Nat.ltb_ge _ _)) by lia. by intros [= _ _ <-].
  - intros ->.
    pose proof (typing_after_complete (@nil unit) events
                  (TypingEffect.mount []) ltac:(cbn; lia)) as H.
    rewrite Hst in H. cbn in H. by injection H as _ _ ->.
  - intros more Hlen. unfold TypingEffect.run. rewrite foldl_app.
    fold (TypingEffect.run text events (TypingEffect.mount text)).
    fold (TypingEffect.run text more
            (TypingEffect.run text events (TypingEffect.mount text))).
    rewrite Hst, typing_after_complete; [done |].
    cbn [TypingEffect.currentIndex]. lia.
Qed.

Lemma typing_spells_text_witness :
  let text := [65; 67; 75] in
  let events := [TypingEffect.Tick; TypingEffect.Render; TypingEffect.Tick;
                 TypingEffect.Tick] in
  let n := TypingEffect.ticks events in
  let st := TypingEffect.run text events (TypingEffect.mount text) in
  TypingEffect.displayText st = take n text
  ∧ TypingEffect.currentIndex st = n `min` length text
  ∧ (TypingEffect.completed st = 0 ↔ n < length text)
  ∧ (∀ pre, events = pre ++ [TypingEffect.Tick] →
            TypingEffect.ticks pre + 1 = length text →
            TypingEffect.completed st = 1)
  ∧ (text = [] → TypingEffect.completed st = 1 + TypingEffect.renders events)
  ∧ (∀ more, length text ≤ n →
             TypingEffect.completed
               (TypingEffect.run text (events ++ more)
                  (TypingEffect.mount text))
             = TypingEffect.completed st + TypingEffect.renders more).
Proof.
  exact (typing_spells_text [65; 67; 75]
           [TypingEffect.Tick; TypingEffect.Render; TypingEffect.Tick;
            TypingEffect.Tick]).
Defined.
